(** * Results and standings aggregation of the F1 data platform

    A shallow embedding of
    [src/f1_pipeline/transformers/analytics_transformer.py]
    ([DataTransformer]): the points calculator, the per-session merge
    loop of [transform_grand_prix_results] and the championship fold of
    [transform_championship_standings], followed by the properties of
    the specification that concern them.

    Conventions of the embedding.
    - A [pandas.DataFrame] is the list of its rows, in row order; the
      empty frame is [[]].
    - Integers are [Z]; counts, list indices, ranks and round numbers
      are [nat].  Timestamps ([date], [created_at]) are [Z] instants.
      Points, lap durations and penalty seconds are [REAL] columns
      holding exact values; they are [Z] here (points as such, durations
      in a fixed sub-second unit), only compared and added.
    - A nullable numeric column is an [option Z]; [None] is the NaN that
      pandas reads for SQL NULL: every comparison with it is false and it
      is not a key of the points table.  The column [position] of a
      classification frame is compared row by row in plain Python, where
      a null of an object column ([None]) and a null of a float column
      (NaN) differ: its cells are a [cell], which tells them apart.
    - A Python [dict] is an association list in insertion order.
    - A raised exception is [None] in the [option] monad; the functions
      whose body is wrapped in [try ... except Exception] turn it into
      the empty frame, as the source does.
    - [datetime.utcnow()] is an oracle [utcnow : nat -> Z]: the reading
      of the wall clock at the n-th record created by the call. *)

From Stdlib Require Import String Ascii DecimalString OrderedTypeEx.
From Stdlib Require DecimalPos DecimalZ.
From Stdlib Require Import ZArith Bool Lia Arith List.
From Stdlib Require Import Sorting.Sorted Sorting.Permutation.
Import ListNotations.

Local Open Scope Z_scope.

(** ** The error monad of raised exceptions *)

Definition bind {A B : Type} (m : option A) (f : A -> option B) : option B :=
  match m with
  | Some a => f a
  | None => None
  end.

Notation "x <- m ;; k" := (bind m (fun x => k))
  (at level 61, m at next level, right associativity).

Fixpoint mapM {A B : Type} (f : A -> option B) (l : list A) : option (list B) :=
  match l with
  | [] => Some []
  | x :: l' => y <- f x ;; ys <- mapM f l' ;; Some (y :: ys)
  end.

(** ** Data model *)

(** A row of [grand_prix_results], as [transform_grand_prix_results]
    builds it and [transform_championship_standings] reads it back. *)
Module GP.
Record t : Type := mk {
  result_id : string;
  date : Z;
  year : Z;
  grand_prix : string;
  circuit_name : string;
  driver_number : Z;
  driver_name : string;
  driver_acronym : string;
  team_name : string;
  starting_grid_position : option Z;
  final_position : option Z;
  points : Z;
  fastest_lap : option Z;
  total_time_penalty : Z;
  dnf : bool;
  dns : bool;
  dsq : bool;
  created_at : Z
}.
End GP.

(** An element of the list [race_standings]. *)
Module Entry.
Record t : Type := mk {
  driver_number : Z;
  driver_name : string;
  team_name : string;
  points : Z;
  wins : nat;
  podiums : nat;
  points_finishes : nat
}.
End Entry.

(** A row of [driver_championship_standings] ([standing_record]). *)
Module Standing.
Record t : Type := mk {
  standing_id : string;
  year : Z;
  race_round : nat;
  after_race : string;
  driver_number : Z;
  driver_name : string;
  team_name : string;
  position : nat;
  points : Z;
  points_behind_leader : Z;
  points_ahead_next : Z;
  wins : nat;
  podiums : nat;
  points_finishes : nat;
  created_at : Z
}.
End Standing.

(** ** Python and pandas primitives *)

(** [str(n)] of an integer, as an f-string formats it. *)
Definition str_of_Z (n : Z) : string := NilZero.string_of_int (Z.to_int n).

Definition str_of_nat (n : nat) : string := str_of_Z (Z.of_nat n).

(** [df.iloc[0]]: the first row, [IndexError] on the empty frame. *)
Definition iloc0 {A : Type} (df : list A) : option A :=
  match df with
  | [] => None
  | row :: _ => Some row
  end.

(** [enumerate(l, start)]. *)
Definition enumerate {A : Type} (start : nat) (l : list A) : list (nat * A) :=
  combine (seq start (length l)) l.

(** Comparisons of a nullable column with a constant. *)
Definition opt_eqb (x : option Z) (c : Z) : bool :=
  match x with
  | Some v => v =? c
  | None => false
  end.

Definition opt_leb (x : option Z) (c : Z) : bool :=
  match x with
  | Some v => v <=? c
  | None => false
  end.

(** [dict] operations on an insertion-ordered association list. *)
Definition dict := list (Z * Z).

Fixpoint dict_mem (k : Z) (d : dict) : bool :=
  match d with
  | [] => false
  | (k', _) :: d' => (k' =? k) || dict_mem k d'
  end.

Fixpoint dict_get (k : Z) (d : dict) : option Z :=
  match d with
  | [] => None
  | (k', v) :: d' => if k' =? k then Some v else dict_get k d'
  end.

(** [d[k] = v]: in place for a present key, appended for a new one. *)
Fixpoint dict_set (k v : Z) (d : dict) : dict :=
  match d with
  | [] => [(k, v)]
  | (k', v') :: d' =>
      if k' =? k then (k', v) :: d' else (k', v') :: dict_set k v d'
  end.

(** ** Championship standings *)

(** The key of [results.groupby(["date", "grand_prix"])]. *)
Definition race_key : Type := (Z * string)%type.

Definition key_of (r : GP.t) : race_key := (GP.date r, GP.grand_prix r).

Definition key_compare (a b : race_key) : comparison :=
  match fst a ?= fst b with
  | Eq => String.compare (snd a) (snd b)
  | c => c
  end.

Definition key_eqb (a b : race_key) : bool :=
  (fst a =? fst b) && String.eqb (snd a) (snd b).

(** [groupby] sorts the distinct keys ascending. *)
Fixpoint insert_key (k : race_key) (l : list race_key) : list race_key :=
  match l with
  | [] => [k]
  | k' :: l' =>
      match key_compare k k' with
      | Lt => k :: l
      | Eq => l
      | Gt => k' :: insert_key k l'
      end
  end.

(** [results.groupby(["date", "grand_prix"]).first().reset_index()],
    of which only the two key columns are read. *)
Definition races_of (results : list GP.t) : list race_key :=
  fold_right (fun r acc => insert_key (key_of r) acc) [] results.

(** The rows of one race:
    [results[(results["date"] == race["date"]) &
             (results["grand_prix"] == race["grand_prix"])]]. *)
Definition race_results_of (results : list GP.t) (race : race_key) : list GP.t :=
  filter (fun r => key_eqb (key_of r) race) results.

(** One iteration of the loop that updates [cumulative_points]. *)
Definition add_result (cumulative_points : dict) (result : GP.t) : option dict :=
  let driver_number := GP.driver_number result in
  let cumulative_points :=
    if negb (dict_mem driver_number cumulative_points)
    then dict_set driver_number 0 cumulative_points
    else cumulative_points in
  old <- dict_get driver_number cumulative_points ;;
  Some (dict_set driver_number (old + GP.points result) cumulative_points).

Fixpoint add_results (cumulative_points : dict) (race_results : list GP.t)
  : option dict :=
  match race_results with
  | [] => Some cumulative_points
  | result :: rest =>
      cumulative_points <- add_result cumulative_points result ;;
      add_results cumulative_points rest
  end.

(** The body of the loop over [cumulative_points.items()]. *)
Definition standing_entry (results : list GP.t) (race : race_key)
    (item : Z * Z) : option Entry.t :=
  let '(driver_number, total_points) := item in
  driver_info <-
    iloc0 (filter (fun r => GP.driver_number r =? driver_number) results) ;;
  let driver_results :=
    filter (fun r => (GP.driver_number r =? driver_number)
                     && (GP.date r <=? fst race)) results in
  let wins :=
    length (filter (fun r => opt_eqb (GP.final_position r) 1) driver_results) in
  let podiums :=
    length (filter (fun r => opt_leb (GP.final_position r) 3) driver_results) in
  let points_finishes :=
    length (filter (fun r => 0 <? GP.points r) driver_results) in
  Some (Entry.mk driver_number (GP.driver_name driver_info)
          (GP.team_name driver_info) total_points wins podiums points_finishes).

(** [race_standings.sort(key=lambda x: x["points"], reverse=True)]:
    Python's sort is stable, also under [reverse=True], so entries of
    equal points keep their order.  A stable insertion sort computes the
    same list. *)
Fixpoint insert_standing (x : Entry.t) (l : list Entry.t) : list Entry.t :=
  match l with
  | [] => [x]
  | y :: l' =>
      if Entry.points x <? Entry.points y
      then y :: insert_standing x l'
      else x :: l
  end.

Fixpoint sort_standings (l : list Entry.t) : list Entry.t :=
  match l with
  | [] => []
  | x :: l' => insert_standing x (sort_standings l')
  end.

(** The dictionary literal [standing_record]. *)
Definition standing_record (now year : Z) (race_idx : nat) (race : race_key)
    (race_standings : list Entry.t) (leader_points : Z)
    (position : nat) (standing : Entry.t) : option Standing.t :=
  let points_behind_leader := leader_points - Entry.points standing in
  points_ahead_next <-
    (if (position <? length race_standings)%nat
     then next <- nth_error race_standings position ;;
          Some (Entry.points standing - Entry.points next)
     else Some 0) ;;
  Some (Standing.mk
          (str_of_Z year ++ "_" ++ str_of_nat (race_idx + 1) ++ "_"
             ++ str_of_Z (Entry.driver_number standing))%string
          year (race_idx + 1) (snd race)
          (Entry.driver_number standing) (Entry.driver_name standing)
          (Entry.team_name standing)
          position (Entry.points standing)
          points_behind_leader points_ahead_next
          (Entry.wins standing) (Entry.podiums standing)
          (Entry.points_finishes standing)
          now).

(** The loop [for position, standing in enumerate(race_standings, 1)],
    appending to [standings_records]. *)
Fixpoint emit_standings (utcnow : nat -> Z) (year : Z) (race_idx : nat)
    (race : race_key) (race_standings : list Entry.t) (leader_points : Z)
    (todo : list (nat * Entry.t)) (standings_records : list Standing.t)
  : option (list Standing.t) :=
  match todo with
  | [] => Some standings_records
  | (position, standing) :: rest =>
      rec <- standing_record (utcnow (length standings_records)) year race_idx
               race race_standings leader_points position standing ;;
      emit_standings utcnow year race_idx race race_standings leader_points
        rest (standings_records ++ [rec])
  end.

(** The loop [for race_idx, race in races.iterrows()]. *)
Fixpoint process_races (utcnow : nat -> Z) (year : Z) (results : list GP.t)
    (races : list (nat * race_key)) (cumulative_points : dict)
    (standings_records : list Standing.t) : option (list Standing.t) :=
  match races with
  | [] => Some standings_records
  | (race_idx, race) :: rest =>
      let race_results := race_results_of results race in
      cumulative_points <- add_results cumulative_points race_results ;;
      race_standings <- mapM (standing_entry results race) cumulative_points ;;
      let race_standings := sort_standings race_standings in
      let leader_points :=
        match race_standings with
        | [] => 0
        | first :: _ => Entry.points first
        end in
      standings_records <-
        emit_standings utcnow year race_idx race race_standings leader_points
          (enumerate 1 race_standings) standings_records ;;
      process_races utcnow year results rest cumulative_points standings_records
  end.

(** [transform_championship_standings(year)], given the rows [results]
    that the query on [grand_prix_results] fetched for [year]. *)
Definition transform_championship_standings (utcnow : nat -> Z) (year : Z)
    (results : list GP.t) : list Standing.t :=
  match results with
  | [] => []
  | _ :: _ =>
      match process_races utcnow year results
              (enumerate 0 (races_of results)) [] [] with
      | Some standings_records => standings_records
      | None => []
      end
  end.

(** ** Grand Prix results *)

(** The frames that the queries of [transform_grand_prix_results]
    fetch.  The SQL engine is outside the repository: a database is the
    answer it gives to each [SELECT ... WHERE ... ORDER BY] of the code,
    and the table [raw_laps], whose aggregate query is computed below. *)
Module Session.
Record t : Type := mk {
  session_key : Z;
  meeting_key : Z;
  race_round : Z;
  race_date : Z;
  meeting_name : string;
  circuit_short_name : string
}.
End Session.

(** A cell of the column [position] of the frame of
    [_get_session_results]: an integer; the NaN of a float column, which
    pandas builds when some positions of the frame are NULL; or the
    [None] of an object column, which it builds when all of them are. *)
Inductive cell : Type :=
| Num (z : Z)
| NaN
| PyNone.

(** The value of a cell as the nullable column [final_position] stores
    it: both nulls are SQL NULL. *)
Definition cell_value (c : cell) : option Z :=
  match c with
  | Num z => Some z
  | NaN | PyNone => None
  end.

(** [c <= k] in Python: false on NaN, [TypeError] on [None]. *)
Definition cell_leb (c : cell) (k : Z) : option bool :=
  match c with
  | Num z => Some (z <=? k)
  | NaN => Some false
  | PyNone => None
  end.

Module SessionResult.
Record t : Type := mk {
  driver_number : Z;
  position : cell;
  dnf : option bool;   (* [None]: the column is absent *)
  dns : option bool;
  dsq : option bool
}.
End SessionResult.

Module Driver.
Record t : Type := mk {
  driver_number : Z;
  full_name : string;
  name_acronym : string;
  team_name : string
}.
End Driver.

Module Grid.
Record t : Type := mk {
  driver_number : Z;
  position : option Z
}.
End Grid.

Module Lap.
Record t : Type := mk {
  session_key : Z;
  driver_number : Z;
  lap_duration : option Z
}.
End Lap.

Module FastestLap.
Record t : Type := mk {
  driver_number : Z;
  lap_duration : Z
}.
End FastestLap.

Module Penalty.
Record t : Type := mk {
  driver_number : Z;
  penalty_seconds : Z
}.
End Penalty.

Record Database : Type := {
  race_sessions : Z -> list Session.t;
  raw_session_result : Z -> list SessionResult.t;
  raw_drivers : Z -> list Driver.t;
  raw_starting_grid : Z -> list Grid.t;
  raw_laps : list Lap.t
}.

Definition _get_session_results (db : Database) (session_key : Z)
  : list SessionResult.t := raw_session_result db session_key.

Definition _get_session_drivers (db : Database) (session_key : Z)
  : list Driver.t := raw_drivers db session_key.

Definition _get_starting_grid (db : Database) (session_key : Z)
  : list Grid.t := raw_starting_grid db session_key.

(** [MIN(lap_duration) ... GROUP BY driver_number]: one row per driver,
    holding the least of that driver's durations. *)
Fixpoint group_min (driver_number lap_duration : Z)
    (groups : list FastestLap.t) : list FastestLap.t :=
  match groups with
  | [] => [FastestLap.mk driver_number lap_duration]
  | g :: groups' =>
      if FastestLap.driver_number g =? driver_number
      then FastestLap.mk driver_number
             (Z.min (FastestLap.lap_duration g) lap_duration) :: groups'
      else g :: group_min driver_number lap_duration groups'
  end.

Definition _get_fastest_laps (db : Database) (session_key : Z)
  : list FastestLap.t :=
  fold_left
    (fun groups lap =>
       match Lap.lap_duration lap with
       | Some d =>
           if Lap.session_key lap =? session_key
           then group_min (Lap.driver_number lap) d groups
           else groups
       | None => groups
       end)
    (raw_laps db) [].

(** "For now, return empty DataFrame". *)
Definition _get_penalties (db : Database) (session_key : Z)
  : list Penalty.t := [].

Definition points_system (position : option Z) : option Z :=
  match position with
  | Some 1 => Some 25
  | Some 2 => Some 18
  | Some 3 => Some 15
  | Some 4 => Some 12
  | Some 5 => Some 10
  | Some 6 => Some 8
  | Some 7 => Some 6
  | Some 8 => Some 4
  | Some 9 => Some 2
  | Some 10 => Some 1
  | _ => None
  end.

(** [_calculate_points(position, has_fastest_lap)].  The operator [and]
    evaluates [position <= 10] only when [has_fastest_lap] is true; on
    a [None] position that comparison raises [TypeError]. *)
Definition _calculate_points (position : cell) (has_fastest_lap : bool)
  : option Z :=
  let points :=
    match points_system (cell_value position) with
    | Some p => p
    | None => 0
    end in
  if has_fastest_lap
  then
    top_ten <- cell_leb position 10 ;;
    Some (if top_ten then points + 1 else points)
  else Some points.

(** [Series.get(key, False)]. *)
Definition get_default (x : option bool) (default : bool) : bool :=
  match x with
  | Some b => b
  | None => default
  end.

Definition sum_Z (l : list Z) : Z := fold_right Z.add 0 l.

(** What one turn of the loop over [session_results.iterrows()] does:
    it raises, takes the [continue] of a driver absent from [drivers],
    or builds a record. *)
Inductive outcome : Type :=
| Raised
| Skipped
| Built (result_record : GP.t).

(** The body of the loop over [session_results.iterrows()].  The second
    argument of [_calculate_points] is
    [fastest_lap_time is not None and result["position"] <= 10]: the
    comparison is made only for a driver with a timed lap, and raises
    [TypeError] there on a [None] position. *)
Definition result_record (now year : Z) (session : Session.t)
    (drivers : list Driver.t) (starting_grid : list Grid.t)
    (fastest_laps : list FastestLap.t) (penalties : list Penalty.t)
    (result : SessionResult.t) : outcome :=
  let driver_number := SessionResult.driver_number result in
  match filter (fun d => Driver.driver_number d =? driver_number) drivers with
  | [] => Skipped
  | driver_info :: _ =>
      let start_pos :=
        filter (fun g => Grid.driver_number g =? driver_number) starting_grid in
      let starting_position :=
        match start_pos with
        | g :: _ => Grid.position g
        | [] => None
        end in
      let fast_lap :=
        filter (fun f => FastestLap.driver_number f =? driver_number)
          fastest_laps in
      let fastest_lap_time :=
        match fast_lap with
        | f :: _ => Some (FastestLap.lap_duration f)
        | [] => None
        end in
      let driver_penalties :=
        filter (fun p => Penalty.driver_number p =? driver_number) penalties in
      let total_penalty :=
        match driver_penalties with
        | [] => 0
        | _ :: _ => sum_Z (map Penalty.penalty_seconds driver_penalties)
        end in
      let has_fastest_lap :=
        match fastest_lap_time with
        | Some _ => cell_leb (SessionResult.position result) 10
        | None => Some false
        end in
      match
        flag <- has_fastest_lap ;;
        _calculate_points (SessionResult.position result) flag
      with
      | None => Raised
      | Some points =>
          Built (GP.mk
                   (str_of_Z year ++ "_"
                      ++ str_of_Z (Session.race_round session)
                      ++ "_" ++ str_of_Z driver_number)%string
                   (Session.race_date session) year
                   (Session.meeting_name session)
                   (Session.circuit_short_name session)
                   driver_number
                   (Driver.full_name driver_info)
                   (Driver.name_acronym driver_info)
                   (Driver.team_name driver_info)
                   starting_position
                   (cell_value (SessionResult.position result))
                   points
                   fastest_lap_time
                   total_penalty
                   (get_default (SessionResult.dnf result) false)
                   (get_default (SessionResult.dns result) false)
                   (get_default (SessionResult.dsq result) false)
                   now)
      end
  end.

(** The loop over [session_results.iterrows()], appending to [results];
    [None] when a turn raises. *)
Fixpoint merge_session (utcnow : nat -> Z) (year : Z) (session : Session.t)
    (drivers : list Driver.t) (starting_grid : list Grid.t)
    (fastest_laps : list FastestLap.t) (penalties : list Penalty.t)
    (session_results : list SessionResult.t) (results : list GP.t)
  : option (list GP.t) :=
  match session_results with
  | [] => Some results
  | result :: rest =>
      match result_record (utcnow (length results)) year session drivers
              starting_grid fastest_laps penalties result with
      | Raised => None
      | Skipped =>
          merge_session utcnow year session drivers starting_grid
            fastest_laps penalties rest results
      | Built result_record =>
          merge_session utcnow year session drivers starting_grid
            fastest_laps penalties rest (results ++ [result_record])
      end
  end.

(** The loop over [race_sessions.iterrows()]. *)
Fixpoint merge_sessions (utcnow : nat -> Z) (db : Database) (year : Z)
    (sessions : list Session.t) (results : list GP.t)
  : option (list GP.t) :=
  match sessions with
  | [] => Some results
  | session :: rest =>
      let session_key := Session.session_key session in
      let session_results := _get_session_results db session_key in
      match session_results with
      | [] => merge_sessions utcnow db year rest results
      | _ :: _ =>
          let drivers := _get_session_drivers db session_key in
          match drivers with
          | [] => merge_sessions utcnow db year rest results
          | _ :: _ =>
              let starting_grid := _get_starting_grid db session_key in
              let fastest_laps := _get_fastest_laps db session_key in
              let penalties := _get_penalties db session_key in
              results <- merge_session utcnow year session drivers
                           starting_grid fastest_laps penalties
                           session_results results ;;
              merge_sessions utcnow db year rest results
          end
      end
  end.

(** The list [results] of [transform_grand_prix_results(year)] when the
    two loops end; [None] when a turn of them raises. *)
Definition built_results (utcnow : nat -> Z) (db : Database) (year : Z)
  : option (list GP.t) :=
  merge_sessions utcnow db year (race_sessions db year) [].

(** The records of the frame that [transform_grand_prix_results(year)]
    returns: the list [results] handed to [pd.DataFrame], to which
    [_add_championship_context] then adds three columns, reordering the
    rows and changing no column built here; no record at all when a
    turn of the loops raised, the [except] branch returning the empty
    frame. *)
Definition grand_prix_results (utcnow : nat -> Z) (db : Database) (year : Z)
  : list GP.t :=
  match built_results utcnow db year with
  | Some results => results
  | None => []
  end.

(** ** Closed forms used in the statements *)

(** [d[k] += v], with [d[k]] created at 0 when absent. *)
Fixpoint dict_add (k v : Z) (d : dict) : dict :=
  match d with
  | [] => [(k, v)]
  | (k', v') :: d' =>
      if k' =? k then (k', v' + v) :: d' else (k', v') :: dict_add k v d'
  end.

Definition add_all (cp : dict) (rows : list GP.t) : dict :=
  fold_left (fun d r => dict_add (GP.driver_number r) (GP.points r) d) rows cp.

(** The distinct elements of a list, in order of first occurrence. *)
Fixpoint distinct (l : list Z) : list Z :=
  match l with
  | [] => []
  | k :: l' => k :: filter (fun k' => negb (k' =? k)) (distinct l')
  end.

Definition is_driver (d : Z) (r : GP.t) : bool := GP.driver_number r =? d.

(** The points of driver [d] summed over [rows]. *)
Definition total_points (rows : list GP.t) (d : Z) : Z :=
  sum_Z (map GP.points (filter (is_driver d) rows)).

(** The drivers of [rows] in order of first appearance. *)
Definition drivers_seen (rows : list GP.t) : list Z :=
  distinct (map GP.driver_number rows).

(** The rows of a list of races, race after race. *)
Definition rows_of_races (results : list GP.t) (races : list race_key)
  : list GP.t :=
  concat (map (race_results_of results) races).

(** The records of round [R] in an output frame. *)
Definition snapshot_after (out : list Standing.t) (R : nat) : list Standing.t :=
  filter (fun s => (Standing.race_round s =? R)%nat) out.

Definition memb (k : Z) (l : list Z) : bool := existsb (Z.eqb k) l.

(** The first row of [results] for driver [d]. *)
Definition first_row (results : list GP.t) (d : Z) : option GP.t :=
  find (is_driver d) results.

(** The rows of driver [d] dated up to [date]. *)
Definition driver_results_upto (results : list GP.t) (d date : Z) : list GP.t :=
  filter (fun r => (GP.driver_number r =? d) && (GP.date r <=? date)) results.

(** [standing_entry] where the driver has a row. *)
Definition entry_of (results : list GP.t) (race : race_key) (item : Z * Z)
  : Entry.t :=
  let driver_results := driver_results_upto results (fst item) (fst race) in
  Entry.mk (fst item)
    (match first_row results (fst item) with
     | Some r => GP.driver_name r
     | None => EmptyString
     end)
    (match first_row results (fst item) with
     | Some r => GP.team_name r
     | None => EmptyString
     end)
    (snd item)
    (length (filter (fun r => opt_eqb (GP.final_position r) 1) driver_results))
    (length (filter (fun r => opt_leb (GP.final_position r) 3) driver_results))
    (length (filter (fun r => 0 <? GP.points r) driver_results)).

(** The sorted [race_standings] of a race, from the dictionary. *)
Definition ranking (results : list GP.t) (race : race_key) (cp : dict)
  : list Entry.t :=
  sort_standings (map (entry_of results race) cp).

Definition leader_points_of (race_standings : list Entry.t) : Z :=
  match race_standings with
  | [] => 0
  | first :: _ => Entry.points first
  end.

(** [standing_record] with the guarded index resolved. *)
Definition record_of (now year : Z) (race_idx : nat) (race : race_key)
    (race_standings : list Entry.t) (position : nat) (standing : Entry.t)
  : Standing.t :=
  Standing.mk
    (str_of_Z year ++ "_" ++ str_of_nat (race_idx + 1) ++ "_"
       ++ str_of_Z (Entry.driver_number standing))%string
    year (race_idx + 1) (snd race)
    (Entry.driver_number standing) (Entry.driver_name standing)
    (Entry.team_name standing)
    position (Entry.points standing)
    (leader_points_of race_standings - Entry.points standing)
    (match nth_error race_standings position with
     | Some next => Entry.points standing - Entry.points next
     | None => 0
     end)
    (Entry.wins standing) (Entry.podiums standing)
    (Entry.points_finishes standing)
    now.

(** The records that [emit_standings] appends, the first at clock [n]. *)
Fixpoint emitted (utcnow : nat -> Z) (n : nat) (year : Z) (race_idx : nat)
    (race : race_key) (race_standings : list Entry.t)
    (todo : list (nat * Entry.t)) : list Standing.t :=
  match todo with
  | [] => []
  | (position, standing) :: rest =>
      record_of (utcnow n) year race_idx race race_standings position standing
      :: emitted utcnow (S n) year race_idx race race_standings rest
  end.

Definition snapshot (utcnow : nat -> Z) (n : nat) (year : Z) (race_idx : nat)
    (race : race_key) (race_standings : list Entry.t) : list Standing.t :=
  emitted utcnow n year race_idx race race_standings
    (enumerate 1 race_standings).

(** The records that [process_races] appends, the first at clock [n]. *)
Fixpoint rounds (utcnow : nat -> Z) (year : Z) (results : list GP.t)
    (races : list (nat * race_key)) (cp : dict) (n : nat) : list Standing.t :=
  match races with
  | [] => []
  | (race_idx, race) :: rest =>
      let cp' := add_all cp (race_results_of results race) in
      let block :=
        snapshot utcnow n year race_idx race (ranking results race cp') in
      block ++ rounds utcnow year results rest cp' (n + length block)
  end.

(** ** A sample season

    Two races: A wins the first with the fastest lap (26 points), C is
    second and B eleventh; B wins the second, A is third and C is
    absent. *)

Definition sample_row (date : Z) (grand_prix : string) (driver_number : Z)
    (driver_name team_name : string) (final_position points : Z) : GP.t :=
  GP.mk "" date 2023 grand_prix "circuit" driver_number driver_name "DRV"
    team_name None (Some final_position) points None 0 false false false 0.

Definition sample_results : list GP.t :=
  [ sample_row 1 "Bahrain" 1 "Driver A" "Team X" 1 26;
    sample_row 1 "Bahrain" 3 "Driver C" "Team W" 2 18;
    sample_row 1 "Bahrain" 2 "Driver B" "Team Y" 11 0;
    sample_row 2 "Jeddah" 2 "Driver B" "Team Z" 1 25;
    sample_row 2 "Jeddah" 1 "Driver A" "Team X" 3 15 ]%string.

Definition sample_clock (n : nat) : Z := 1700000000 + Z.of_nat n.

Definition sample_standing (race_round : nat) (after_race : string)
    (driver_number : Z) (driver_name team_name : string) (position : nat)
    (points behind ahead : Z) (wins podiums points_finishes : nat)
    (created_at : Z) : Standing.t :=
  Standing.mk
    ("2023_" ++ str_of_nat race_round ++ "_" ++ str_of_Z driver_number)%string
    2023 race_round after_race driver_number driver_name team_name position
    points behind ahead wins podiums points_finishes created_at.

(** A season with a tie: B is third then fifth, A eleventh then first;
    both have 25 points, A one win and B none. *)
Definition tied_results : list GP.t :=
  [ sample_row 1 "Bahrain" 44 "Driver B" "Team Y" 3 15;
    sample_row 1 "Bahrain" 1 "Driver A" "Team X" 11 0;
    sample_row 2 "Jeddah" 1 "Driver A" "Team X" 1 25;
    sample_row 2 "Jeddah" 44 "Driver B" "Team Y" 5 10 ]%string.

(** The order of the specification: more points, then more wins, then
    more podiums, then the lower driver number. *)
Definition tie_break_before (a b : Standing.t) : Prop :=
  Standing.points b < Standing.points a \/
  (Standing.points a = Standing.points b /\
   ((Standing.wins b < Standing.wins a)%nat \/
    (Standing.wins a = Standing.wins b /\
     ((Standing.podiums b < Standing.podiums a)%nat \/
      (Standing.podiums a = Standing.podiums b /\
       Standing.driver_number a < Standing.driver_number b))))).

(** The rows are in the order of the query, [ORDER BY date]. *)
Definition date_ordered (results : list GP.t) : Prop :=
  Sorted (fun a b => GP.date a <= GP.date b) results.

(** The strict order in which [groupby] lists the races. *)
Definition key_lt (a b : race_key) : Prop := key_compare a b = Lt.

(** The calendar of a season, in the words of the specification and
    apart from the functions of the code.  A row belongs to a race when
    it has its date and its grand prix. *)
Definition in_race (race : Z * string) (r : GP.t) : bool :=
  (GP.date r =? fst race) && String.eqb (GP.grand_prix r) (snd race).

(** One race comes before another: an earlier date, or the same date
    and a grand prix name that sorts first. *)
Definition race_before (a b : Z * string) : Prop :=
  fst a < fst b \/ (fst a = fst b /\ String.compare (snd a) (snd b) = Lt).

(** [races] is the calendar of the rows: every pair of a date and a
    grand prix that some row carries, and no other, each once, the
    earlier first. *)
Definition season_calendar (results : list GP.t) (races : list (Z * string))
  : Prop :=
  StronglySorted race_before races /\
  forall date grand_prix,
    In (date, grand_prix) races <->
    exists r, In r results /\ GP.date r = date /\ GP.grand_prix r = grand_prix.

(** The points of the rows of driver [d] in one race. *)
Definition race_points (results : list GP.t) (race : Z * string) (d : Z) : Z :=
  sum_Z (map GP.points
           (filter (fun r => (GP.driver_number r =? d) && in_race race r)
              results)).

(** A row belongs to one of [races]. *)
Definition in_races (races : list (Z * string)) (r : GP.t) : bool :=
  existsb (fun race => in_race race r) races.

(** A standings row with its wall-clock stamp blanked. *)
Definition drop_created_at (s : Standing.t) : Standing.t :=
  Standing.mk (Standing.standing_id s) (Standing.year s)
    (Standing.race_round s) (Standing.after_race s)
    (Standing.driver_number s) (Standing.driver_name s)
    (Standing.team_name s) (Standing.position s) (Standing.points s)
    (Standing.points_behind_leader s) (Standing.points_ahead_next s)
    (Standing.wins s) (Standing.podiums s) (Standing.points_finishes s) 0.

(** The rows of the table dated up to [d]. *)
Definition results_upto (d : Z) (results : list GP.t) : list GP.t :=
  filter (fun r => GP.date r <=? d) results.

(** A sample race session: driver 1 wins with the fastest lap of the
    field (90.000 s), driver 44 is second with a slower best lap
    (90.500 s), driver 16 is eleventh; drivers 1 and 16 carry the [dsq]
    flags [dsq1] and [dsq16]. *)
Definition sample_db (dsq1 dsq16 : bool) : Database :=
  {| race_sessions := fun year =>
       if year =? 2023
       then [Session.mk 9001 1201 1 1 "Bahrain Grand Prix" "Sakhir"]
       else [];
     raw_session_result := fun session_key =>
       if session_key =? 9001
       then [SessionResult.mk 1 (Num 1) (Some false) (Some false) (Some dsq1);
             SessionResult.mk 44 (Num 2) (Some false) (Some false) (Some false);
             SessionResult.mk 16 (Num 11) (Some false) (Some false)
               (Some dsq16)]
       else [];
     raw_drivers := fun session_key =>
       if session_key =? 9001
       then [Driver.mk 1 "Driver A" "AAA" "Team X";
             Driver.mk 44 "Driver B" "BBB" "Team Y";
             Driver.mk 16 "Driver C" "CCC" "Team W"]
       else [];
     raw_starting_grid := fun session_key =>
       if session_key =? 9001
       then [Grid.mk 44 (Some 1); Grid.mk 1 (Some 2)]
       else [];
     raw_laps :=
       [Lap.mk 9001 1 (Some 91000); Lap.mk 9001 44 (Some 90500);
        Lap.mk 9001 1 (Some 90000); Lap.mk 9001 44 None;
        Lap.mk 9001 16 (Some 92000); Lap.mk 9002 44 (Some 80000)] |}.

Definition sample_result (driver_number : Z)
    (driver_name driver_acronym team_name : string)
    (starting_grid_position : option Z) (final_position points lap : Z)
    (dsq : bool) (created_at : Z) : GP.t :=
  GP.mk ("2023_1_" ++ str_of_Z driver_number)%string 1 2023
    "Bahrain Grand Prix" "Sakhir" driver_number driver_name driver_acronym
    team_name starting_grid_position (Some final_position) points (Some lap)
    0 false false dsq created_at.

Definition is_some {A} (x : option A) : bool :=
  match x with
  | Some _ => true
  | None => false
  end.

(** Descending order of points, the order of [race_standings]. *)
Definition points_ge (a b : Entry.t) : Prop := Entry.points b <= Entry.points a.

(** The lap recorded for [driver_number] in a frame of fastest laps. *)
Fixpoint lookup_lap (driver_number : Z) (groups : list FastestLap.t)
  : option Z :=
  match groups with
  | [] => None
  | g :: groups' =>
      if FastestLap.driver_number g =? driver_number
      then Some (FastestLap.lap_duration g)
      else lookup_lap driver_number groups'
  end.

(** The least timed lap of one driver among [laps] of the session,
    starting from [best]. *)
Definition own_best (session_key driver_number : Z) (laps : list Lap.t)
    (best : option Z) : option Z :=
  fold_left
    (fun best lap =>
       match Lap.lap_duration lap with
       | Some d =>
           if (Lap.session_key lap =? session_key)
              && (Lap.driver_number lap =? driver_number)
           then Some (match best with Some m => Z.min m d | None => d end)
           else best
       | None => best
       end)
    laps best.

(** The points of the table for a position, 0 outside it. *)
Definition table_points (position : option Z) : Z :=
  match points_system position with
  | Some p => p
  | None => 0
  end.

(** A classification row under another [dsq] flag, and a record under
    another [dsq] field. *)
Definition set_dsq (flag : option bool) (result : SessionResult.t)
  : SessionResult.t :=
  SessionResult.mk (SessionResult.driver_number result)
    (SessionResult.position result) (SessionResult.dnf result)
    (SessionResult.dns result) flag.

Definition with_dsq (flag : bool) (rec : GP.t) : GP.t :=
  GP.mk (GP.result_id rec) (GP.date rec) (GP.year rec) (GP.grand_prix rec)
    (GP.circuit_name rec) (GP.driver_number rec) (GP.driver_name rec)
    (GP.driver_acronym rec) (GP.team_name rec)
    (GP.starting_grid_position rec) (GP.final_position rec) (GP.points rec)
    (GP.fastest_lap rec) (GP.total_time_penalty rec) (GP.dnf rec)
    (GP.dns rec) flag (GP.created_at rec).

(** A driver is in the roster frame. *)
Definition in_roster (drivers : list Driver.t) (driver_number : Z) : bool :=
  existsb (fun d => Driver.driver_number d =? driver_number) drivers.

(** The turn of the merge loop for [result] raises: the driver is in
    the roster and has a timed lap, and the position is [None]. *)
Definition raises_type_error (drivers : list Driver.t)
    (fastest_laps : list FastestLap.t) (result : SessionResult.t) : bool :=
  in_roster drivers (SessionResult.driver_number result)
  && match SessionResult.position result with
     | PyNone => true
     | Num _ | NaN => false
     end
  && is_some (lookup_lap (SessionResult.driver_number result) fastest_laps).

(** Some turn of the loops of the year raises. *)
Definition year_raises (db : Database) (sessions : list Session.t) : bool :=
  existsb
    (fun session =>
       existsb
         (raises_type_error
            (_get_session_drivers db (Session.session_key session))
            (_get_fastest_laps db (Session.session_key session)))
         (_get_session_results db (Session.session_key session)))
    sessions.

(** A session whose classification has no position at all, the column
    being then one of [None]s, and whose only driver has a timed lap. *)
Definition unclassified_db : Database :=
  {| race_sessions := fun year =>
       if year =? 2023
       then [Session.mk 9001 1201 1 1 "Bahrain Grand Prix" "Sakhir"]
       else [];
     raw_session_result := fun session_key =>
       if session_key =? 9001
       then [SessionResult.mk 1 PyNone (Some false) (Some false) (Some false)]
       else [];
     raw_drivers := fun session_key =>
       if session_key =? 9001
       then [Driver.mk 1 "Driver A" "AAA" "Team X"]
       else [];
     raw_starting_grid := fun session_key => [];
     raw_laps := [Lap.mk 9001 1 (Some 90000)] |}.

(** Driver number and position of a classification row, and of a
    built record. *)
Definition classified (result : SessionResult.t) : Z * option Z :=
  (SessionResult.driver_number result,
   cell_value (SessionResult.position result)).

Definition built (rec : GP.t) : Z * option Z :=
  (GP.driver_number rec, GP.final_position rec).

(** The f-string of [standing_id]. *)
Definition make_standing_id (year : Z) (race_round : nat) (driver_number : Z)
  : string :=
  (str_of_Z year ++ "_" ++ str_of_nat race_round ++ "_"
     ++ str_of_Z driver_number)%string.

Fixpoint has_underscore (s : string) : bool :=
  match s with
  | EmptyString => false
  | String c s' => Ascii.eqb c "_" || has_underscore s'
  end.

(** Round and driver of a standings row. *)
Definition standing_key (s : Standing.t) : nat * Z :=
  (Standing.race_round s, Standing.driver_number s).

(** ** Championship context of the results

    [_add_championship_context] sorts twice.  The first sort, on the two
    columns [driver_number] and [date], is pandas' stable lexicographic
    sort.  The second, on the single column [total_season_points], is
    NumPy's default sort, which fixes no order among equal totals: it is
    a parameter [sort_desc] of the embedding, and what is proved of it
    is proved for every sort that permutes its input into descending
    order of totals. *)

(** A row of the frame with the three columns that the function adds;
    [None] is the NaN of a row not yet assigned. *)
Module Ctx.
Record t : Type := mk {
  row : GP.t;
  total_season_points : Z;
  drivers_championship_ranking : option Z;
  points_from_first : option Z
}.
End Ctx.

Definition ctx_driver (x : Ctx.t) : Z := GP.driver_number (Ctx.row x).

Definition ctx_date (x : Ctx.t) : Z := GP.date (Ctx.row x).

(** [results_df.sort_values(["driver_number", "date"])]. *)
Definition driver_date_ltb (a b : GP.t) : bool :=
  (GP.driver_number a <? GP.driver_number b)
  || ((GP.driver_number a =? GP.driver_number b) && (GP.date a <? GP.date b)).

Fixpoint insert_by_driver_date (x : GP.t) (l : list GP.t) : list GP.t :=
  match l with
  | [] => [x]
  | y :: l' =>
      if driver_date_ltb y x
      then y :: insert_by_driver_date x l'
      else x :: l
  end.

Fixpoint sort_by_driver_date (l : list GP.t) : list GP.t :=
  match l with
  | [] => []
  | x :: l' => insert_by_driver_date x (sort_by_driver_date l')
  end.

(** [results_df.groupby("driver_number")["points"].cumsum()]: each row
    gets the points of its driver summed over the rows of the frame up
    to and including it; [before] is the part of the frame already
    passed. *)
Fixpoint group_cumsum (before rows : list GP.t) : list Ctx.t :=
  match rows with
  | [] => []
  | r :: rest =>
      Ctx.mk r (total_points before (GP.driver_number r) + GP.points r)
        None None
      :: group_cumsum (before ++ [r]) rest
  end.

(** The dictionary comprehension [rankings]. *)
Definition rankings_of (race_results : list Ctx.t) : dict :=
  fold_left
    (fun rankings ix =>
       dict_set (ctx_driver (snd ix)) (Z.of_nat (fst ix + 1)) rankings)
    (enumerate 0 race_results) [].

(** [results_df.loc[mask, "drivers_championship_ranking"] = ranking]. *)
Definition set_ranking (driver_num date ranking : Z) (results_df : list Ctx.t)
  : list Ctx.t :=
  map (fun x =>
         if (ctx_driver x =? driver_num) && (ctx_date x =? date)
         then Ctx.mk (Ctx.row x) (Ctx.total_season_points x) (Some ranking)
                (Ctx.points_from_first x)
         else x)
    results_df.

(** [results_df.loc[mask, "points_from_first"] = ...]. *)
Definition set_points_from_first (driver_num date value : Z)
    (results_df : list Ctx.t) : list Ctx.t :=
  map (fun x =>
         if (ctx_driver x =? driver_num) && (ctx_date x =? date)
         then Ctx.mk (Ctx.row x) (Ctx.total_season_points x)
                (Ctx.drivers_championship_ranking x) (Some value)
         else x)
    results_df.

(** The loop [for driver_num, ranking in rankings.items()]. *)
Fixpoint rank_drivers (date : Z) (race_results : list Ctx.t)
    (leader_points : Z) (items : list (Z * Z)) (results_df : list Ctx.t)
  : option (list Ctx.t) :=
  match items with
  | [] => Some results_df
  | (driver_num, ranking) :: rest =>
      let results_df := set_ranking driver_num date ranking results_df in
      first <-
        iloc0 (filter (fun x => ctx_driver x =? driver_num) race_results) ;;
      let driver_points := Ctx.total_season_points first in
      let results_df :=
        set_points_from_first driver_num date (leader_points - driver_points)
          results_df in
      rank_drivers date race_results leader_points rest results_df
  end.

(** The loop over the distinct dates. *)
Fixpoint rank_dates (sort_desc : list Ctx.t -> list Ctx.t) (dates : list Z)
    (results_df : list Ctx.t) : option (list Ctx.t) :=
  match dates with
  | [] => Some results_df
  | date :: rest =>
      let race_results :=
        sort_desc (filter (fun x => ctx_date x =? date) results_df) in
      let rankings := rankings_of race_results in
      let leader_points :=
        match race_results with
        | first :: _ => Ctx.total_season_points first
        | [] => 0
        end in
      results_df <-
        rank_drivers date race_results leader_points rankings results_df ;;
      rank_dates sort_desc rest results_df
  end.

(** [_add_championship_context(results_df)].  The frame of no record
    has no column: the first [sort_values] raises [KeyError] on it. *)
Definition _add_championship_context (sort_desc : list Ctx.t -> list Ctx.t)
    (results_df : list GP.t) : option (list Ctx.t) :=
  match results_df with
  | [] => None
  | _ :: _ =>
      let results_df := sort_by_driver_date results_df in
      let results_df := group_cumsum [] results_df in
      rank_dates sort_desc (distinct (map ctx_date results_df)) results_df
  end.

(** [transform_grand_prix_results(year)]: the records of the year with
    their championship context; the empty frame when there is no record
    or when an exception is raised. *)
Definition transform_grand_prix_results (sort_desc : list Ctx.t -> list Ctx.t)
    (utcnow : nat -> Z) (db : Database) (year : Z) : list Ctx.t :=
  match built_results utcnow db year with
  | None => []
  | Some [] => []
  | Some results =>
      match _add_championship_context sort_desc results with
      | Some results_df => results_df
      | None => []
      end
  end.

(** A sort in descending order of totals, one of those [sort_desc] may
    be. *)
Fixpoint insert_by_total (x : Ctx.t) (l : list Ctx.t) : list Ctx.t :=
  match l with
  | [] => [x]
  | y :: l' =>
      if Ctx.total_season_points x <? Ctx.total_season_points y
      then y :: insert_by_total x l'
      else x :: l
  end.

Fixpoint sort_by_total (l : list Ctx.t) : list Ctx.t :=
  match l with
  | [] => []
  | x :: l' => insert_by_total x (sort_by_total l')
  end.

(** What is assumed of the second sort. *)
Definition sorts_descending (sort_desc : list Ctx.t -> list Ctx.t) : Prop :=
  forall l,
    Permutation (sort_desc l) l /\
    StronglySorted
      (fun a b => Ctx.total_season_points b <= Ctx.total_season_points a)
      (sort_desc l).

(** No driver has two rows of the same date. *)
Definition one_row_per_driver_and_date (results : list GP.t) : Prop :=
  NoDup (map (fun r => (GP.driver_number r, GP.date r)) results).

(** The order of the first sort. *)
Definition driver_date_le (a b : GP.t) : Prop :=
  GP.driver_number a < GP.driver_number b
  \/ (GP.driver_number a = GP.driver_number b /\ GP.date a <= GP.date b).

Definition ctx_key (x : Ctx.t) : Z * Z := (ctx_driver x, ctx_date x).

Definition leader_total (race_results : list Ctx.t) : Z :=
  match race_results with
  | first :: _ => Ctx.total_season_points first
  | [] => 0
  end.

(** The total of the first row of a driver in [race_results]. *)
Definition first_total (race_results : list Ctx.t) (driver_num : Z)
  : option Z :=
  option_map Ctx.total_season_points
    (iloc0 (filter (fun x => ctx_driver x =? driver_num) race_results)).

(** What the inner loop makes of a row, given the items still to do. *)
Definition ranked (date : Z) (race_results : list Ctx.t) (leader_points : Z)
    (items : list (Z * Z)) (x : Ctx.t) : Ctx.t :=
  if ctx_date x =? date
  then
    match dict_get (ctx_driver x) items with
    | Some ranking =>
        Ctx.mk (Ctx.row x) (Ctx.total_season_points x) (Some ranking)
          (match first_total race_results (ctx_driver x) with
           | Some driver_points => Some (leader_points - driver_points)
           | None => Ctx.points_from_first x
           end)
    | None => x
    end
  else x.

(** What the loop over the dates makes of a row of [df]. *)
Definition final_ctx (sort_desc : list Ctx.t -> list Ctx.t)
    (df : list Ctx.t) (x : Ctx.t) : Ctx.t :=
  let race_results :=
    sort_desc (filter (fun y => ctx_date y =? ctx_date x) df) in
  ranked (ctx_date x) race_results (leader_total race_results)
    (rankings_of race_results) x.

(** The context of the sample season, under [sort_by_total]. *)
Definition sample_context : list Ctx.t :=
  Eval vm_compute in
    match _add_championship_context sort_by_total sample_results with
    | Some results_df => results_df
    | None => []
    end.

(** ** Dictionary lemmas *)

Lemma dict_get_mem k d :
  dict_mem k d = true -> exists v, dict_get k d = Some v.
Proof.
  induction d as [|[k' v'] d IH]; simpl; [discriminate|].
  destruct (k' =? k); simpl; eauto.
Qed.

Lemma dict_set_get k v d :
  dict_get k (dict_set k v d) = Some v.
Proof.
  induction d as [|[k' v'] d IH]; simpl.
  - now rewrite Z.eqb_refl.
  - destruct (k' =? k) eqn:E; simpl; rewrite E; auto.
Qed.

Lemma dict_set_set k v w d :
  dict_set k w (dict_set k v d) = dict_set k w d.
Proof.
  induction d as [|[k' v'] d IH]; simpl.
  - now rewrite Z.eqb_refl.
  - destruct (k' =? k) eqn:E; simpl; rewrite E; congruence.
Qed.

Lemma dict_add_absent k v d :
  dict_mem k d = false -> dict_set k v d = dict_add k v d.
Proof.
  induction d as [|[k' v'] d IH]; simpl; auto.
  destruct (k' =? k); simpl; [discriminate|].
  intros H. now rewrite IH.
Qed.

Lemma dict_add_present k v d old :
  dict_get k d = Some old -> dict_set k (old + v) d = dict_add k v d.
Proof.
  induction d as [|[k' v'] d IH]; simpl; [discriminate|].
  destruct (k' =? k); intros H.
  - now inversion H.
  - now rewrite IH.
Qed.

Lemma add_result_dict_add cp r :
  add_result cp r = Some (dict_add (GP.driver_number r) (GP.points r) cp).
Proof.
  unfold add_result.
  destruct (dict_mem (GP.driver_number r) cp) eqn:M; simpl.
  - destruct (dict_get_mem _ _ M) as [old Hold].
    rewrite Hold. simpl. now rewrite (dict_add_present _ _ _ _ Hold).
  - rewrite dict_set_get. simpl.
    rewrite dict_set_set. now rewrite dict_add_absent.
Qed.

Lemma add_results_add_all rows : forall cp,
  add_results cp rows = Some (add_all cp rows).
Proof.
  induction rows as [|r rows IH]; intros cp; simpl; auto.
  rewrite add_result_dict_add. simpl. apply IH.
Qed.

Lemma add_all_app cp rows1 rows2 :
  add_all cp (rows1 ++ rows2) = add_all (add_all cp rows1) rows2.
Proof. apply fold_left_app. Qed.

Lemma memb_In k l : memb k l = true <-> In k l.
Proof.
  unfold memb. rewrite existsb_exists. split.
  - intros (x & Hx & E). apply Z.eqb_eq in E. now subst.
  - intros H. exists k. split; auto. apply Z.eqb_refl.
Qed.

Lemma memb_not_In k l : memb k l = false <-> ~ In k l.
Proof.
  rewrite <- memb_In. destruct (memb k l); split; congruence.
Qed.

Lemma dict_add_new k v d :
  ~ In k (map fst d) -> dict_add k v d = d ++ [(k, v)].
Proof.
  induction d as [|[k' v'] d IH]; simpl; auto.
  intros H. destruct (k' =? k) eqn:E.
  - apply Z.eqb_eq in E. tauto.
  - rewrite IH; tauto.
Qed.

Lemma dict_add_old k v d :
  In k (map fst d) -> NoDup (map fst d) ->
  dict_add k v d =
  map (fun kv => (fst kv, if fst kv =? k then snd kv + v else snd kv)) d.
Proof.
  induction d as [|[k' v'] d IH]; simpl; [tauto|].
  intros H ND. inversion ND as [|? ? Hn ND']; subst.
  destruct (k' =? k) eqn:E.
  - apply Z.eqb_eq in E. subst k'. f_equal.
    rewrite <- (map_id d) at 1. apply map_ext_in.
    intros [k'' v''] Hin. simpl.
    destruct (k'' =? k) eqn:E'; auto.
    apply Z.eqb_eq in E'. subst. exfalso. apply Hn.
    change k with (fst (k, v'')). now apply in_map.
  - f_equal. apply IH; auto. destruct H; auto.
    apply Z.eqb_neq in E. congruence.
Qed.

Lemma dict_add_keys k v d :
  map fst (dict_add k v d) =
  if memb k (map fst d) then map fst d else map fst d ++ [k].
Proof.
  induction d as [|[k' v'] d IH]; simpl; auto.
  unfold memb in *. simpl. rewrite (Z.eqb_sym k k').
  destruct (k' =? k); simpl; auto.
  rewrite IH. now destruct (existsb (Z.eqb k) (map fst d)).
Qed.

Lemma dict_add_NoDup k v d :
  NoDup (map fst d) -> NoDup (map fst (dict_add k v d)).
Proof.
  intros ND. rewrite dict_add_keys.
  destruct (memb k (map fst d)) eqn:M; auto.
  apply memb_not_In in M.
  apply NoDup_app; auto.
  - repeat constructor. simpl. tauto.
  - intros x Hx [<-|[]]. tauto.
Qed.

Lemma total_points_cons r rows d :
  total_points (r :: rows) d =
  if GP.driver_number r =? d
  then GP.points r + total_points rows d
  else total_points rows d.
Proof.
  unfold total_points, is_driver. simpl.
  now destruct (GP.driver_number r =? d).
Qed.

Lemma total_points_app rows1 rows2 d :
  total_points (rows1 ++ rows2) d = total_points rows1 d + total_points rows2 d.
Proof.
  induction rows1 as [|r rows1 IH]; simpl; auto.
  rewrite !total_points_cons, IH. destruct (_ =? _); lia.
Qed.

Lemma distinct_In l k : In k (distinct l) <-> In k l.
Proof.
  induction l as [|a l IH]; simpl; [tauto|].
  rewrite filter_In, IH.
  destruct (Z.eq_dec a k) as [->|N].
  - tauto.
  - assert (negb (k =? a) = true) by
      (apply negb_true_iff, Z.eqb_neq; congruence).
    tauto.
Qed.

Lemma NoDup_filter {A} (f : A -> bool) l : NoDup l -> NoDup (filter f l).
Proof.
  induction 1 as [|x l Hx ND IH]; simpl; [constructor|].
  destruct (f x); auto. constructor; auto.
  rewrite filter_In. tauto.
Qed.

Lemma distinct_NoDup l : NoDup (distinct l).
Proof.
  induction l as [|a l IH]; simpl; constructor.
  - rewrite filter_In, negb_true_iff, Z.eqb_neq. tauto.
  - now apply NoDup_filter.
Qed.

Lemma filter_filter {A} (f g : A -> bool) l :
  filter f (filter g l) = filter (fun x => g x && f x) l.
Proof.
  induction l as [|x l IH]; simpl; auto.
  destruct (g x); simpl; rewrite ?IH; auto.
Qed.

(** The cumulative dictionary after adding [rows] to [cp]. *)
Lemma add_all_closed rows : forall cp,
  NoDup (map fst cp) ->
  add_all cp rows =
  map (fun kv => (fst kv, snd kv + total_points rows (fst kv))) cp
  ++ map (fun k => (k, total_points rows k))
       (filter (fun k => negb (memb k (map fst cp))) (drivers_seen rows)).
Proof.
  induction rows as [|r rows IH]; intros cp ND.
  - simpl. rewrite app_nil_r. rewrite <- (map_id cp) at 1.
    apply map_ext. intros [k v]. simpl. unfold total_points. simpl.
    now rewrite Z.add_0_r.
  - change (add_all cp (r :: rows)) with
      (add_all (dict_add (GP.driver_number r) (GP.points r) cp) rows).
    rewrite IH by now apply dict_add_NoDup.
    rewrite dict_add_keys.
    unfold drivers_seen. simpl map. simpl distinct.
    set (k := GP.driver_number r). set (p := GP.points r).
    fold (drivers_seen rows).
    destruct (memb k (map fst cp)) eqn:M.
    + pose proof M as Hin. apply memb_In in Hin.
      rewrite (dict_add_old _ _ _ Hin ND), map_map. simpl filter.
      simpl negb. cbv iota.
      f_equal.
      * apply map_ext. intros [k' v']. simpl.
        rewrite total_points_cons. fold k p.
        rewrite (Z.eqb_sym k k'). destruct (k' =? k); f_equal; lia.
      * rewrite filter_filter.
        assert (E : forall x, In x (drivers_seen rows) ->
                  negb (memb x (map fst cp)) =
                  negb (x =? k) && negb (memb x (map fst cp))).
        { intros x _. destruct (x =? k) eqn:E; simpl; auto.
          apply Z.eqb_eq in E. subst. now rewrite M. }
        rewrite (filter_ext_in _ _ _ E).
        apply map_ext_in. intros x Hx. apply filter_In in Hx.
        destruct Hx as [_ Hx]. apply andb_true_iff in Hx.
        destruct Hx as [Hx _]. rewrite total_points_cons. fold k.
        rewrite Z.eqb_sym. apply negb_true_iff in Hx. now rewrite Hx.
    + pose proof M as Hnin. apply memb_not_In in Hnin.
      rewrite (dict_add_new _ _ _ Hnin), map_app. simpl map.
      simpl filter. simpl negb. cbv iota.
      rewrite <- app_assoc. f_equal.
      * apply map_ext_in. intros [k' v'] Hkv. simpl.
        rewrite total_points_cons. fold k.
        destruct (k =? k') eqn:E; auto.
        apply Z.eqb_eq in E. subst k'. exfalso. apply Hnin.
        change k with (fst (k, v')). now apply in_map.
      * simpl. rewrite total_points_cons. fold k p. rewrite Z.eqb_refl.
        f_equal. rewrite filter_filter.
        assert (E : forall x, In x (drivers_seen rows) ->
                  negb (memb x (map fst cp ++ [k])) =
                  negb (x =? k) && negb (memb x (map fst cp))).
        { intros x _. unfold memb. rewrite existsb_app. simpl.
          rewrite orb_false_r, negb_orb. apply andb_comm. }
        rewrite (filter_ext_in _ _ _ E).
        apply map_ext_in. intros x Hx. apply filter_In in Hx.
        destruct Hx as [_ Hx]. apply andb_true_iff in Hx.
        destruct Hx as [Hx _]. rewrite total_points_cons. fold k.
        rewrite Z.eqb_sym. apply negb_true_iff in Hx. now rewrite Hx.
Qed.

Lemma add_all_nil rows :
  add_all [] rows = map (fun k => (k, total_points rows k)) (drivers_seen rows).
Proof.
  rewrite add_all_closed by constructor. simpl.
  f_equal. generalize (drivers_seen rows) as l.
  induction l; simpl; congruence.
Qed.

(** ** The sort of the standings *)

Lemma insert_standing_perm x l : Permutation (insert_standing x l) (x :: l).
Proof.
  induction l as [|y l IH]; simpl; auto.
  destruct (Entry.points x <? Entry.points y); auto.
  rewrite IH. apply perm_swap.
Qed.

Lemma sort_standings_perm l : Permutation (sort_standings l) l.
Proof.
  induction l as [|x l IH]; simpl; auto.
  rewrite insert_standing_perm. now constructor.
Qed.

Lemma insert_standing_sorted x l :
  StronglySorted points_ge l -> StronglySorted points_ge (insert_standing x l).
Proof.
  induction 1 as [|y l S IH F]; simpl.
  - repeat constructor.
  - destruct (Entry.points x <? Entry.points y) eqn:E.
    + apply Z.ltb_lt in E. constructor; auto.
      rewrite Forall_forall in *. intros z Hz.
      apply (Permutation_in _ (insert_standing_perm x l)) in Hz.
      destruct Hz as [<-|Hz]; auto. unfold points_ge. lia.
    + apply Z.ltb_ge in E. constructor.
      * now constructor.
      * constructor; [exact E|].
        rewrite Forall_forall in *. intros z Hz.
        specialize (F z Hz). unfold points_ge in *. lia.
Qed.

Lemma sort_standings_sorted l : StronglySorted points_ge (sort_standings l).
Proof.
  induction l as [|x l IH]; simpl; [constructor|].
  now apply insert_standing_sorted.
Qed.

Lemma insert_standing_stable p x l :
  filter (fun e => Entry.points e =? p) (insert_standing x l) =
  filter (fun e => Entry.points e =? p) (x :: l).
Proof.
  induction l as [|y l IH]; auto.
  cbn [insert_standing].
  destruct (Entry.points x <? Entry.points y) eqn:E; auto.
  apply Z.ltb_lt in E. cbn [filter] in *. rewrite IH.
  destruct (Entry.points x =? p) eqn:Ex; auto.
  destruct (Entry.points y =? p) eqn:Ey; auto.
  apply Z.eqb_eq in Ex, Ey. lia.
Qed.

(** The sort is stable: entries of equal points keep their order. *)
Lemma sort_standings_stable p l :
  filter (fun e => Entry.points e =? p) (sort_standings l) =
  filter (fun e => Entry.points e =? p) l.
Proof.
  induction l as [|x l IH]; auto.
  cbn [sort_standings]. rewrite insert_standing_stable.
  cbn [filter]. now rewrite IH.
Qed.

Lemma sort_standings_length l : length (sort_standings l) = length l.
Proof. apply Permutation_length, sort_standings_perm. Qed.

(** ** The loops return, and what they return *)

Lemma iloc0_filter_find {A} (f : A -> bool) l : iloc0 (filter f l) = find f l.
Proof.
  induction l as [|x l IH]; simpl; auto.
  destruct (f x); auto.
Qed.

Lemma first_row_some results d :
  In d (map GP.driver_number results) ->
  exists r, first_row results d = Some r.
Proof.
  intros H. apply in_map_iff in H. destruct H as (r & E & Hr).
  unfold first_row. destruct (find (is_driver d) results) eqn:F; eauto.
  exfalso. apply (find_none _ _ F) in Hr. unfold is_driver in Hr.
  rewrite E, Z.eqb_refl in Hr. discriminate.
Qed.

Lemma standing_entry_of results race item :
  In (fst item) (map GP.driver_number results) ->
  standing_entry results race item = Some (entry_of results race item).
Proof.
  destruct item as [d v]. simpl. intros H.
  destruct (first_row_some _ _ H) as [r Hr].
  unfold standing_entry, entry_of, driver_results_upto. simpl.
  fold (is_driver d). rewrite iloc0_filter_find.
  unfold first_row in *. now rewrite Hr.
Qed.

Lemma mapM_map {A B} (f : A -> option B) (g : A -> B) l :
  (forall x, In x l -> f x = Some (g x)) -> mapM f l = Some (map g l).
Proof.
  induction l as [|x l IH]; simpl; auto.
  intros H. rewrite (H x) by auto. simpl. rewrite IH by auto. reflexivity.
Qed.

Lemma standing_record_of now year race_idx race rs position standing :
  standing_record now year race_idx race rs (leader_points_of rs)
    position standing
  = Some (record_of now year race_idx race rs position standing).
Proof.
  unfold standing_record, record_of.
  destruct (position <? length rs)%nat eqn:E.
  - apply Nat.ltb_lt in E.
    destruct (nth_error rs position) eqn:N; auto.
    apply nth_error_None in N. lia.
  - apply Nat.ltb_ge in E. apply nth_error_None in E. now rewrite E.
Qed.

Lemma emit_standings_emitted utcnow year race_idx race rs todo : forall acc,
  emit_standings utcnow year race_idx race rs (leader_points_of rs) todo acc
  = Some (acc ++ emitted utcnow (length acc) year race_idx race rs todo).
Proof.
  induction todo as [|[position standing] todo IH]; intros acc; simpl.
  - now rewrite app_nil_r.
  - rewrite standing_record_of. simpl. rewrite IH.
    rewrite length_app, Nat.add_1_r, <- app_assoc. reflexivity.
Qed.

Lemma add_all_keys_incl results rows : forall cp,
  incl rows results ->
  incl (map fst cp) (map GP.driver_number results) ->
  incl (map fst (add_all cp rows)) (map GP.driver_number results).
Proof.
  induction rows as [|r rows IH]; intros cp Hr Hc; auto.
  apply IH.
  - intros x Hx. apply Hr. now right.
  - rewrite dict_add_keys. destruct memb; auto.
    apply incl_app; auto.
    intros x [<-|[]]. apply in_map, Hr. now left.
Qed.

Lemma race_results_incl results race : incl (race_results_of results race) results.
Proof. intros x Hx. now apply filter_In in Hx. Qed.

Lemma process_races_rounds utcnow year results races : forall cp acc,
  incl (map fst cp) (map GP.driver_number results) ->
  process_races utcnow year results races cp acc
  = Some (acc ++ rounds utcnow year results races cp (length acc)).
Proof.
  induction races as [|[race_idx race] races IH]; intros cp acc Hc; simpl.
  - now rewrite app_nil_r.
  - rewrite add_results_add_all. simpl.
    assert (Hc' := add_all_keys_incl results _ cp
                     (race_results_incl results race) Hc).
    rewrite (mapM_map _ (entry_of results race)).
    2:{ intros x Hx. apply standing_entry_of, Hc'. now apply in_map. }
    simpl. fold (ranking results race (add_all cp (race_results_of results race))).
    fold (leader_points_of
            (ranking results race (add_all cp (race_results_of results race)))).
    rewrite emit_standings_emitted. simpl.
    rewrite IH by exact Hc'. rewrite length_app, <- app_assoc. reflexivity.
Qed.

(** [transform_championship_standings] raises nothing: it is the
    concatenation of the rounds. *)
Lemma transform_championship_standings_rounds utcnow year results :
  transform_championship_standings utcnow year results
  = rounds utcnow year results (enumerate 0 (races_of results)) [] 0.
Proof.
  unfold transform_championship_standings.
  destruct results as [|r results]; auto.
  rewrite process_races_rounds by (intros x []). reflexivity.
Qed.

(** ** The snapshot of one round *)

Lemma enumerate_cons {A} k (x : A) l :
  enumerate k (x :: l) = (k, x) :: enumerate (S k) l.
Proof. reflexivity. Qed.

Lemma emitted_round utcnow year race_idx race rs todo : forall n s,
  In s (emitted utcnow n year race_idx race rs todo) ->
  Standing.race_round s = (race_idx + 1)%nat.
Proof.
  induction todo as [|[position standing] todo IH]; simpl; [tauto|].
  intros n s [<-|H]; eauto.
Qed.

Lemma rounds_round_range utcnow year results races : forall k cp n s,
  In s (rounds utcnow year results (enumerate k races) cp n) ->
  (k + 1 <= Standing.race_round s <= k + length races)%nat.
Proof.
  induction races as [|race races IH]; intros k cp n s; [intros []|].
  rewrite enumerate_cons. cbn [rounds length]. intros H.
  apply in_app_or in H. destruct H as [H|H].
  - apply emitted_round in H. lia.
  - apply IH in H. lia.
Qed.

Lemma filter_all {A} (f : A -> bool) l :
  (forall x, In x l -> f x = true) -> filter f l = l.
Proof.
  induction l as [|x l IH]; simpl; auto.
  intros H. rewrite (H x) by auto. f_equal. auto.
Qed.

Lemma filter_none {A} (f : A -> bool) l :
  (forall x, In x l -> f x = false) -> filter f l = [].
Proof.
  induction l as [|x l IH]; simpl; auto.
  intros H. rewrite (H x) by auto. auto.
Qed.

Lemma rows_of_races_cons results race races :
  rows_of_races results (race :: races)
  = race_results_of results race ++ rows_of_races results races.
Proof. reflexivity. Qed.

(** The records of round [k + i + 1] are the snapshot of the i-th race,
    ranked from the dictionary accumulated over the races up to it. *)
Lemma snapshot_after_rounds utcnow year results races :
  forall k cp n i race,
  nth_error races i = Some race ->
  exists n',
    snapshot_after (rounds utcnow year results (enumerate k races) cp n)
      (k + i + 1)
    = snapshot utcnow n' year (k + i) race
        (ranking results race
           (add_all cp (rows_of_races results (firstn (S i) races)))).
Proof.
  induction races as [|race0 races IH]; intros k cp n i race Hi.
  - destruct i; discriminate.
  - rewrite enumerate_cons. cbn [rounds]. unfold snapshot_after.
    rewrite filter_app. fold (snapshot_after).
    destruct i as [|i].
    + simpl in Hi. inversion Hi; subst race0. exists n.
      rewrite Nat.add_0_r.
      rewrite filter_all, filter_none.
      * rewrite app_nil_r. cbn [firstn]. rewrite rows_of_races_cons.
        unfold rows_of_races at 1. simpl. now rewrite app_nil_r.
      * intros s Hs. apply rounds_round_range in Hs.
        apply Nat.eqb_neq. lia.
      * intros s Hs. apply emitted_round in Hs. apply Nat.eqb_eq. lia.
    + simpl in Hi.
      destruct (IH (S k) (add_all cp (race_results_of results race0))
                  (n + length (snapshot utcnow n year k race0
                     (ranking results race0
                        (add_all cp (race_results_of results race0)))))%nat
                  i race Hi) as [n' E].
      exists n'. rewrite filter_none.
      * simpl app. unfold snapshot_after in E.
        replace (k + S i + 1)%nat with (S k + i + 1)%nat by lia.
        rewrite E. replace (S k + i)%nat with (k + S i)%nat by lia.
        change (firstn (S (S i)) (race0 :: races))
          with (race0 :: firstn (S i) races).
        rewrite rows_of_races_cons. now rewrite add_all_app.
      * intros s Hs. apply emitted_round in Hs.
        apply Nat.eqb_neq. lia.
Qed.

Lemma enumerate_length {A} k (l : list A) : length (enumerate k l) = length l.
Proof.
  unfold enumerate. rewrite length_combine, length_seq. apply Nat.min_id.
Qed.

(** Every round of the output is empty or the snapshot of a race. *)
Lemma snapshot_after_cases utcnow year results R :
  snapshot_after (transform_championship_standings utcnow year results) R = []
  \/ exists i race n,
       R = S i /\ nth_error (races_of results) i = Some race /\
       snapshot_after (transform_championship_standings utcnow year results) R
       = snapshot utcnow n year i race
           (ranking results race
              (add_all [] (rows_of_races results
                             (firstn (S i) (races_of results))))).
Proof.
  rewrite transform_championship_standings_rounds.
  destruct R as [|i].
  - left. apply filter_none. intros s Hs.
    apply rounds_round_range in Hs. apply Nat.eqb_neq. lia.
  - destruct (nth_error (races_of results) i) as [race|] eqn:Hi.
    + right. exists i, race.
      destruct (snapshot_after_rounds utcnow year results _ 0%nat [] 0%nat
                  i race Hi) as [n E].
      exists n. repeat split; auto.
      simpl in E. rewrite Nat.add_1_r in E. exact E.
    + left. apply filter_none. intros s Hs.
      apply rounds_round_range in Hs. apply nth_error_None in Hi.
      apply Nat.eqb_neq. lia.
Qed.

Lemma emitted_nth utcnow year race_idx race rs l : forall a n j,
  nth_error (emitted utcnow n year race_idx race rs
               (combine (seq a (length l)) l)) j
  = option_map
      (fun e => record_of (utcnow (n + j)%nat) year race_idx race rs
                  (a + j)%nat e)
      (nth_error l j).
Proof.
  induction l as [|e l IH]; intros a n j.
  - destruct j; reflexivity.
  - cbn [length seq combine emitted]. destruct j as [|j]; cbn [nth_error].
    + simpl. now rewrite !Nat.add_0_r.
    + rewrite IH. replace (S n + j)%nat with (n + S j)%nat by lia.
      replace (S a + j)%nat with (a + S j)%nat by lia. reflexivity.
Qed.

Lemma snapshot_nth utcnow n year race_idx race rs j :
  nth_error (snapshot utcnow n year race_idx race rs) j
  = option_map
      (fun e => record_of (utcnow (n + j)%nat) year race_idx race rs (S j) e)
      (nth_error rs j).
Proof. unfold snapshot, enumerate. now rewrite emitted_nth. Qed.

Lemma emitted_map {B} (f : Standing.t -> B) (g : nat -> Entry.t -> B)
    utcnow year race_idx race rs :
  (forall now position e,
      f (record_of now year race_idx race rs position e) = g position e) ->
  forall todo n,
    map f (emitted utcnow n year race_idx race rs todo)
    = map (fun pe => g (fst pe) (snd pe)) todo.
Proof.
  intros H. induction todo as [|[position e] todo IH]; intros n; simpl; auto.
  now rewrite H, IH.
Qed.

Lemma enumerate_fst {A} (l : list A) k :
  map fst (enumerate k l) = seq k (length l).
Proof.
  revert k. induction l as [|x l IH]; intros k; auto.
  rewrite enumerate_cons. simpl. now rewrite IH.
Qed.

Lemma enumerate_snd {A} (l : list A) k : map snd (enumerate k l) = l.
Proof.
  revert k. induction l as [|x l IH]; intros k; auto.
  rewrite enumerate_cons. simpl. now rewrite IH.
Qed.

Lemma snapshot_positions utcnow n year race_idx race rs :
  map Standing.position (snapshot utcnow n year race_idx race rs)
  = seq 1 (length rs).
Proof.
  unfold snapshot.
  rewrite (emitted_map _ (fun position _ => position)) by reflexivity.
  apply (enumerate_fst rs 1).
Qed.

Lemma snapshot_entries {B} (f : Standing.t -> B) (g : Entry.t -> B)
    utcnow n year race_idx race rs :
  (forall now position e,
      f (record_of now year race_idx race rs position e) = g e) ->
  map f (snapshot utcnow n year race_idx race rs) = map g rs.
Proof.
  intros H. unfold snapshot.
  rewrite (emitted_map _ (fun _ e => g e)) by exact H.
  rewrite <- (enumerate_snd rs 1) at 2. now rewrite map_map.
Qed.

Lemma snapshot_length utcnow n year race_idx race rs :
  length (snapshot utcnow n year race_idx race rs) = length rs.
Proof.
  rewrite <- (length_map Standing.position), snapshot_positions.
  apply length_seq.
Qed.

Lemma StronglySorted_nth {A} (R : A -> A -> Prop) l :
  StronglySorted R l ->
  forall j k a b, (j < k)%nat ->
    nth_error l j = Some a -> nth_error l k = Some b -> R a b.
Proof.
  induction 1 as [|x l S IH F]; intros j k a b Hjk Ha Hb.
  - destruct j; discriminate.
  - destruct k as [|k]; [lia|]. simpl in Hb.
    destruct j as [|j]; simpl in Ha.
    + inversion Ha; subst. rewrite Forall_forall in F.
      apply F. eapply nth_error_In; eauto.
    + apply (IH j k a b); auto. lia.
Qed.

Lemma ranking_sorted results race cp :
  StronglySorted points_ge (ranking results race cp).
Proof. apply sort_standings_sorted. Qed.

(** ** Gaps to the leader and to the next driver *)

(** C7: in the snapshot of every round, the entry at index [i] has
    rank [i + 1]; the rank-1 entry is 0 points behind the leader; every
    entry is [leader points - its points] behind, a non-negative gap
    that does not decrease with the rank; and its [points_ahead_next] is
    its points minus those of the next rank, 0 for the last entry. *)
Theorem C7_gaps_to_leader_and_next utcnow year results R i s :
  let snap :=
    snapshot_after (transform_championship_standings utcnow year results) R in
  nth_error snap i = Some s ->
  Standing.position s = S i /\
  (forall leader, nth_error snap 0 = Some leader ->
     Standing.position leader = 1%nat /\
     Standing.points_behind_leader leader = 0 /\
     Standing.points_behind_leader s
     = Standing.points leader - Standing.points s) /\
  0 <= Standing.points_behind_leader s /\
  match nth_error snap (S i) with
  | Some next =>
      Standing.points_behind_leader s <= Standing.points_behind_leader next /\
      Standing.points_ahead_next s = Standing.points s - Standing.points next
  | None => Standing.points_ahead_next s = 0
  end.
Proof.
  intros snap. subst snap.
  destruct (snapshot_after_cases utcnow year results R)
    as [E | (i0 & race & n & -> & Hr & E)]; rewrite E.
  - destruct i; discriminate.
  - set (rs := ranking results race _).
    assert (Hs := ranking_sorted results race
                    (add_all [] (rows_of_races results
                                   (firstn (S i0) (races_of results))))).
    fold rs in Hs. clearbody rs.
    rewrite !snapshot_nth. intros H.
    destruct (nth_error rs i) as [e|] eqn:Hi; [|discriminate].
    inversion H; subst s; clear H. cbn [Standing.position
      Standing.points_behind_leader Standing.points Standing.points_ahead_next
      record_of].
    destruct rs as [|e0 rs']; [destruct i; discriminate|].
    assert (Hle : Entry.points e <= Entry.points e0).
    { destruct i as [|i].
      - inversion Hi. lia.
      - apply (StronglySorted_nth _ _ Hs 0%nat (S i) e0 e); auto. lia. }
    repeat split.
    + inversion H. subst leader. reflexivity.
    + inversion H. subst leader. simpl. lia.
    + inversion H. subst leader. reflexivity.
    + simpl. lia.
    + destruct (nth_error (e0 :: rs') (S i)) as [next|] eqn:Hn; simpl; auto.
      split; auto.
      assert (Entry.points next <= Entry.points e).
      { apply (StronglySorted_nth _ _ Hs i (S i) e next); auto. }
      lia.
Qed.

Lemma C7_witness :
  nth_error
    (snapshot_after
       (transform_championship_standings sample_clock 2023 sample_results) 2) 1
  = Some (sample_standing 2 "Jeddah" 2 "Driver B" "Team Y" 2 25 16 7 1 1 1
            1700000004)
  /\ 0 <= 16.
Proof.
  split; [reflexivity|].
  exact (proj1 (proj2 (proj2
    (C7_gaps_to_leader_and_next sample_clock 2023 sample_results 2 1
       (sample_standing 2 "Jeddah" 2 "Driver B" "Team Y" 2 25 16 7 1 1 1
          1700000004) eq_refl)))).
Defined.

(** ** The order of the races *)

Lemma string_compare_refl s : String.compare s s = Eq.
Proof. now apply String_as_OT.cmp_eq. Qed.

Lemma string_compare_trans a b c :
  String.compare a b = Lt -> String.compare b c = Lt -> String.compare a c = Lt.
Proof.
  intros H1 H2. apply String_as_OT.cmp_lt.
  apply String_as_OT.cmp_lt in H1, H2.
  eapply String_as_OT.lt_trans; eauto.
Qed.

Lemma key_compare_eq a b : key_compare a b = Eq <-> a = b.
Proof.
  destruct a as [d1 g1], b as [d2 g2]. unfold key_compare. simpl. split.
  - destruct (d1 ?= d2) eqn:E; try discriminate.
    apply Z.compare_eq in E. intros H. apply String_as_OT.cmp_eq in H.
    congruence.
  - intros H. inversion H; subst. rewrite Z.compare_refl.
    apply string_compare_refl.
Qed.

Lemma key_compare_antisym a b : key_compare a b = CompOpp (key_compare b a).
Proof.
  destruct a as [d1 g1], b as [d2 g2]. unfold key_compare. simpl.
  rewrite (Z.compare_antisym d2 d1).
  destruct (d2 ?= d1); simpl; auto. apply String_as_OT.cmp_antisym.
Qed.

Lemma key_compare_gt a b : key_compare a b = Gt -> key_lt b a.
Proof.
  unfold key_lt. rewrite (key_compare_antisym b a). now intros ->.
Qed.

Lemma key_lt_trans a b c : key_lt a b -> key_lt b c -> key_lt a c.
Proof.
  destruct a as [d1 g1], b as [d2 g2], c as [d3 g3].
  unfold key_lt, key_compare. simpl.
  destruct (d1 ?= d2) eqn:E1; try discriminate;
  destruct (d2 ?= d3) eqn:E2; try discriminate; intros H1 H2.
  - apply Z.compare_eq in E1, E2. subst. rewrite Z.compare_refl.
    eapply string_compare_trans; eauto.
  - apply Z.compare_eq in E1. subst. now rewrite E2.
  - apply Z.compare_eq in E2. subst. now rewrite E1.
  - rewrite Z.compare_lt_iff in *.
    assert (E : d1 < d3) by lia. apply Z.compare_lt_iff in E. now rewrite E.
Qed.

Lemma key_lt_irrefl a : ~ key_lt a a.
Proof.
  unfold key_lt. intros H.
  assert (E : key_compare a a = Eq) by now apply key_compare_eq.
  congruence.
Qed.

Lemma key_lt_date a b : key_lt a b -> fst a <= fst b.
Proof.
  unfold key_lt, key_compare.
  destruct (fst a ?= fst b) eqn:E; try discriminate; intros _.
  - apply Z.compare_eq in E. lia.
  - rewrite Z.compare_lt_iff in E. lia.
Qed.

Lemma insert_key_In k l x : In x (insert_key k l) <-> x = k \/ In x l.
Proof.
  induction l as [|k' l IH]; simpl.
  - intuition.
  - destruct (key_compare k k') eqn:E; simpl.
    + apply key_compare_eq in E. subst. intuition.
    + intuition.
    + rewrite IH. intuition.
Qed.

Lemma insert_key_sorted k l :
  StronglySorted key_lt l -> StronglySorted key_lt (insert_key k l).
Proof.
  induction 1 as [|k' l S IH F]; simpl.
  - repeat constructor.
  - destruct (key_compare k k') eqn:E.
    + now constructor.
    + constructor; [now constructor|]. constructor; auto.
      rewrite Forall_forall in *. intros x Hx.
      eapply key_lt_trans; [exact E | auto].
    + constructor; auto. rewrite Forall_forall in *. intros x Hx.
      apply insert_key_In in Hx. destruct Hx as [->|Hx]; auto.
      now apply key_compare_gt.
Qed.

Lemma races_of_sorted results : StronglySorted key_lt (races_of results).
Proof.
  induction results as [|r results IH]; simpl; [constructor|].
  now apply insert_key_sorted.
Qed.

Lemma races_of_In results k :
  In k (races_of results) <-> In k (map key_of results).
Proof.
  induction results as [|r results IH]; simpl; [tauto|].
  rewrite insert_key_In, IH. intuition.
Qed.

(** Two strictly sorted lists with the same elements are equal. *)
Lemma sorted_unique l1 : forall l2,
  StronglySorted key_lt l1 -> StronglySorted key_lt l2 ->
  (forall x, In x l1 <-> In x l2) -> l1 = l2.
Proof.
  induction l1 as [|a l1 IH]; intros l2 S1 S2 H.
  - destruct l2 as [|b l2]; auto. destruct (proj2 (H b)); now left.
  - destruct l2 as [|b l2]; [destruct (proj1 (H a)); now left|].
    inversion S1 as [|? ? S1' F1]; inversion S2 as [|? ? S2' F2]; subst.
    rewrite Forall_forall in F1, F2.
    assert (a = b).
    { destruct (proj1 (H a) (or_introl eq_refl)) as [E|Ha]; auto.
      destruct (proj2 (H b) (or_introl eq_refl)) as [E|Hb]; auto.
      exfalso. apply (key_lt_irrefl a).
      eapply key_lt_trans; [apply F1, Hb | apply F2, Ha]. }
    subst b. f_equal. apply IH; auto.
    intros x. split; intros Hx.
    + destruct (proj1 (H x) (or_intror Hx)) as [E|Hx']; auto.
      subst. exfalso. apply (key_lt_irrefl x). now apply F1.
    + destruct (proj2 (H x) (or_intror Hx)) as [E|Hx']; auto.
      subst. exfalso. apply (key_lt_irrefl x). now apply F2.
Qed.

Lemma StronglySorted_filter {A} (R : A -> A -> Prop) (f : A -> bool) l :
  StronglySorted R l -> StronglySorted R (filter f l).
Proof.
  induction 1 as [|x l S IH F]; simpl; [constructor|].
  destruct (f x); auto. constructor; auto.
  rewrite Forall_forall in *. intros y Hy. apply filter_In in Hy.
  apply F. tauto.
Qed.

(** The rounds depend on the set of (date, grand_prix) pairs only. *)
Lemma races_of_same_keys results1 results2 :
  (forall k, In k (map key_of results1) <-> In k (map key_of results2)) ->
  races_of results1 = races_of results2.
Proof.
  intros H. apply sorted_unique; try apply races_of_sorted.
  intros x. now rewrite !races_of_In.
Qed.

Lemma races_of_filter_date d results :
  races_of (results_upto d results)
  = filter (fun k => fst k <=? d) (races_of results).
Proof.
  apply sorted_unique.
  - apply races_of_sorted.
  - apply StronglySorted_filter, races_of_sorted.
  - intros x. rewrite filter_In, !races_of_In, !in_map_iff. split.
    + intros (r & <- & Hr). apply filter_In in Hr. split; [|tauto].
      exists r. tauto.
    + intros [(r & <- & Hr) Hx]. exists r. split; auto.
      apply filter_In. tauto.
Qed.

Lemma sorted_filter_firstn d l :
  StronglySorted key_lt l ->
  let kept := filter (fun k => fst k <=? d) l in
  kept = firstn (length kept) l.
Proof.
  induction 1 as [|k l S IH F]; simpl; auto.
  destruct (fst k <=? d) eqn:E; simpl.
  - apply f_equal. exact IH.
  - rewrite filter_none; auto. intros x Hx.
    rewrite Forall_forall in F. apply F, key_lt_date in Hx.
    apply Z.leb_gt in E. apply Z.leb_gt. lia.
Qed.

(** The races dated up to [d] are the first rounds of the season. *)
Lemma races_of_upto d results :
  races_of (results_upto d results)
  = firstn (length (races_of (results_upto d results))) (races_of results).
Proof.
  rewrite races_of_filter_date.
  apply sorted_filter_firstn, races_of_sorted.
Qed.

(** The rounds are in chronological order. *)
Lemma races_of_chronological results j k a b :
  (j < k)%nat ->
  nth_error (races_of results) j = Some a ->
  nth_error (races_of results) k = Some b ->
  fst a <= fst b.
Proof.
  intros Hjk Ha Hb. apply key_lt_date.
  exact (StronglySorted_nth _ _ (races_of_sorted results) j k a b Hjk Ha Hb).
Qed.

(** ** The calendar of the season *)

Lemma race_before_key_lt a b : race_before a b <-> key_lt a b.
Proof.
  unfold race_before, key_lt, key_compare.
  destruct (fst a ?= fst b) eqn:E.
  - apply Z.compare_eq_iff in E. split; [intros [H|[_ H]]; [lia|auto]|].
    intros H. right. auto.
  - rewrite Z.compare_lt_iff in E. split; auto.
  - rewrite Z.compare_gt_iff in E. split; [|discriminate].
    intros [H|[H _]]; lia.
Qed.

Lemma StronglySorted_iff {A} (R R' : A -> A -> Prop) l :
  (forall a b, R a b <-> R' a b) ->
  StronglySorted R l -> StronglySorted R' l.
Proof.
  intros H. induction 1 as [|x l Hs IH F]; constructor; auto.
  eapply Forall_impl; [|exact F]. intros y. apply H.
Qed.

(** The races of [groupby] are the calendar of the rows. *)
Lemma season_calendar_races_of results :
  season_calendar results (races_of results).
Proof.
  split.
  - apply (StronglySorted_iff key_lt); [|apply races_of_sorted].
    intros a b. symmetry. apply race_before_key_lt.
  - intros date grand_prix. rewrite races_of_In, in_map_iff. split.
    + intros (r & E & Hr). inversion E. eauto.
    + intros (r & Hr & <- & <-). exists r. auto.
Qed.

(** There is one calendar. *)
Lemma season_calendar_unique results races :
  season_calendar results races -> races = races_of results.
Proof.
  intros [Hs Hin]. destruct (season_calendar_races_of results) as [Hs' Hin'].
  apply sorted_unique.
  - apply (StronglySorted_iff race_before); auto.
    apply race_before_key_lt.
  - apply races_of_sorted.
  - intros [date grand_prix]. now rewrite Hin, Hin'.
Qed.

Lemma sample_calendar :
  season_calendar sample_results
    [(1, "Bahrain"%string); (2, "Jeddah"%string)].
Proof. apply (season_calendar_races_of sample_results). Qed.

(** ** Who is in a snapshot, and with how many points *)

Lemma key_eqb_eq a b : key_eqb a b = true <-> a = b.
Proof.
  destruct a as [d1 g1], b as [d2 g2]. unfold key_eqb. simpl.
  rewrite andb_true_iff, Z.eqb_eq, String.eqb_eq.
  split; [intros [-> ->]; auto | intros E; inversion E; auto].
Qed.

Lemma rows_of_races_In results races r :
  In r (rows_of_races results races) <->
  In r results /\ In (key_of r) races.
Proof.
  unfold rows_of_races. rewrite in_concat. split.
  - intros (l & Hl & Hr). apply in_map_iff in Hl.
    destruct Hl as (race & <- & Hrace).
    apply filter_In in Hr. destruct Hr as [Hr E].
    apply key_eqb_eq in E. now rewrite E.
  - intros [Hr Hk]. exists (race_results_of results (key_of r)). split.
    + now apply in_map.
    + apply filter_In. split; auto. now apply key_eqb_eq.
Qed.

Lemma drivers_seen_In rows d :
  In d (drivers_seen rows) <-> In d (map GP.driver_number rows).
Proof. apply distinct_In. Qed.

Lemma ranking_drivers results race cp :
  Permutation (map Entry.driver_number (ranking results race cp)) (map fst cp).
Proof.
  unfold ranking. rewrite sort_standings_perm, map_map. reflexivity.
Qed.

Lemma snapshot_drivers utcnow n year race_idx race rs :
  map Standing.driver_number (snapshot utcnow n year race_idx race rs)
  = map Entry.driver_number rs.
Proof. now apply snapshot_entries. Qed.

Lemma add_all_nil_keys rows : map fst (add_all [] rows) = drivers_seen rows.
Proof.
  rewrite add_all_nil, map_map. apply map_id.
Qed.

(** A record of a snapshot ranked from the rows [rows] is built from
    a driver seen in them and that driver's total. *)
Lemma snapshot_In utcnow n year race_idx race results rows s :
  In s (snapshot utcnow n year race_idx race
          (ranking results race (add_all [] rows))) ->
  exists now position d,
    In d (drivers_seen rows) /\
    s = record_of now year race_idx race
          (ranking results race (add_all [] rows)) position
          (entry_of results race (d, total_points rows d)).
Proof.
  intros H. apply In_nth_error in H. destruct H as [j H].
  rewrite snapshot_nth in H.
  destruct (nth_error _ j) as [e|] eqn:Hj; [|discriminate].
  inversion H; subst s; clear H.
  apply nth_error_In in Hj. unfold ranking in Hj.
  apply (Permutation_in _ (sort_standings_perm _)) in Hj.
  rewrite add_all_nil in Hj. rewrite map_map in Hj.
  apply in_map_iff in Hj. destruct Hj as (d & <- & Hd).
  exists (utcnow (n + j)%nat), (S j), d. split; auto.
Qed.

Lemma total_points_races results races d :
  total_points (rows_of_races results races) d
  = sum_Z (map (fun race => total_points (race_results_of results race) d)
             races).
Proof.
  induction races as [|race races IH]; auto.
  rewrite rows_of_races_cons, total_points_app, IH. reflexivity.
Qed.

Lemma total_points_nonneg rows d :
  (forall r, In r rows -> 0 <= GP.points r) -> 0 <= total_points rows d.
Proof.
  unfold total_points. induction rows as [|r rows IH]; intros H; simpl; [lia|].
  destruct (is_driver d r); simpl.
  - specialize (H r (or_introl eq_refl)) as H0.
    assert (0 <= sum_Z (map GP.points (filter (is_driver d) rows)))
      by (apply IH; intros; apply H; now right).
    lia.
  - apply IH. intros; apply H; now right.
Qed.

Lemma sum_Z_app l1 l2 : sum_Z (l1 ++ l2) = sum_Z l1 + sum_Z l2.
Proof. induction l1; simpl; lia. Qed.

Lemma sum_Z_nonneg l : (forall x, In x l -> 0 <= x) -> 0 <= sum_Z l.
Proof.
  induction l as [|x l IH]; simpl; intros H; [lia|].
  assert (0 <= x) by auto. assert (0 <= sum_Z l) by auto. lia.
Qed.

Lemma snapshot_points utcnow year results R s :
  In s (snapshot_after (transform_championship_standings utcnow year results) R)
  ->
  Standing.points s
  = total_points (rows_of_races results (firstn R (races_of results)))
      (Standing.driver_number s).
Proof.
  destruct (snapshot_after_cases utcnow year results R)
    as [E | (i & race & n & -> & Hr & E)]; rewrite E; [intros []|].
  intros H. apply snapshot_In in H.
  destruct H as (now & position & d & _ & ->). reflexivity.
Qed.

Lemma firstn_le_app {A} (l : list A) R R' :
  (R <= R')%nat -> exists rest, firstn R' l = firstn R l ++ rest.
Proof.
  intros H. exists (skipn R (firstn R' l)).
  rewrite <- (firstn_skipn R (firstn R' l)) at 1.
  rewrite firstn_firstn. now rewrite Nat.min_l.
Qed.

Lemma firstn_In {A} (l : list A) : forall n x, In x (firstn n l) -> In x l.
Proof.
  induction l as [|y l IH]; intros [|n] x H; simpl in H; try tauto.
  destruct H as [<-|H]; [now left | right; eauto].
Qed.

Lemma firstn_S_nth {A} (l : list A) : forall i x,
  nth_error l i = Some x -> firstn (S i) l = firstn i l ++ [x].
Proof.
  induction l as [|y l IH]; intros [|i] x H; try discriminate.
  - inversion H. reflexivity.
  - simpl in H. change (firstn (S (S i)) (y :: l)) with (y :: firstn (S i) l).
    rewrite (IH i x H). reflexivity.
Qed.

Lemma Permutation_filter {A} (f : A -> bool) l l' :
  Permutation l l' -> Permutation (filter f l) (filter f l').
Proof.
  induction 1 as [|x l l' P IH|x y l|l l' l'' P1 IH1 P2 IH2]; simpl.
  - constructor.
  - destruct (f x); auto.
  - destruct (f x), (f y); auto. apply perm_swap.
  - eapply Permutation_trans; eauto.
Qed.

Lemma sum_Z_Permutation l l' : Permutation l l' -> sum_Z l = sum_Z l'.
Proof.
  induction 1; simpl; lia.
Qed.

Lemma total_points_Permutation rows rows' d :
  Permutation rows rows' -> total_points rows d = total_points rows' d.
Proof.
  intros P. unfold total_points.
  apply sum_Z_Permutation, Permutation_map, Permutation_filter, P.
Qed.

Lemma filter_or_perm {A} (f g : A -> bool) l :
  (forall x, In x l -> f x = true -> g x = false) ->
  Permutation (filter (fun x => f x || g x) l) (filter f l ++ filter g l).
Proof.
  induction l as [|x l IH]; intros H; simpl; auto.
  assert (IH' := IH (fun y Hy => H y (or_intror Hy))).
  destruct (f x) eqn:Ef; simpl.
  - rewrite (H x (or_introl eq_refl) Ef). now constructor.
  - destruct (g x); auto. now apply Permutation_cons_app.
Qed.

Lemma rows_of_races_filter results races :
  NoDup races ->
  Permutation (rows_of_races results races)
    (filter (fun r => existsb (key_eqb (key_of r)) races) results).
Proof.
  induction 1 as [|race races Hn ND IH].
  - simpl. rewrite filter_none; auto.
  - rewrite rows_of_races_cons. cbn [existsb].
    rewrite filter_or_perm.
    + apply Permutation_app; auto.
    + intros r _ E. apply key_eqb_eq in E.
      destruct (existsb (key_eqb (key_of r)) races) eqn:X; auto.
      apply existsb_exists in X. destruct X as (k & Hk & Ek).
      apply key_eqb_eq in Ek. exfalso. apply Hn. congruence.
Qed.

Lemma key_sorted_NoDup l : StronglySorted key_lt l -> NoDup l.
Proof.
  induction 1 as [|k l S IH F]; constructor; auto.
  intros H. rewrite Forall_forall in F. apply (key_lt_irrefl k). now apply F.
Qed.

Lemma firstn_sorted {A} (R : A -> A -> Prop) l n :
  StronglySorted R l -> StronglySorted R (firstn n l).
Proof.
  intros S. revert n. induction S as [|x l S IH F]; intros [|n]; simpl;
    try constructor; auto.
  rewrite Forall_forall in *. intros y Hy. apply F.
  now apply firstn_In in Hy.
Qed.

Lemma firstn_nth_In {A} (l : list A) : forall n x,
  In x (firstn n l) -> exists j, (j < n)%nat /\ nth_error l j = Some x.
Proof.
  induction l as [|a l IH]; intros [|n] x H; simpl in H; try tauto.
  destruct H as [<-|H].
  - exists 0%nat. split; [lia | reflexivity].
  - destruct (IH n x H) as (j & Hj & E). exists (S j). split; [lia | exact E].
Qed.

Lemma race_points_total results race d :
  race_points results race d = total_points (race_results_of results race) d.
Proof.
  unfold race_points, total_points, race_results_of.
  rewrite filter_filter. do 2 f_equal.
  apply filter_ext. intros r. unfold is_driver. apply andb_comm.
Qed.

Lemma in_races_key r races :
  in_races races r = true <-> In (key_of r) races.
Proof.
  unfold in_races. rewrite existsb_exists. split.
  - intros (race & Hr & E).
    change (in_race race r) with (key_eqb (key_of r) race) in E.
    apply key_eqb_eq in E. now rewrite E.
  - intros H. exists (key_of r). split; auto.
    change (in_race (key_of r) r) with (key_eqb (key_of r) (key_of r)).
    now apply key_eqb_eq.
Qed.

(** The rows of the first [R] races, each once. *)
Lemma rows_of_rounds results R :
  Permutation (rows_of_races results (firstn R (races_of results)))
    (filter (in_races (firstn R (races_of results))) results).
Proof.
  apply rows_of_races_filter.
  apply key_sorted_NoDup, firstn_sorted, races_of_sorted.
Qed.

Lemma snapshot_after_race utcnow year results R s :
  In s (snapshot_after (transform_championship_standings utcnow year results) R)
  ->
  exists race,
    (1 <= R)%nat /\ nth_error (races_of results) (R - 1) = Some race /\
    Standing.after_race s = snd race.
Proof.
  destruct (snapshot_after_cases utcnow year results R)
    as [E | (i & race & n & -> & Hr & E)]; rewrite E; [intros []|].
  intros H. apply snapshot_In in H.
  destruct H as (now & position & d & _ & ->).
  exists race. cbn [Nat.sub]. rewrite Nat.sub_0_r.
  repeat split; auto. lia.
Qed.

Lemma snapshot_points_monotone utcnow year results R R' s s' :
  (forall r, In r results -> 0 <= GP.points r) ->
  (R <= R')%nat ->
  In s (snapshot_after (transform_championship_standings utcnow year results) R)
  ->
  In s' (snapshot_after (transform_championship_standings utcnow year results)
           R') ->
  Standing.driver_number s' = Standing.driver_number s ->
  Standing.points s <= Standing.points s'.
Proof.
  intros Hpos HR Hs Hs' Hd.
  rewrite (snapshot_points _ _ _ _ _ Hs), (snapshot_points _ _ _ _ _ Hs').
  rewrite Hd, !total_points_races.
  destruct (firstn_le_app (races_of results) R R' HR) as [rest ->].
  rewrite map_app, sum_Z_app.
  assert (0 <= sum_Z (map (fun race =>
                total_points (race_results_of results race)
                  (Standing.driver_number s)) rest)); [|lia].
  apply sum_Z_nonneg. intros x Hx. apply in_map_iff in Hx.
  destruct Hx as (race & <- & _). apply total_points_nonneg.
  intros r Hr. apply Hpos. now apply race_results_incl in Hr.
Qed.

(** C5: let [races] be the calendar of the rows, every race of the
    season once, the earlier first.  A record of round [R] is tagged
    with the [R]-th race of the calendar, and its points are the sum of
    the driver's points in races 1..R of the calendar, race by race;
    every row of the driver in these races is counted once, and after
    the last race the points are those of all the driver's rows.  Hence,
    points being non-negative, a driver's snapshot points do not
    decrease from round to round. *)
Theorem C5_points_are_running_sum utcnow year results races R s :
  let out := transform_championship_standings utcnow year results in
  season_calendar results races ->
  In s (snapshot_after out R) ->
  (exists race,
      (1 <= R)%nat /\ nth_error races (R - 1) = Some race /\
      Standing.after_race s = snd race)
  /\ Standing.points s
     = sum_Z (map (fun race =>
                     race_points results race (Standing.driver_number s))
                (firstn R races))
  /\ Standing.points s
     = sum_Z (map GP.points
                (filter (fun r =>
                           (GP.driver_number r =? Standing.driver_number s)
                           && in_races (firstn R races) r)
                   results))
  /\ (R = length races ->
      Standing.points s
      = sum_Z (map GP.points
                 (filter (fun r =>
                            GP.driver_number r =? Standing.driver_number s)
                    results)))
  /\ ((forall r, In r results -> 0 <= GP.points r) ->
      forall R' s',
        (R <= R')%nat -> In s' (snapshot_after out R') ->
        Standing.driver_number s' = Standing.driver_number s ->
        Standing.points s <= Standing.points s').
Proof.
  intros out Hcal Hs. subst out.
  apply season_calendar_unique in Hcal. subst races.
  assert (Once : Standing.points s
     = sum_Z (map GP.points
                (filter (fun r =>
                           (GP.driver_number r =? Standing.driver_number s)
                           && in_races (firstn R (races_of results)) r)
                   results))).
  { rewrite (snapshot_points _ _ _ _ _ Hs). unfold total_points.
    rewrite (sum_Z_Permutation _ _
               (Permutation_map GP.points
                  (Permutation_filter (is_driver (Standing.driver_number s))
                     _ _ (rows_of_rounds results R)))).
    rewrite filter_filter. do 2 f_equal.
    apply filter_ext. intros r. unfold is_driver. apply andb_comm. }
  split; [|split; [|split; [|split]]].
  - now apply (snapshot_after_race utcnow year).
  - rewrite (snapshot_points _ _ _ _ _ Hs), total_points_races.
    f_equal. apply map_ext. intros race. symmetry. apply race_points_total.
  - exact Once.
  - intros ER. rewrite Once. do 2 f_equal.
    apply filter_ext_in. intros r Hr.
    assert (E : in_races (firstn R (races_of results)) r = true).
    { apply in_races_key. rewrite ER, firstn_all.
      apply races_of_In. now apply in_map. }
    rewrite E. apply andb_true_r.
  - intros Hpos R' s' HR Hs' Hd.
    now apply (snapshot_points_monotone utcnow year results R R').
Qed.

Lemma C5_witness :
  season_calendar sample_results [(1, "Bahrain"%string); (2, "Jeddah"%string)]
  /\ In (sample_standing 2 "Jeddah" 1 "Driver A" "Team X" 1 41 0 16 1 2 2
           1700000003)
        (snapshot_after
           (transform_championship_standings sample_clock 2023 sample_results)
           2)
  /\ 41 = (26 + 0) + ((15 + 0) + 0).
Proof.
  split; [exact sample_calendar|]. split; [left; reflexivity|].
  exact (proj1 (proj2
    (C5_points_are_running_sum sample_clock 2023 sample_results
       [(1, "Bahrain"%string); (2, "Jeddah"%string)] 2
       (sample_standing 2 "Jeddah" 1 "Driver A" "Team X" 1 41 0 16 1 2 2
          1700000003)
       sample_calendar (or_introl eq_refl)))).
Defined.

(** ** Completeness of the ranking *)




(** ** Name and team of a driver *)

Lemma find_split {A} (f : A -> bool) l x :
  find f l = Some x ->
  exists pre post,
    l = pre ++ x :: post /\ f x = true /\ forall y, In y pre -> f y = false.
Proof.
  induction l as [|a l IH]; simpl; [discriminate|].
  destruct (f a) eqn:E.
  - intros H. inversion H; subst. exists [], l. repeat split; auto.
    intros y [].
  - intros H. destruct (IH H) as (pre & post & -> & Hx & Hpre).
    exists (a :: pre), post. repeat split; auto.
    intros y [<-|Hy]; auto.
Qed.

Lemma date_ordered_first pre r post r' :
  date_ordered (pre ++ r :: post) -> In r' (r :: post) ->
  GP.date r <= GP.date r'.
Proof.
  unfold date_ordered. intros H Hin.
  apply Sorted_StronglySorted in H; [|intros x y z; lia].
  induction pre as [|a pre IH]; simpl in H.
  - inversion H as [|? ? _ F]; subst. destruct Hin as [<-|Hin]; [lia|].
    rewrite Forall_forall in F. now apply F.
  - inversion H; auto.
Qed.

Lemma transform_In_snapshot utcnow year results s :
  In s (transform_championship_standings utcnow year results) ->
  In s (snapshot_after (transform_championship_standings utcnow year results)
          (Standing.race_round s)).
Proof.
  intros H. apply filter_In. split; auto. apply Nat.eqb_refl.
Qed.

(** C10: the [driver_name] and [team_name] of every standings row are
    those of the first row of the fetched results for that driver; when
    the results come ordered by date, no row of the driver is dated
    earlier, so a later change of team never shows. *)
Theorem C10_names_from_first_row utcnow year results s :
  In s (transform_championship_standings utcnow year results) ->
  exists pre r post,
    results = pre ++ r :: post /\
    GP.driver_number r = Standing.driver_number s /\
    (forall r', In r' pre ->
       GP.driver_number r' <> Standing.driver_number s) /\
    Standing.driver_name s = GP.driver_name r /\
    Standing.team_name s = GP.team_name r /\
    (date_ordered results ->
     forall r', In r' results ->
       GP.driver_number r' = Standing.driver_number s ->
       GP.date r <= GP.date r').
Proof.
  intros H. apply transform_In_snapshot in H.
  destruct (snapshot_after_cases utcnow year results (Standing.race_round s))
    as [E | (i & race & n & _ & Hr & E)]; rewrite E in H; [destruct H|].
  apply snapshot_In in H. destruct H as (now & position & d & Hd & ->).
  cbn [Standing.driver_number Standing.driver_name Standing.team_name
       record_of entry_of Entry.driver_number Entry.driver_name
       Entry.team_name fst].
  assert (Hin : In d (map GP.driver_number results)).
  { apply drivers_seen_In, in_map_iff in Hd. destruct Hd as (r & <- & Hd).
    apply rows_of_races_In in Hd. apply in_map. tauto. }
  destruct (first_row_some _ _ Hin) as [r Hfr]. rewrite Hfr.
  destruct (find_split _ _ _ Hfr) as (pre & post & Eres & Hdr & Hpre).
  unfold is_driver in *. apply Z.eqb_eq in Hdr.
  exists pre, r, post. repeat split; auto.
  - intros r' Hr' Er'. apply Hpre in Hr'. apply Z.eqb_neq in Hr'. tauto.
  - intros Hord r' Hr' Er'. rewrite Eres in Hr', Hord.
    apply in_app_or in Hr'. destruct Hr' as [Hr'|Hr'].
    + apply Hpre in Hr'. apply Z.eqb_neq in Hr'. tauto.
    + eapply date_ordered_first; eauto.
Qed.

Lemma C10_witness :
  In (sample_standing 2 "Jeddah" 2 "Driver B" "Team Y" 2 25 16 7 1 1 1
        1700000004)
     (transform_championship_standings sample_clock 2023 sample_results)
  /\ exists pre r post,
       sample_results = pre ++ r :: post /\ GP.team_name r = "Team Y"%string.
Proof.
  split; [do 4 right; left; reflexivity|].
  destruct (C10_names_from_first_row sample_clock 2023 sample_results
              (sample_standing 2 "Jeddah" 2 "Driver B" "Team Y" 2 25 16 7 1 1 1
                 1700000004)
              (or_intror (or_intror (or_intror (or_intror
                 (or_introl eq_refl))))))
    as (pre & r & post & E & _ & _ & _ & Ht & _).
  exists pre, r, post. split; [exact E | symmetry; exact Ht].
Defined.

(** ** Order of a snapshot *)

Lemma enumerate_filter_snd {A} (f : A -> bool) (l : list A) : forall k,
  map snd (filter (fun pe => f (snd pe)) (enumerate k l)) = filter f l.
Proof.
  induction l as [|x l IH]; intros k; auto.
  rewrite enumerate_cons. simpl. destruct (f x); simpl; now rewrite IH.
Qed.

Lemma emitted_filter_points utcnow year race_idx race rs p : forall todo n,
  map Standing.driver_number
    (filter (fun s => Standing.points s =? p)
       (emitted utcnow n year race_idx race rs todo))
  = map (fun pe => Entry.driver_number (snd pe))
      (filter (fun pe => Entry.points (snd pe) =? p) todo).
Proof.
  induction todo as [|[position e] todo IH]; intros n; simpl; auto.
  destruct (Entry.points e =? p); simpl; now rewrite IH.
Qed.

Lemma snapshot_filter_points utcnow n year race_idx race rs p :
  map Standing.driver_number
    (filter (fun s => Standing.points s =? p)
       (snapshot utcnow n year race_idx race rs))
  = map Entry.driver_number (filter (fun e => Entry.points e =? p) rs).
Proof.
  unfold snapshot. rewrite emitted_filter_points.
  rewrite <- (enumerate_filter_snd (fun e => Entry.points e =? p) rs 1).
  now rewrite map_map.
Qed.

Lemma filter_map {A B} (f : B -> bool) (g : A -> B) l :
  filter f (map g l) = map g (filter (fun x => f (g x)) l).
Proof.
  induction l as [|x l IH]; simpl; auto.
  destruct (f (g x)); simpl; now rewrite IH.
Qed.

Lemma StronglySorted_map {A B} (R : B -> B -> Prop) (f : A -> B) l :
  StronglySorted (fun a b => R (f a) (f b)) l -> StronglySorted R (map f l).
Proof.
  induction 1 as [|x l S IH F]; simpl; constructor; auto.
  rewrite Forall_forall in *. intros y Hy. apply in_map_iff in Hy.
  destruct Hy as (a & <- & Ha). auto.
Qed.

(** C1, as the code has it: the snapshot of a round is in descending
    order of points, and the drivers of equal points stand in the order
    in which they first appeared in the rows of the races so far (the
    sort is stable on the insertion order of the dictionary); wins,
    podiums and driver number play no part. *)
Theorem C1_points_descending_ties_by_first_appearance
    utcnow year results i race :
  let snap :=
    snapshot_after (transform_championship_standings utcnow year results)
      (S i) in
  let rows := rows_of_races results (firstn (S i) (races_of results)) in
  nth_error (races_of results) i = Some race ->
  StronglySorted (fun x y => y <= x) (map Standing.points snap) /\
  forall p,
    map Standing.driver_number
      (filter (fun s => Standing.points s =? p) snap)
    = filter (fun d => total_points rows d =? p) (drivers_seen rows).
Proof.
  intros snap rows Hr.
  destruct (snapshot_after_rounds utcnow year results _ 0%nat [] 0%nat
              i race Hr) as [n E].
  simpl in E. rewrite Nat.add_1_r in E.
  rewrite <- transform_championship_standings_rounds in E.
  fold snap rows in E. rewrite E. split.
  - rewrite (snapshot_entries Standing.points Entry.points) by reflexivity.
    apply StronglySorted_map, ranking_sorted.
  - intros p. rewrite snapshot_filter_points. unfold ranking.
    rewrite sort_standings_stable, add_all_nil, map_map.
    rewrite filter_map, map_map. simpl. apply map_id.
Qed.

Lemma C1_witness :
  nth_error (races_of tied_results) 1 = Some (2, "Jeddah"%string)
  /\ map Standing.driver_number
       (filter (fun s => Standing.points s =? 25)
          (snapshot_after
             (transform_championship_standings sample_clock 2023 tied_results)
             2))
     = [44; 1].
Proof.
  split; [reflexivity|].
  exact (proj2 (C1_points_descending_ties_by_first_appearance sample_clock
                  2023 tied_results 1 (2, "Jeddah"%string) eq_refl) 25).
Defined.

(** C1 as stated fails: with 25 points each, driver 44 (no win) is
    ranked before driver 1 (one win), because 44 came first in the rows
    of the first race. *)
Lemma C1_counterexample :
  ~ (forall utcnow year results R,
       StronglySorted tie_break_before
         (snapshot_after
            (transform_championship_standings utcnow year results) R)).
Proof.
  intros H. specialize (H sample_clock 2023 tied_results 2%nat).
  match type of H with
  | StronglySorted _ ?l =>
      let v := eval vm_compute in l in change l with v in H
  end.
  inversion H as [|a l _ F]; subst.
  inversion F as [|b l' Hab _]; subst.
  unfold tie_break_before in Hab. simpl in Hab. lia.
Qed.

(** ** Recomputation against an earlier run *)

Lemma filter_filter_same {A} (f g : A -> bool) l :
  (forall x, In x l -> f x = true -> g x = true) ->
  filter f (filter g l) = filter f l.
Proof.
  intros H. rewrite filter_filter. apply filter_ext_in.
  intros x Hx. destruct (f x) eqn:E.
  - now rewrite (H x Hx E).
  - apply andb_false_r.
Qed.

Lemma race_results_upto d results race :
  fst race <= d ->
  race_results_of (results_upto d results) race = race_results_of results race.
Proof.
  intros H. apply filter_filter_same. intros r _ E.
  apply key_eqb_eq in E. subst race. simpl in H. now apply Z.leb_le.
Qed.

Lemma rows_of_races_upto d results races :
  (forall race, In race races -> fst race <= d) ->
  rows_of_races (results_upto d results) races = rows_of_races results races.
Proof.
  intros H. unfold rows_of_races. f_equal. apply map_ext_in.
  intros race Hr. apply race_results_upto. auto.
Qed.

Lemma driver_results_upto_upto d results x date :
  date <= d ->
  driver_results_upto (results_upto d results) x date
  = driver_results_upto results x date.
Proof.
  intros H. apply filter_filter_same. intros r _ E.
  apply andb_true_iff in E. destruct E as [_ E].
  apply Z.leb_le in E. apply Z.leb_le. lia.
Qed.

Lemma find_filter_same {A} (f g : A -> bool) l x :
  find f l = Some x -> g x = true -> find f (filter g l) = Some x.
Proof.
  induction l as [|a l IH]; simpl; [discriminate|].
  destruct (f a) eqn:E.
  - intros H Hg. inversion H; subst. rewrite Hg. simpl. now rewrite E.
  - intros H Hg. destruct (g a); simpl; rewrite ?E; auto.
Qed.

Lemma first_row_upto d results x r0 :
  date_ordered results ->
  In r0 results -> GP.driver_number r0 = x -> GP.date r0 <= d ->
  first_row (results_upto d results) x = first_row results x.
Proof.
  intros Hord Hin Hx Hd.
  destruct (first_row_some results x) as [r Hr].
  { rewrite <- Hx. now apply in_map. }
  rewrite Hr. apply find_filter_same; auto.
  destruct (find_split _ _ _ Hr) as (pre & post & E & Hf & Hpre).
  rewrite E in Hord, Hin. apply in_app_or in Hin.
  destruct Hin as [Hin|Hin].
  - apply Hpre in Hin. unfold is_driver in Hin.
    rewrite Hx, Z.eqb_refl in Hin. discriminate.
  - apply (date_ordered_first _ _ _ _ Hord) in Hin. apply Z.leb_le. lia.
Qed.

Lemma entry_of_upto d results race item r0 :
  date_ordered results -> fst race <= d ->
  In r0 results -> GP.driver_number r0 = fst item -> GP.date r0 <= d ->
  entry_of (results_upto d results) race item = entry_of results race item.
Proof.
  intros Hord Hrace Hin Hx Hd. unfold entry_of.
  rewrite (first_row_upto d results (fst item) r0) by auto.
  now rewrite driver_results_upto_upto.
Qed.

Lemma snapshot_drop_created_at utcnow1 utcnow2 n1 n2 year race_idx race rs :
  map drop_created_at (snapshot utcnow1 n1 year race_idx race rs)
  = map drop_created_at (snapshot utcnow2 n2 year race_idx race rs).
Proof.
  unfold snapshot.
  rewrite !(emitted_map drop_created_at
              (fun position e =>
                 record_of 0 year race_idx race rs position e));
    reflexivity.
Qed.

Lemma rounds_drop_created_at utcnow1 utcnow2 year results races :
  forall cp n1 n2,
  map drop_created_at (rounds utcnow1 year results races cp n1)
  = map drop_created_at (rounds utcnow2 year results races cp n2).
Proof.
  induction races as [|[race_idx race] races IH]; intros cp n1 n2; auto.
  cbn [rounds]. rewrite !map_app. f_equal.
  - apply snapshot_drop_created_at.
  - apply IH.
Qed.

Lemma ranking_upto d results race rows :
  date_ordered results -> fst race <= d ->
  (forall r, In r rows -> In r results /\ GP.date r <= d) ->
  ranking (results_upto d results) race (add_all [] rows)
  = ranking results race (add_all [] rows).
Proof.
  intros Hord Hrace Hrows. unfold ranking. f_equal.
  apply map_ext_in. intros item Hitem.
  assert (Hk : In (fst item) (drivers_seen rows)).
  { rewrite <- add_all_nil_keys. now apply in_map. }
  apply drivers_seen_In, in_map_iff in Hk. destruct Hk as (r0 & E & Hr0).
  destruct (Hrows r0 Hr0). now apply (entry_of_upto d results race item r0).
Qed.

(** C3, as the code has it: two runs agree on every field other than
    [created_at], whatever the clock reads; and, the results being
    fetched in date order, the run over the rows dated up to [d] gives,
    at each of its rounds, the records that the run over the whole
    season gives at that round, [created_at] apart. *)
Theorem C3_replay_agrees_up_to_created_at utcnow1 utcnow2 year results :
  map drop_created_at (transform_championship_standings utcnow1 year results)
  = map drop_created_at (transform_championship_standings utcnow2 year results)
  /\ (date_ordered results ->
      forall d R,
        (R <= length (races_of (results_upto d results)))%nat ->
        map drop_created_at
          (snapshot_after
             (transform_championship_standings utcnow1 year
                (results_upto d results)) R)
        = map drop_created_at
            (snapshot_after
               (transform_championship_standings utcnow2 year results) R)).
Proof.
  split.
  - rewrite !transform_championship_standings_rounds.
    apply rounds_drop_created_at.
  - intros Hord d R HR.
    rewrite !transform_championship_standings_rounds.
    destruct R as [|i].
    { unfold snapshot_after. rewrite !filter_none; auto;
        intros s Hs; apply rounds_round_range in Hs; apply Nat.eqb_neq; lia. }
    pose proof (races_of_upto d results) as Hpre.
    set (m := length (races_of (results_upto d results))) in *.
    destruct (nth_error (races_of (results_upto d results)) i)
      as [race|] eqn:Hi; [|apply nth_error_None in Hi; lia].
    assert (Hi' : nth_error (races_of results) i = Some race).
    { rewrite Hpre, nth_error_firstn in Hi.
      destruct (i <? m)%nat; [exact Hi | discriminate]. }
    destruct (snapshot_after_rounds utcnow1 year (results_upto d results) _
                0%nat [] 0%nat i race Hi) as [n1 E1].
    destruct (snapshot_after_rounds utcnow2 year results _
                0%nat [] 0%nat i race Hi') as [n2 E2].
    change (0 + i)%nat with i in E1, E2.
    rewrite Nat.add_1_r in E1, E2. rewrite E1, E2.
    assert (Hfirst : firstn (S i) (races_of (results_upto d results))
                     = firstn (S i) (races_of results)).
    { rewrite Hpre at 1. rewrite firstn_firstn. f_equal. lia. }
    assert (Hdates : forall k, In k (firstn (S i) (races_of results)) ->
                               fst k <= d).
    { intros k Hk. rewrite <- Hfirst in Hk. apply firstn_In in Hk.
      rewrite races_of_filter_date in Hk. apply filter_In in Hk.
      now apply Z.leb_le. }
    rewrite Hfirst, (rows_of_races_upto d results _ Hdates).
    rewrite ranking_upto; auto.
    + apply snapshot_drop_created_at.
    + apply Hdates. rewrite (firstn_S_nth _ _ _ Hi').
      apply in_or_app. right. now left.
    + intros r Hr. apply rows_of_races_In in Hr. destruct Hr as [Hr Hk].
      split; auto. apply (Hdates _ Hk).
Qed.

Lemma C3_witness :
  date_ordered sample_results
  /\ (1 <= length (races_of (results_upto 1 sample_results)))%nat
  /\ map drop_created_at
       (snapshot_after
          (transform_championship_standings sample_clock 2023
             (results_upto 1 sample_results)) 1)
     = map drop_created_at
         (snapshot_after
            (transform_championship_standings (fun _ => 0) 2023
               sample_results) 1).
Proof.
  assert (H : date_ordered sample_results).
  { unfold date_ordered, sample_results.
    repeat (constructor; simpl; try lia). }
  split; [exact H|]. split; [simpl; lia|].
  apply (proj2 (C3_replay_agrees_up_to_created_at sample_clock (fun _ => 0)
                  2023 sample_results) H 1 1%nat).
  simpl; lia.
Defined.

(** C3 as stated fails: the records carry the wall-clock time of the
    run, so two runs over the same rows differ in [created_at]. *)
Lemma C3_counterexample :
  ~ (forall utcnow1 utcnow2 year results,
       transform_championship_standings utcnow1 year results
       = transform_championship_standings utcnow2 year results).
Proof.
  intros H.
  specialize (H sample_clock (fun n => sample_clock n + 3600) 2023
                sample_results).
  apply (f_equal (map Standing.created_at)) in H.
  vm_compute in H. discriminate.
Qed.

(** ** Sequencing of the races *)







(** ** Grand Prix results *)

Lemma merge_session_In utcnow year session drivers starting_grid fastest_laps
    penalties session_results rec : forall results out,
  merge_session utcnow year session drivers starting_grid fastest_laps
    penalties session_results results = Some out ->
  In rec out ->
  In rec results \/
  exists now result,
    In result session_results /\
    result_record now year session drivers starting_grid fastest_laps
      penalties result = Built rec.
Proof.
  induction session_results as [|result rest IH]; intros results out E H.
  - cbn [merge_session] in E. inversion E; subst out. now left.
  - cbn [merge_session] in E.
    destruct (result_record (utcnow (length results)) year session drivers
                starting_grid fastest_laps penalties result) as [| |rec']
      eqn:Er; [discriminate| |].
    + destruct (IH _ _ E H) as [K | (now & result' & Hin & K)]; auto.
      right. exists now, result'. split; auto. now right.
    + destruct (IH _ _ E H) as [K | (now & result' & Hin & K)].
      * apply in_app_or in K. destruct K as [K | [<- | []]]; auto.
        right. exists (utcnow (length results)), result. split; auto.
        now left.
      * right. exists now, result'. split; auto. now right.
Qed.

Lemma merge_sessions_In utcnow db year rec sessions : forall results out,
  merge_sessions utcnow db year sessions results = Some out ->
  In rec out ->
  In rec results \/
  exists now session result,
    In session sessions /\
    In result (_get_session_results db (Session.session_key session)) /\
    result_record now year session
      (_get_session_drivers db (Session.session_key session))
      (_get_starting_grid db (Session.session_key session))
      (_get_fastest_laps db (Session.session_key session))
      (_get_penalties db (Session.session_key session))
      result = Built rec.
Proof.
  induction sessions as [|session rest IH]; intros results out E H.
  - cbn [merge_sessions] in E. inversion E; subst out. now left.
  - cbn [merge_sessions] in E.
    assert (L : forall results',
      merge_sessions utcnow db year rest results' = Some out ->
      In rec results' \/
      exists now session0 result,
        In session0 (session :: rest) /\
        In result (_get_session_results db (Session.session_key session0)) /\
        result_record now year session0
          (_get_session_drivers db (Session.session_key session0))
          (_get_starting_grid db (Session.session_key session0))
          (_get_fastest_laps db (Session.session_key session0))
          (_get_penalties db (Session.session_key session0))
          result = Built rec).
    { intros results' E'.
      destruct (IH _ _ E' H) as [K | (now & s0 & result & H1 & H2 & H3)]; auto.
      right. exists now, s0, result. repeat split; auto. now right. }
    destruct (_get_session_results db (Session.session_key session))
      as [|sr srs] eqn:Esr; [now apply L|].
    destruct (_get_session_drivers db (Session.session_key session))
      as [|dr drs] eqn:Edr; [now apply L|].
    destruct (merge_session utcnow year session (dr :: drs)
                (_get_starting_grid db (Session.session_key session))
                (_get_fastest_laps db (Session.session_key session))
                (_get_penalties db (Session.session_key session))
                (sr :: srs) results) as [mid|] eqn:Em; [|discriminate].
    cbn [bind] in E.
    destruct (L _ E) as [K | K]; auto.
    destruct (merge_session_In _ _ _ _ _ _ _ _ _ _ _ Em K)
      as [K' | (now & result & Hin & K')]; auto.
    right. exists now, session, result.
    rewrite Esr, Edr. repeat split; auto. now left.
Qed.

(** Every row of the results is the record of one classification row
    of a race session of the year, merged with the frames of that
    session. *)
Lemma grand_prix_results_In utcnow db year rec :
  In rec (grand_prix_results utcnow db year) ->
  exists now session result,
    In session (race_sessions db year) /\
    In result (_get_session_results db (Session.session_key session)) /\
    result_record now year session
      (_get_session_drivers db (Session.session_key session))
      (_get_starting_grid db (Session.session_key session))
      (_get_fastest_laps db (Session.session_key session))
      (_get_penalties db (Session.session_key session))
      result = Built rec.
Proof.
  unfold grand_prix_results, built_results.
  destruct (merge_sessions utcnow db year (race_sessions db year) [])
    as [out|] eqn:E; [|intros []].
  intros H. destruct (merge_sessions_In _ _ _ _ _ _ _ E H) as [[]|K].
  exact K.
Qed.

(** The record that a turn of the loop built. *)
Ltac built_record :=
  unfold result_record;
  match goal with
  | |- match filter ?f ?l with _ => _ end = _ -> _ =>
      destruct (filter f l) as [|driver_info ?]; [discriminate|]
  end;
  match goal with
  | |- match ?m with _ => _ end = _ -> _ =>
      destruct m as [points|]; [|discriminate]
  end;
  let H := fresh "H" in
  intros H; inversion H; subst; clear H.

Lemma result_record_points now year session drivers starting_grid
    fastest_laps penalties result rec :
  result_record now year session drivers starting_grid fastest_laps penalties
    result = Built rec ->
  GP.points rec
  = table_points (GP.final_position rec)
    + (if is_some (GP.fastest_lap rec) && opt_leb (GP.final_position rec) 10
       then 1 else 0)
  /\ GP.final_position rec = cell_value (SessionResult.position result)
  /\ GP.dsq rec = get_default (SessionResult.dsq result) false
  /\ GP.total_time_penalty rec
     = sum_Z (map Penalty.penalty_seconds
                (filter (fun p => Penalty.driver_number p
                                  =? SessionResult.driver_number result)
                   penalties)).
Proof.
  unfold result_record.
  destruct (filter _ drivers) as [|driver_info ?]; [discriminate|].
  destruct (filter _ fastest_laps) as [|f ?];
    destruct (SessionResult.position result) as [z| |];
    cbn [bind cell_leb _calculate_points cell_value];
    try discriminate;
    try destruct (z <=? 10) eqn:Ez;
    cbn [bind cell_leb _calculate_points cell_value];
    try rewrite Ez;
    intros H; inversion H; subst rec; clear H;
    cbn [GP.points GP.final_position GP.fastest_lap GP.dsq
         GP.total_time_penalty is_some opt_leb andb];
    unfold table_points, points_system; try rewrite Ez.
  all: repeat split; try lia.
  all: match goal with
       | |- context [filter ?f ?l] => destruct (filter f l); reflexivity
       end.
Qed.

Lemma table_points_zero position :
  position = None \/ (exists p, position = Some p /\ 10 < p) ->
  table_points position = 0.
Proof.
  intros [-> | (p & -> & Hp)]; [reflexivity|].
  destruct p as [|q|q]; try lia.
  unfold table_points, points_system.
  do 4 (try (destruct q as [q|q|]; try reflexivity; try lia)).
Qed.

Lemma opt_leb_above position :
  position = None \/ (exists p, position = Some p /\ 10 < p) ->
  opt_leb position 10 = false.
Proof.
  intros [-> | (p & -> & Hp)]; [reflexivity|].
  unfold opt_leb. now apply Z.leb_gt.
Qed.

Lemma grand_prix_results_points utcnow db year rec :
  In rec (grand_prix_results utcnow db year) ->
  GP.points rec
  = table_points (GP.final_position rec)
    + (if is_some (GP.fastest_lap rec) && opt_leb (GP.final_position rec) 10
       then 1 else 0).
Proof.
  intros H. apply grand_prix_results_In in H.
  destruct H as (now & session & result & _ & _ & H).
  now apply result_record_points in H.
Qed.

(** The flag [dsq] of a classification row goes to the field [dsq] of
    the record and to nothing else. *)
Lemma result_record_set_dsq now year session drivers starting_grid
    fastest_laps penalties result rec flag :
  result_record now year session drivers starting_grid fastest_laps penalties
    result = Built rec ->
  result_record now year session drivers starting_grid fastest_laps penalties
    (set_dsq flag result)
  = Built (with_dsq (get_default flag false) rec).
Proof.
  unfold result_record, set_dsq.
  cbn [SessionResult.driver_number SessionResult.position SessionResult.dnf
       SessionResult.dns SessionResult.dsq].
  destruct (filter _ drivers) as [|driver_info ?]; [discriminate|].
  match goal with
  | |- match ?m with _ => _ end = _ -> _ => destruct m as [points|]
  end; [|discriminate].
  intros H. inversion H; subst rec; clear H. reflexivity.
Qed.

Lemma table_points_top_ten p :
  1 <= p <= 10 -> 0 < table_points (Some p).
Proof.
  intros H.
  assert (C : p = 1 \/ p = 2 \/ p = 3 \/ p = 4 \/ p = 5 \/ p = 6 \/ p = 7
              \/ p = 8 \/ p = 9 \/ p = 10) by lia.
  repeat (destruct C as [-> | C]; [reflexivity|]). now subst p.
Qed.

(** C2, as the code has it: the flag [dsq] of the driver's classification
    row is copied to the record and enters nothing else, so that the same
    row under any other flag builds the same record but for the field
    [dsq], points included.  A disqualified driver therefore has 0 points
    when unclassified or classified below tenth, and keeps at least the
    points of the position when classified in the first ten. *)
Theorem C2_dsq_copied_and_not_scored utcnow db year rec :
  In rec (grand_prix_results utcnow db year) ->
  (exists now session result,
     In session (race_sessions db year) /\
     In result (_get_session_results db (Session.session_key session)) /\
     GP.dsq rec = get_default (SessionResult.dsq result) false /\
     forall flag,
       result_record now year session
         (_get_session_drivers db (Session.session_key session))
         (_get_starting_grid db (Session.session_key session))
         (_get_fastest_laps db (Session.session_key session))
         (_get_penalties db (Session.session_key session))
         (set_dsq flag result)
       = Built (with_dsq (get_default flag false) rec))
  /\ (GP.dsq rec = true ->
      GP.final_position rec = None \/
      (exists p, GP.final_position rec = Some p /\ 10 < p) ->
      GP.points rec = 0)
  /\ (GP.dsq rec = true ->
      forall p, GP.final_position rec = Some p -> 1 <= p <= 10 ->
      0 < table_points (Some p) <= GP.points rec).
Proof.
  intros H. pose proof (grand_prix_results_points _ _ _ _ H) as Hp.
  split; [|split].
  - apply grand_prix_results_In in H.
    destruct H as (now & session & result & Hs & Hr & H).
    exists now, session, result. repeat split; auto.
    + now apply result_record_points in H.
    + intros flag. now apply result_record_set_dsq.
  - intros _ Hpos. rewrite Hp, (table_points_zero _ Hpos),
      (opt_leb_above _ Hpos), andb_false_r. reflexivity.
  - intros _ p E Hr. rewrite Hp, E. split.
    + now apply table_points_top_ten.
    + destruct (is_some (GP.fastest_lap rec) && opt_leb (Some p) 10); lia.
Qed.

Lemma C2_witness :
  In (sample_result 16 "Driver C" "CCC" "Team W" None 11 0 92000 true
        1700000002)
     (grand_prix_results sample_clock (sample_db false true) 2023)
  /\ GP.points (sample_result 16 "Driver C" "CCC" "Team W" None 11 0 92000 true
                  1700000002) = 0.
Proof.
  assert (H : In (sample_result 16 "Driver C" "CCC" "Team W" None 11 0 92000
                    true 1700000002)
                (grand_prix_results sample_clock (sample_db false true) 2023))
    by (do 2 right; left; reflexivity).
  split; [exact H|].
  apply (proj1 (proj2 (C2_dsq_copied_and_not_scored sample_clock
                         (sample_db false true) 2023 _ H))).
  - reflexivity.
  - right. exists 11. split; [reflexivity | lia].
Defined.

(** C2 as stated fails: a driver classified first and flagged [dsq],
    with a timed lap, is given 25 + 1 points. *)
Lemma C2_counterexample :
  ~ (forall utcnow db year rec,
       In rec (grand_prix_results utcnow db year) ->
       GP.dsq rec = true -> GP.points rec = 0).
Proof.
  intros H.
  specialize (H sample_clock (sample_db true false) 2023
                (sample_result 1 "Driver A" "AAA" "Team X" (Some 2) 1 26 90000
                   true 1700000000)
                (or_introl eq_refl) eq_refl).
  discriminate.
Qed.

(** ** The frame of fastest laps *)

Lemma lookup_lap_group_min driver_number d groups x :
  lookup_lap x (group_min driver_number d groups)
  = if driver_number =? x
    then Some (match lookup_lap driver_number groups with
               | Some m => Z.min m d
               | None => d
               end)
    else lookup_lap x groups.
Proof.
  induction groups as [|g groups IH]; simpl.
  - rewrite (Z.eqb_sym driver_number x). now destruct (x =? driver_number).
  - destruct (FastestLap.driver_number g =? driver_number) eqn:E; simpl.
    + apply Z.eqb_eq in E. rewrite E. now destruct (driver_number =? x).
    + rewrite IH. destruct (driver_number =? x) eqn:E'; auto.
      apply Z.eqb_eq in E'. subst x. now rewrite E.
Qed.

Lemma lookup_fastest_laps session_key x laps : forall groups,
  lookup_lap x
    (fold_left
       (fun groups lap =>
          match Lap.lap_duration lap with
          | Some d =>
              if Lap.session_key lap =? session_key
              then group_min (Lap.driver_number lap) d groups
              else groups
          | None => groups
          end) laps groups)
  = own_best session_key x laps (lookup_lap x groups).
Proof.
  unfold own_best.
  induction laps as [|lap laps IH]; intros groups; simpl; auto.
  rewrite IH. f_equal.
  destruct (Lap.lap_duration lap) as [d|]; auto.
  destruct (Lap.session_key lap =? session_key); simpl; auto.
  rewrite lookup_lap_group_min.
  destruct (Lap.driver_number lap =? x) eqn:E; auto.
  apply Z.eqb_eq in E. now rewrite E.
Qed.

(** What [own_best] returns is attained by a lap of the driver, or is
    the starting value, and bounds both from below. *)
Lemma own_best_least session_key x laps : forall best m,
  own_best session_key x laps best = Some m ->
  (best = Some m \/
   exists lap, In lap laps /\ Lap.session_key lap = session_key /\
               Lap.driver_number lap = x /\ Lap.lap_duration lap = Some m)
  /\ (forall b, best = Some b -> m <= b)
  /\ (forall lap y, In lap laps -> Lap.session_key lap = session_key ->
        Lap.driver_number lap = x -> Lap.lap_duration lap = Some y -> m <= y).
Proof.
  unfold own_best.
  induction laps as [|lap laps IH]; intros best m H; simpl in H.
  - repeat split.
    + now left.
    + intros b Hb. rewrite H in Hb. inversion Hb. lia.
    + intros lap y [].
  - apply IH in H. destruct H as (H1 & H2 & H3).
    destruct (Lap.lap_duration lap) as [d|] eqn:Ed.
    2:{ repeat split; auto.
        - destruct H1 as [H1|(l & Hl & H1)]; auto. right. exists l.
          split; auto. now right.
        - intros l y [<-|Hl] Hs Hx Hy; [congruence | eauto]. }
    destruct ((Lap.session_key lap =? session_key)
              && (Lap.driver_number lap =? x)) eqn:Em.
    + apply andb_true_iff in Em. destruct Em as [Es Ex].
      apply Z.eqb_eq in Es, Ex.
      specialize (H2 _ eq_refl).
      repeat split.
      * destruct H1 as [H1|(l & Hl & H1)].
        -- inversion H1 as [Hm]. destruct best as [b|].
           ++ destruct (Z.min_spec b d) as [[? Hmin]|[? Hmin]].
              ** left. f_equal. lia.
              ** right. exists lap. split; [now left|].
                 repeat split; auto. rewrite Ed. f_equal. lia.
           ++ right. exists lap. split; [now left|].
              repeat split; auto.
        -- right. exists l. split; auto. now right.
      * intros b Hb. subst best. lia.
      * intros l y [<-|Hl] Hs Hx Hy.
        -- rewrite Ed in Hy. inversion Hy. subst y.
           destruct best; lia.
        -- eauto.
    + repeat split; auto.
      * destruct H1 as [H1|(l & Hl & H1)]; auto. right. exists l.
        split; auto. now right.
      * intros l y [<-|Hl] Hs Hx Hy; [|eauto].
        rewrite Hs, Hx, !Z.eqb_refl in Em. discriminate.
Qed.

(** [_get_fastest_laps] gives each driver that driver's own best lap. *)
Lemma fastest_laps_own_best db session_key x m :
  lookup_lap x (_get_fastest_laps db session_key) = Some m ->
  (exists lap, In lap (raw_laps db) /\ Lap.session_key lap = session_key /\
               Lap.driver_number lap = x /\ Lap.lap_duration lap = Some m)
  /\ (forall lap y, In lap (raw_laps db) ->
        Lap.session_key lap = session_key ->
        Lap.driver_number lap = x -> Lap.lap_duration lap = Some y -> m <= y).
Proof.
  unfold _get_fastest_laps. rewrite lookup_fastest_laps. simpl.
  intros H. apply own_best_least in H. destruct H as ([H|H] & _ & H3).
  - discriminate.
  - split; auto.
Qed.

Lemma filter_lookup_lap x groups :
  match filter (fun f => FastestLap.driver_number f =? x) groups with
  | f :: _ => Some (FastestLap.lap_duration f)
  | [] => None
  end = lookup_lap x groups.
Proof.
  induction groups as [|g groups IH]; simpl; auto.
  destruct (FastestLap.driver_number g =? x); auto.
Qed.

Lemma result_record_fastest_lap now year session drivers starting_grid
    fastest_laps penalties result rec :
  result_record now year session drivers starting_grid fastest_laps penalties
    result = Built rec ->
  GP.driver_number rec = SessionResult.driver_number result /\
  GP.fastest_lap rec
  = lookup_lap (SessionResult.driver_number result) fastest_laps.
Proof.
  built_record.
  cbn [GP.driver_number GP.fastest_lap]. split; auto.
  apply filter_lookup_lap.
Qed.

(** ** The fastest-lap bonus *)

(** C8 does not hold of the code, which contradicts its own comments
    ("F1 2019-2023 point system", [has_fastest_lap]): the [fastest_lap]
    of a record is the least timed lap of that record's own driver in
    the session, not the least of the field, and every driver classified
    in the first ten with a timed lap receives the point, whoever set
    the fastest lap of the field.  In the sample session driver 44, whose best lap
    (90.500 s) is slower than that of driver 1 (90.000 s), has
    18 + 1 points. *)
Theorem C8_bonus_to_every_timed_top_ten utcnow db year rec :
  In rec (grand_prix_results utcnow db year) ->
  (forall m,
      GP.fastest_lap rec = Some m ->
      exists session,
        In session (race_sessions db year) /\
        (exists lap,
            In lap (raw_laps db) /\
            Lap.session_key lap = Session.session_key session /\
            Lap.driver_number lap = GP.driver_number rec /\
            Lap.lap_duration lap = Some m) /\
        (forall lap y,
            In lap (raw_laps db) ->
            Lap.session_key lap = Session.session_key session ->
            Lap.driver_number lap = GP.driver_number rec ->
            Lap.lap_duration lap = Some y -> m <= y))
  /\ (forall p,
        GP.final_position rec = Some p -> p <= 10 ->
        is_some (GP.fastest_lap rec) = true ->
        GP.points rec
        = match points_system (Some p) with Some t => t | None => 0 end + 1).
Proof.
  intros H. split.
  - intros m Hm. apply grand_prix_results_In in H.
    destruct H as (now & session & result & Hs & _ & H).
    apply result_record_fastest_lap in H. destruct H as [Hd Hl].
    rewrite Hm in Hl. symmetry in Hl.
    apply fastest_laps_own_best in Hl. rewrite <- Hd in Hl.
    exists session. tauto.
  - intros p Hp Hle Hlap.
    apply grand_prix_results_points in H. rewrite H, Hp, Hlap.
    unfold table_points, opt_leb.
    assert (E : (p <=? 10) = true) by now apply Z.leb_le.
    now rewrite E.
Qed.

Lemma C8_witness :
  In (sample_result 44 "Driver B" "BBB" "Team Y" (Some 1) 2 19 90500 false
        1700000001)
     (grand_prix_results sample_clock (sample_db false false) 2023)
  /\ map GP.fastest_lap
       (grand_prix_results sample_clock (sample_db false false) 2023)
     = [Some 90000; Some 90500; Some 92000]
  /\ GP.points (sample_result 44 "Driver B" "BBB" "Team Y" (Some 1) 2 19 90500
                  false 1700000001) = 18 + 1.
Proof.
  split; [right; left; reflexivity|]. split; [reflexivity|].
  apply (proj2 (C8_bonus_to_every_timed_top_ten sample_clock
                  (sample_db false false) 2023 _
                  (or_intror (or_introl eq_refl))) 2).
  - reflexivity.
  - lia.
  - reflexivity.
Defined.

(** ** Penalties *)

(** The merge loop, given a frame of penalties, totals those of the
    driver. *)
Lemma result_record_total_penalty now year session drivers starting_grid
    fastest_laps penalties result rec :
  result_record now year session drivers starting_grid fastest_laps penalties
    result = Built rec ->
  GP.total_time_penalty rec
  = sum_Z (map Penalty.penalty_seconds
             (filter (fun p => Penalty.driver_number p
                               =? SessionResult.driver_number result)
                penalties)).
Proof. intros H. now apply result_record_points in H. Qed.

(** C9 does not hold of the code, which says so itself ("For now,
    return empty DataFrame"): [_get_penalties] reads nothing and returns
    the empty frame for every session, so the [total_time_penalty] of
    every built record is 0, whatever penalties the session had. *)
Theorem C9_total_time_penalty_always_zero utcnow db year rec :
  In rec (grand_prix_results utcnow db year) ->
  GP.total_time_penalty rec = 0.
Proof.
  intros H. apply grand_prix_results_In in H.
  destruct H as (now & session & result & _ & _ & H).
  apply result_record_total_penalty in H. exact H.
Qed.

Lemma C9_witness :
  In (sample_result 44 "Driver B" "BBB" "Team Y" (Some 1) 2 19 90500 false
        1700000001)
     (grand_prix_results sample_clock (sample_db false false) 2023)
  /\ GP.total_time_penalty
       (sample_result 44 "Driver B" "BBB" "Team Y" (Some 1) 2 19 90500 false
          1700000001) = 0.
Proof.
  split; [right; left; reflexivity|].
  apply (C9_total_time_penalty_always_zero sample_clock
           (sample_db false false) 2023).
  right; left; reflexivity.
Defined.

(** Handed the two penalties of driver 44, the merge loop records
    their sum; the points are those of the position and the lap. *)
Example merge_loop_sums_penalties :
  match
    result_record 0 2023
      (Session.mk 9001 1201 1 1 "Bahrain Grand Prix" "Sakhir")
      (_get_session_drivers (sample_db false false) 9001)
      (_get_starting_grid (sample_db false false) 9001)
      (_get_fastest_laps (sample_db false false) 9001)
      [Penalty.mk 44 5; Penalty.mk 1 3; Penalty.mk 44 10]
      (SessionResult.mk 44 (Num 2) None None None)
  with
  | Built rec => Some (GP.total_time_penalty rec, GP.points rec)
  | Raised | Skipped => None
  end = Some (15, 19).
Proof. reflexivity. Qed.

(** * Further properties of the code *)

(** ** The points calculator *)

Lemma points_system_outside p :
  p < 1 \/ 10 < p -> points_system (Some p) = None.
Proof.
  intros H. destruct p as [|q|q]; try reflexivity.
  unfold points_system.
  do 4 (try (destruct q as [q|q|]; try reflexivity; try lia)).
Qed.

Lemma position_cases p :
  1 <= p <= 10 ->
  p = 1 \/ p = 2 \/ p = 3 \/ p = 4 \/ p = 5 \/
  p = 6 \/ p = 7 \/ p = 8 \/ p = 9 \/ p = 10.
Proof. lia. Qed.

Ltac each_position H :=
  apply position_cases in H;
  destruct H as [->|[->|[->|[->|[->|[->|[->|[->|[->| ->]]]]]]]]].

Lemma table_points_bounds position : 0 <= table_points position <= 25.
Proof.
  destruct position as [p|]; [|unfold table_points; simpl; lia].
  destruct (Z_le_dec 1 p) as [H1|H1]; [destruct (Z_le_dec p 10) as [H2|H2]|].
  - assert (H : 1 <= p <= 10) by lia.
    each_position H; unfold table_points; simpl; lia.
  - unfold table_points. rewrite points_system_outside by lia. lia.
  - unfold table_points. rewrite points_system_outside by lia. lia.
Qed.

Lemma calculate_points_value position has_fastest_lap points :
  _calculate_points position has_fastest_lap = Some points ->
  points = table_points (cell_value position)
  \/ (points = table_points (cell_value position) + 1
      /\ exists p, position = Num p /\ p <= 10).
Proof.
  unfold _calculate_points. fold (table_points (cell_value position)).
  destruct has_fastest_lap.
  - destruct position as [p| |]; cbn [cell_leb bind]; try discriminate.
    + destruct (p <=? 10) eqn:E; intros H; inversion H; auto.
      right. split; auto. exists p. split; auto. now apply Z.leb_le.
    + intros H; inversion H; auto.
  - intros H; inversion H; auto.
Qed.

(** X1: [_calculate_points] raises exactly on a [None] position with
    the flag set; what it returns is between 0 and 26 points; a NaN
    position scores 0 whatever the flag, and a [None] position scores 0
    without the flag; and without the bonus the points strictly decrease
    from position 1 to position 10. *)
Theorem X1_calculate_points_range_and_order position has_fastest_lap :
  (_calculate_points position has_fastest_lap = None <->
   position = PyNone /\ has_fastest_lap = true)
  /\ (forall points,
        _calculate_points position has_fastest_lap = Some points ->
        0 <= points <= 26)
  /\ _calculate_points NaN has_fastest_lap = Some 0
  /\ _calculate_points PyNone false = Some 0
  /\ (forall p q,
        1 <= p -> p < q -> q <= 10 ->
        exists a b,
          _calculate_points (Num q) false = Some a /\
          _calculate_points (Num p) false = Some b /\ a < b).
Proof.
  split; [|split; [|split; [|split]]].
  - unfold _calculate_points.
    destruct has_fastest_lap, position as [p| |]; cbn [cell_leb bind];
      split; try discriminate; try tauto;
      intros [H1 H2]; discriminate.
  - intros points H. apply calculate_points_value in H.
    pose proof (table_points_bounds (cell_value position)) as B.
    destruct H as [-> | (-> & _)]; lia.
  - now destruct has_fastest_lap.
  - reflexivity.
  - intros p q Hp Hpq Hq.
    assert (H : 1 <= p <= 10) by lia. assert (H' : 1 <= q <= 10) by lia.
    each_position H; each_position H'; try lia;
      (eexists; eexists; split; [reflexivity|split; [reflexivity|]];
       vm_compute; reflexivity).
Qed.

Lemma X1_witness :
  _calculate_points (Num 2) true = Some 19 /\ 0 <= 19 <= 26.
Proof.
  split; [reflexivity|].
  apply (proj1 (proj2 (X1_calculate_points_range_and_order (Num 2) true)) 19).
  reflexivity.
Defined.

(** ** The record builder *)

(** X2: every record built has between 0 and 26 points; it has 0
    points when the final position is null, and exactly the points of
    the table when the driver has no timed lap. *)
Theorem X2_built_points_bounded utcnow db year rec :
  In rec (grand_prix_results utcnow db year) ->
  0 <= GP.points rec <= 26
  /\ (GP.final_position rec = None -> GP.points rec = 0)
  /\ (GP.fastest_lap rec = None ->
      GP.points rec = table_points (GP.final_position rec)).
Proof.
  intros H. apply grand_prix_results_points in H. rewrite H.
  split; [|split].
  - pose proof (table_points_bounds (GP.final_position rec)) as B.
    destruct (is_some (GP.fastest_lap rec)
              && opt_leb (GP.final_position rec) 10); lia.
  - intros ->. cbn [opt_leb]. rewrite andb_false_r. reflexivity.
  - intros ->. cbn [is_some andb]. lia.
Qed.

Lemma X2_witness :
  In (sample_result 44 "Driver B" "BBB" "Team Y" (Some 1) 2 19 90500 false
        1700000001)
     (grand_prix_results sample_clock (sample_db false false) 2023)
  /\ 0 <= 19 <= 26.
Proof.
  split; [right; left; reflexivity|].
  exact (proj1 (X2_built_points_bounded sample_clock (sample_db false false)
                  2023 _ (or_intror (or_introl eq_refl)))).
Defined.

Lemma in_roster_filter drivers x :
  in_roster drivers x = false <->
  filter (fun d => Driver.driver_number d =? x) drivers = [].
Proof.
  unfold in_roster. induction drivers as [|d drivers IH]; simpl.
  - tauto.
  - destruct (Driver.driver_number d =? x); simpl.
    + split; discriminate.
    + exact IH.
Qed.

Lemma in_roster_filter_cons drivers x d ds :
  filter (fun d => Driver.driver_number d =? x) drivers = d :: ds ->
  in_roster drivers x = true.
Proof.
  intros E. destruct (in_roster drivers x) eqn:R; auto.
  apply in_roster_filter in R. congruence.
Qed.

Lemma result_record_skipped now year session drivers starting_grid
    fastest_laps penalties result :
  result_record now year session drivers starting_grid fastest_laps penalties
    result = Skipped <->
  in_roster drivers (SessionResult.driver_number result) = false.
Proof.
  rewrite in_roster_filter. unfold result_record.
  destruct (filter _ drivers); [tauto|].
  match goal with
  | |- match ?m with _ => _ end = _ <-> _ => destruct m
  end; split; discriminate.
Qed.

Lemma result_record_raised now year session drivers starting_grid
    fastest_laps penalties result :
  result_record now year session drivers starting_grid fastest_laps penalties
    result = Raised <->
  raises_type_error drivers fastest_laps result = true.
Proof.
  unfold result_record, raises_type_error.
  destruct (filter _ drivers) as [|d ds] eqn:E.
  - apply in_roster_filter in E. rewrite E. split; discriminate.
  - apply in_roster_filter_cons in E. rewrite E. cbv zeta.
    rewrite filter_lookup_lap.
    destruct (lookup_lap (SessionResult.driver_number result) fastest_laps)
      as [m|];
      destruct (SessionResult.position result) as [z| |];
      cbn [cell_leb bind _calculate_points is_some andb];
      try (split; [discriminate|discriminate]);
      try (split; reflexivity).
    destruct (z <=? 10); cbn [cell_leb bind]; split; discriminate.
Qed.

Lemma result_record_key now year session drivers starting_grid fastest_laps
    penalties result rec :
  result_record now year session drivers starting_grid fastest_laps penalties
    result = Built rec ->
  (GP.driver_number rec, GP.final_position rec)
  = (SessionResult.driver_number result,
     cell_value (SessionResult.position result)).
Proof. built_record. reflexivity. Qed.

(** The loop over a classification raises when one of its turns does,
    and otherwise builds one record per rostered row. *)
Lemma merge_session_built utcnow year session drivers starting_grid
    fastest_laps penalties session_results : forall results,
  match merge_session utcnow year session drivers starting_grid fastest_laps
          penalties session_results results with
  | None =>
      existsb (raises_type_error drivers fastest_laps) session_results = true
  | Some out =>
      existsb (raises_type_error drivers fastest_laps) session_results = false
      /\ map built out
         = map built results
           ++ map classified
                (filter
                   (fun r => in_roster drivers (SessionResult.driver_number r))
                   session_results)
  end.
Proof.
  induction session_results as [|result rest IH]; intros results.
  - simpl. now rewrite app_nil_r.
  - cbn [merge_session filter existsb].
    destruct (result_record (utcnow (length results)) year session drivers
                starting_grid fastest_laps penalties result) as [| |rec] eqn:E.
    + apply result_record_raised in E. now rewrite E.
    + assert (F : raises_type_error drivers fastest_laps result = false).
      { destruct (raises_type_error drivers fastest_laps result) eqn:F; auto.
        apply result_record_raised with (now := utcnow (length results))
          (year := year) (session := session) (starting_grid := starting_grid)
          (penalties := penalties) in F.
        congruence. }
      apply result_record_skipped in E. rewrite E, F. apply IH.
    + assert (F : raises_type_error drivers fastest_laps result = false).
      { destruct (raises_type_error drivers fastest_laps result) eqn:F; auto.
        apply result_record_raised with (now := utcnow (length results))
          (year := year) (session := session) (starting_grid := starting_grid)
          (penalties := penalties) in F.
        congruence. }
      assert (R : in_roster drivers (SessionResult.driver_number result)
                  = true).
      { destruct (in_roster drivers (SessionResult.driver_number result))
          eqn:R; auto.
        apply result_record_skipped with (now := utcnow (length results))
          (year := year) (session := session) (starting_grid := starting_grid)
          (fastest_laps := fastest_laps) (penalties := penalties) in R.
        congruence. }
      rewrite R, F. cbn [orb]. specialize (IH (results ++ [rec])).
      destruct (merge_session utcnow year session drivers starting_grid
                  fastest_laps penalties rest (results ++ [rec])) as [out|];
        auto.
      destruct IH as [IH1 IH2]. split; auto.
      rewrite IH2, map_app, <- app_assoc. simpl.
      apply result_record_key in E. unfold built at 2, classified at 2.
      now rewrite E.
Qed.

Lemma merge_sessions_built utcnow db year sessions : forall results,
  match merge_sessions utcnow db year sessions results with
  | None => year_raises db sessions = true
  | Some out =>
      year_raises db sessions = false
      /\ map built out
         = map built results
           ++ concat
                (map (fun session =>
                        map classified
                          (filter
                             (fun r =>
                                in_roster
                                  (_get_session_drivers db
                                     (Session.session_key session))
                                  (SessionResult.driver_number r))
                             (_get_session_results db
                                (Session.session_key session))))
                   sessions)
  end.
Proof.
  induction sessions as [|session rest IH]; intros results.
  - simpl. now rewrite app_nil_r.
  - cbn [merge_sessions map concat year_raises existsb].
    fold (year_raises db rest).
    destruct (_get_session_results db (Session.session_key session))
      as [|sr srs] eqn:Esr.
    + cbn [existsb orb filter map app]. apply IH.
    + destruct (_get_session_drivers db (Session.session_key session))
        as [|dr drs] eqn:Edr.
      * assert (N : forall l,
          existsb
            (raises_type_error []
               (_get_fastest_laps db (Session.session_key session))) l
          = false).
        { induction l as [|x l IHl]; simpl; auto. }
        rewrite N. cbn [orb]. unfold in_roster. cbn [existsb].
        rewrite filter_none by reflexivity. cbn [map app]. apply IH.
      * pose proof (merge_session_built utcnow year session (dr :: drs)
                      (_get_starting_grid db (Session.session_key session))
                      (_get_fastest_laps db (Session.session_key session))
                      (_get_penalties db (Session.session_key session))
                      (sr :: srs) results) as M.
        destruct (merge_session utcnow year session (dr :: drs)
                    (_get_starting_grid db (Session.session_key session))
                    (_get_fastest_laps db (Session.session_key session))
                    (_get_penalties db (Session.session_key session))
                    (sr :: srs) results) as [mid|].
        -- destruct M as [M1 M2]. rewrite M1. cbn [bind orb].
           specialize (IH mid).
           destruct (merge_sessions utcnow db year rest mid) as [out|]; auto.
           destruct IH as [IH1 IH2]. split; auto.
           rewrite IH2, M2, <- app_assoc. reflexivity.
        -- rewrite M. reflexivity.
Qed.

Lemma year_raises_iff db sessions :
  year_raises db sessions = true <->
  exists session result,
    In session sessions /\
    In result (_get_session_results db (Session.session_key session)) /\
    in_roster (_get_session_drivers db (Session.session_key session))
      (SessionResult.driver_number result) = true /\
    SessionResult.position result = PyNone /\
    lookup_lap (SessionResult.driver_number result)
      (_get_fastest_laps db (Session.session_key session)) <> None.
Proof.
  unfold year_raises. rewrite existsb_exists. split.
  - intros (session & Hs & H). apply existsb_exists in H.
    destruct H as (result & Hr & H). exists session, result.
    unfold raises_type_error in H.
    apply andb_true_iff in H. destruct H as [H H3].
    apply andb_true_iff in H. destruct H as [H1 H2].
    repeat split; auto.
    + now destruct (SessionResult.position result).
    + intros N. rewrite N in H3. discriminate.
  - intros (session & result & Hs & Hr & H1 & H2 & H3).
    exists session. split; auto. apply existsb_exists.
    exists result. split; auto. unfold raises_type_error.
    rewrite H1, H2.
    destruct (lookup_lap _ _); [reflexivity | congruence].
Qed.

(** X3: the two loops raise exactly when some classification row of a
    race session of the year has a [None] position while its driver is
    in the roster of the session and has a timed lap; the function then
    returns the empty frame.  Otherwise the built records are, session
    after session and in the order of the classification, exactly the
    classification rows whose driver is in the roster of the session,
    each with its driver number and final position; a driver missing
    from the roster is left out and nothing else is, duplicates
    included. *)
Theorem X3_one_record_per_rostered_row utcnow db year :
  (built_results utcnow db year = None <->
   exists session result,
     In session (race_sessions db year) /\
     In result (_get_session_results db (Session.session_key session)) /\
     in_roster (_get_session_drivers db (Session.session_key session))
       (SessionResult.driver_number result) = true /\
     SessionResult.position result = PyNone /\
     lookup_lap (SessionResult.driver_number result)
       (_get_fastest_laps db (Session.session_key session)) <> None)
  /\ (built_results utcnow db year = None ->
      grand_prix_results utcnow db year = [])
  /\ (forall results,
        built_results utcnow db year = Some results ->
        grand_prix_results utcnow db year = results /\
        map built results
        = concat
            (map (fun session =>
                    map classified
                      (filter
                         (fun r =>
                            in_roster
                              (_get_session_drivers db
                                 (Session.session_key session))
                              (SessionResult.driver_number r))
                         (_get_session_results db
                            (Session.session_key session))))
               (race_sessions db year))).
Proof.
  unfold grand_prix_results, built_results.
  pose proof (merge_sessions_built utcnow db year (race_sessions db year) [])
    as M.
  rewrite <- year_raises_iff.
  destruct (merge_sessions utcnow db year (race_sessions db year) [])
    as [out|].
  - destruct M as [M1 M2]. split; [|split].
    + rewrite M1. split; discriminate.
    + discriminate.
    + intros results E. inversion E; subst results. split; auto.
  - split; [|split].
    + tauto.
    + reflexivity.
    + discriminate.
Qed.

Lemma X3_witness :
  built_results sample_clock unclassified_db 2023 = None
  /\ grand_prix_results sample_clock unclassified_db 2023 = []
  /\ map built (grand_prix_results sample_clock (sample_db false false) 2023)
     = [(1, Some 1); (44, Some 2); (16, Some 11)].
Proof.
  split; [reflexivity|]. split.
  - apply (proj1 (proj2 (X3_one_record_per_rostered_row sample_clock
                           unclassified_db 2023))).
    reflexivity.
  - destruct (proj2 (proj2 (X3_one_record_per_rostered_row sample_clock
                              (sample_db false false) 2023))
                _ eq_refl) as [_ E].
    exact E.
Defined.

Lemma own_best_some session_key x laps : forall b,
  own_best session_key x laps (Some b) <> None.
Proof.
  unfold own_best. induction laps as [|lap laps IH]; intros b; simpl.
  - discriminate.
  - destruct (Lap.lap_duration lap) as [d|]; auto.
    destruct ((Lap.session_key lap =? session_key)
              && (Lap.driver_number lap =? x)); auto.
Qed.

Lemma own_best_none session_key x laps :
  own_best session_key x laps None = None <->
  forall lap, In lap laps -> Lap.session_key lap = session_key ->
              Lap.driver_number lap = x -> Lap.lap_duration lap = None.
Proof.
  induction laps as [|lap laps IH].
  - simpl. split; auto. intros _ lap [].
  - unfold own_best in *. simpl.
    destruct (Lap.lap_duration lap) as [d|] eqn:Ed.
    + destruct ((Lap.session_key lap =? session_key)
                && (Lap.driver_number lap =? x)) eqn:Em.
      * apply andb_true_iff in Em. destruct Em as [Es Ex].
        apply Z.eqb_eq in Es, Ex. split.
        -- intros H. now apply own_best_some in H.
        -- intros H. specialize (H lap (or_introl eq_refl) Es Ex). congruence.
      * rewrite IH. split.
        -- intros H l [<-|Hl] Hs Hx; [|auto].
           rewrite Hs, Hx, !Z.eqb_refl in Em. discriminate.
        -- intros H l Hl. apply H. now right.
    + rewrite IH. split.
      * intros H l [<-|Hl] Hs Hx; auto.
      * intros H l Hl. apply H. now right.
Qed.

Lemma lookup_lap_In x groups :
  In x (map FastestLap.driver_number groups) <->
  exists m, lookup_lap x groups = Some m.
Proof.
  induction groups as [|g groups IH]; simpl.
  - split; [tauto | intros [m H]; discriminate].
  - destruct (FastestLap.driver_number g =? x) eqn:E.
    + apply Z.eqb_eq in E. split; eauto.
    + apply Z.eqb_neq in E. rewrite <- IH. tauto.
Qed.

Lemma lookup_lap_NoDup groups f :
  NoDup (map FastestLap.driver_number groups) -> In f groups ->
  lookup_lap (FastestLap.driver_number f) groups
  = Some (FastestLap.lap_duration f).
Proof.
  induction groups as [|g groups IH]; simpl; [tauto|].
  intros ND [<-|H].
  - now rewrite Z.eqb_refl.
  - inversion ND as [|? ? Hn ND']; subst.
    destruct (FastestLap.driver_number g =? FastestLap.driver_number f) eqn:E.
    + apply Z.eqb_eq in E. exfalso. apply Hn. rewrite E. now apply in_map.
    + auto.
Qed.

Lemma group_min_drivers driver_number d groups :
  map FastestLap.driver_number (group_min driver_number d groups)
  = if memb driver_number (map FastestLap.driver_number groups)
    then map FastestLap.driver_number groups
    else map FastestLap.driver_number groups ++ [driver_number].
Proof.
  induction groups as [|g groups IH]; simpl; auto.
  unfold memb in *. simpl.
  rewrite (Z.eqb_sym driver_number (FastestLap.driver_number g)).
  destruct (FastestLap.driver_number g =? driver_number) eqn:E; simpl.
  - apply Z.eqb_eq in E. now rewrite E.
  - rewrite IH.
    now destruct (existsb (Z.eqb driver_number)
                    (map FastestLap.driver_number groups)).
Qed.

Lemma fastest_laps_NoDup db session_key :
  NoDup (map FastestLap.driver_number (_get_fastest_laps db session_key)).
Proof.
  unfold _get_fastest_laps.
  assert (G : forall laps groups,
    NoDup (map FastestLap.driver_number groups) ->
    NoDup (map FastestLap.driver_number
             (fold_left
                (fun groups lap =>
                   match Lap.lap_duration lap with
                   | Some d =>
                       if Lap.session_key lap =? session_key
                       then group_min (Lap.driver_number lap) d groups
                       else groups
                   | None => groups
                   end) laps groups))).
  { induction laps as [|lap laps IH]; intros groups ND; simpl; auto.
    apply IH. destruct (Lap.lap_duration lap) as [d|]; auto.
    destruct (Lap.session_key lap =? session_key); auto.
    rewrite group_min_drivers.
    destruct (memb (Lap.driver_number lap)
                (map FastestLap.driver_number groups)) eqn:M; auto.
    apply memb_not_In in M. apply NoDup_app; auto.
    - repeat constructor. simpl. tauto.
    - intros y Hy [<-|[]]. tauto. }
  apply G. constructor.
Qed.

(** X4: the frame of [_get_fastest_laps] has one row per driver; a
    driver has a row exactly when one of the driver's laps of the
    session is timed; and the row holds the least of those laps. *)
Theorem X4_fastest_laps_one_row_per_timed_driver db session_key :
  let frame := _get_fastest_laps db session_key in
  NoDup (map FastestLap.driver_number frame)
  /\ (forall x,
        In x (map FastestLap.driver_number frame) <->
        exists lap d,
          In lap (raw_laps db) /\ Lap.session_key lap = session_key /\
          Lap.driver_number lap = x /\ Lap.lap_duration lap = Some d)
  /\ (forall f lap d,
        In f frame -> In lap (raw_laps db) ->
        Lap.session_key lap = session_key ->
        Lap.driver_number lap = FastestLap.driver_number f ->
        Lap.lap_duration lap = Some d ->
        FastestLap.lap_duration f <= d).
Proof.
  intros frame. subst frame.
  pose proof (fastest_laps_NoDup db session_key) as ND.
  split; [exact ND|]. split.
  - intros x. rewrite lookup_lap_In. split.
    + intros [m H]. apply fastest_laps_own_best in H.
      destruct H as [(lap & H) _]. exists lap, m. exact H.
    + intros (lap & d & Hin & Hs & Hx & Hd).
      destruct (lookup_lap x (_get_fastest_laps db session_key)) as [m|] eqn:E;
        eauto.
      exfalso. unfold _get_fastest_laps in E.
      rewrite lookup_fastest_laps in E. simpl in E.
      rewrite own_best_none in E. specialize (E lap Hin Hs Hx). congruence.
  - intros f lap d Hf Hin Hs Hx Hd.
    pose proof (lookup_lap_NoDup _ f ND Hf) as L.
    apply fastest_laps_own_best in L. destruct L as [_ L]. eauto.
Qed.

Lemma X4_witness :
  In (FastestLap.mk 1 90000) (_get_fastest_laps (sample_db false false) 9001)
  /\ In (Lap.mk 9001 1 (Some 91000)) (raw_laps (sample_db false false))
  /\ 90000 <= 91000.
Proof.
  split; [left; reflexivity|]. split; [left; reflexivity|].
  exact (proj2 (proj2
    (X4_fastest_laps_one_row_per_timed_driver (sample_db false false) 9001))
    (FastestLap.mk 1 90000) (Lap.mk 9001 1 (Some 91000)) 91000
    (or_introl eq_refl) (or_introl eq_refl) eq_refl eq_refl eq_refl).
Defined.

Lemma result_record_grid now year session drivers starting_grid fastest_laps
    penalties result rec :
  result_record now year session drivers starting_grid fastest_laps penalties
    result = Built rec ->
  GP.starting_grid_position rec
  = match find (fun g => Grid.driver_number g
                         =? SessionResult.driver_number result)
            starting_grid with
    | Some g => Grid.position g
    | None => None
    end.
Proof.
  built_record.
  cbn [GP.starting_grid_position].
  induction starting_grid as [|g grid IH]; simpl; auto.
  destruct (Grid.driver_number g =? SessionResult.driver_number result); auto.
Qed.

(** X5: missing data stays null in a built record.  A driver with no
    row in the starting grid of the session has a null starting
    position, and a driver has a null fastest lap exactly when none of
    the driver's laps of the session is timed. *)
Theorem X5_missing_grid_and_laps_stay_null utcnow db year rec :
  In rec (grand_prix_results utcnow db year) ->
  exists session,
    In session (race_sessions db year) /\
    ((forall g,
         In g (_get_starting_grid db (Session.session_key session)) ->
         Grid.driver_number g <> GP.driver_number rec) ->
     GP.starting_grid_position rec = None) /\
    (GP.fastest_lap rec = None <->
     forall lap,
       In lap (raw_laps db) ->
       Lap.session_key lap = Session.session_key session ->
       Lap.driver_number lap = GP.driver_number rec ->
       Lap.lap_duration lap = None).
Proof.
  intros H. apply grand_prix_results_In in H.
  destruct H as (now & session & result & Hs & _ & H).
  exists session. split; auto.
  pose proof (result_record_fastest_lap _ _ _ _ _ _ _ _ _ H) as [Hd Hl].
  split.
  - intros Hg. rewrite (result_record_grid _ _ _ _ _ _ _ _ _ H).
    destruct (find _ _) as [g|] eqn:F; auto.
    apply find_some in F. destruct F as [Hin E].
    apply Z.eqb_eq in E. exfalso. apply (Hg g Hin). congruence.
  - rewrite Hl, Hd. unfold _get_fastest_laps.
    rewrite lookup_fastest_laps. simpl. apply own_best_none.
Qed.

Lemma X5_witness :
  In (sample_result 16 "Driver C" "CCC" "Team W" None 11 0 92000 false
        1700000002)
     (grand_prix_results sample_clock (sample_db false false) 2023)
  /\ exists session, In session (race_sessions (sample_db false false) 2023).
Proof.
  split; [do 2 right; left; reflexivity|].
  destruct (X5_missing_grid_and_laps_stay_null sample_clock
              (sample_db false false) 2023 _
              (or_intror (or_intror (or_introl eq_refl))))
    as (session & Hs & _).
  exists session. exact Hs.
Defined.

(** ** Shape of the standings frame *)

Lemma races_of_nonempty r results : races_of (r :: results) <> [].
Proof.
  intros E.
  assert (H : In (key_of r) (races_of (r :: results))).
  { apply races_of_In. now left. }
  rewrite E in H. destruct H.
Qed.

Lemma race_results_nonempty results race :
  In race (races_of results) -> race_results_of results race <> [].
Proof.
  intros H E. apply races_of_In, in_map_iff in H.
  destruct H as (r & <- & Hr).
  assert (Hin : In r (race_results_of results (key_of r))).
  { apply filter_In. split; auto. now apply key_eqb_eq. }
  rewrite E in Hin. destruct Hin.
Qed.

Lemma snapshot_after_valid utcnow year results i race :
  nth_error (races_of results) i = Some race ->
  exists n,
    snapshot_after (transform_championship_standings utcnow year results) (S i)
    = snapshot utcnow n year i race
        (ranking results race
           (add_all [] (rows_of_races results
                          (firstn (S i) (races_of results))))).
Proof.
  intros Hr.
  destruct (snapshot_after_rounds utcnow year results _ 0%nat [] 0%nat
              i race Hr) as [n E].
  exists n. change (0 + i)%nat with i in E. rewrite Nat.add_1_r in E.
  now rewrite transform_championship_standings_rounds.
Qed.

Lemma ranking_length results race cp :
  length (ranking results race cp) = length cp.
Proof. unfold ranking. now rewrite sort_standings_length, length_map. Qed.

(** The rounds that have records are those of the races of
    [groupby]. *)
Lemma snapshot_nonempty utcnow year results R :
  (snapshot_after (transform_championship_standings utcnow year results) R
   <> []
   <-> (1 <= R <= length (races_of results))%nat)
  /\ (results <> [] -> (1 <= length (races_of results))%nat).
Proof.
  split.
  - split.
    + intros H.
      destruct (snapshot_after_cases utcnow year results R)
        as [E | (i & race & n & -> & Hr & E)]; [congruence|].
      assert (i < length (races_of results))%nat; [|lia].
      apply nth_error_Some. congruence.
    + intros [H1 H2]. destruct R as [|i]; [lia|].
      destruct (nth_error (races_of results) i) as [race|] eqn:Hr.
      2:{ apply nth_error_None in Hr. lia. }
      destruct (snapshot_after_valid utcnow year results i race Hr) as [n E].
      rewrite E. intros E0. apply (f_equal (@length _)) in E0.
      rewrite snapshot_length, ranking_length, add_all_nil, length_map in E0.
      apply length_zero_iff_nil in E0.
      assert (Hrace : In race (firstn (S i) (races_of results))).
      { rewrite (firstn_S_nth _ _ _ Hr). apply in_or_app. right. now left. }
      assert (Hin : In race (races_of results))
        by (eapply nth_error_In; eauto).
      destruct (race_results_of results race) as [|r rs] eqn:Err.
      { now apply race_results_nonempty in Err. }
      assert (Hr0 : In r (rows_of_races results
                            (firstn (S i) (races_of results)))).
      { apply rows_of_races_In.
        assert (Hrr : In r (race_results_of results race))
          by (rewrite Err; now left).
        apply filter_In in Hrr. destruct Hrr as [Hrr Ek].
        apply key_eqb_eq in Ek. split; auto. now rewrite Ek. }
      assert (Hd : In (GP.driver_number r)
                     (drivers_seen (rows_of_races results
                                      (firstn (S i) (races_of results)))))
        by (apply drivers_seen_In; now apply in_map).
      rewrite E0 in Hd. destruct Hd.
  - intros H. destruct results as [|r results]; [congruence|].
    pose proof (races_of_nonempty r results).
    destruct (races_of (r :: results)); [congruence | simpl; lia].
Qed.

(** X6: the standings frame has a snapshot for every race and for
    nothing else.  Let [keys] list, each once, the pairs of a date and
    a grand prix that the rows carry: the records of round [R] are
    non-empty exactly when [R] is between 1 and the number of these
    pairs, and there is at least one round when there are rows. *)
Theorem X6_one_snapshot_per_race utcnow year results keys R :
  NoDup keys ->
  (forall date grand_prix,
      In (date, grand_prix) keys <->
      exists r, In r results /\ GP.date r = date /\ GP.grand_prix r = grand_prix)
  ->
  (snapshot_after (transform_championship_standings utcnow year results) R
   <> []
   <-> (1 <= R <= length keys)%nat)
  /\ (results <> [] -> (1 <= length keys)%nat).
Proof.
  intros ND Hin.
  assert (L : length keys = length (races_of results)).
  { apply Permutation_length, NoDup_Permutation; auto.
    - apply key_sorted_NoDup, races_of_sorted.
    - intros [date grand_prix].
      destruct (season_calendar_races_of results) as [_ Hin'].
      now rewrite Hin, Hin'. }
  rewrite L. apply snapshot_nonempty.
Qed.

Lemma X6_witness :
  NoDup [(2, "Jeddah"%string); (1, "Bahrain"%string)]
  /\ snapshot_after
       (transform_championship_standings sample_clock 2023 sample_results) 2
     <> []
  /\ snapshot_after
       (transform_championship_standings sample_clock 2023 sample_results) 3
     = [].
Proof.
  assert (ND : NoDup [(2, "Jeddah"%string); (1, "Bahrain"%string)]).
  { repeat constructor; simpl; intuition discriminate. }
  assert (K : forall date grand_prix,
    In (date, grand_prix) [(2, "Jeddah"%string); (1, "Bahrain"%string)] <->
    exists r, In r sample_results /\ GP.date r = date
              /\ GP.grand_prix r = grand_prix).
  { intros date grand_prix.
    destruct sample_calendar as [_ H]. rewrite <- H. simpl. tauto. }
  split; [exact ND|]. split.
  - apply (proj1 (X6_one_snapshot_per_race sample_clock 2023 sample_results
                    _ 2 ND K)).
    simpl. lia.
  - reflexivity.
Defined.

(** ** The key of a standings row *)

Lemma add_all_NoDup rows : forall cp,
  NoDup (map fst cp) -> NoDup (map fst (add_all cp rows)).
Proof.
  induction rows as [|r rows IH]; intros cp ND; auto.
  apply IH. now apply dict_add_NoDup.
Qed.

Lemma emitted_year_id utcnow year race_idx race rs todo : forall n s,
  In s (emitted utcnow n year race_idx race rs todo) ->
  Standing.standing_id s
  = make_standing_id year (Standing.race_round s) (Standing.driver_number s).
Proof.
  induction todo as [|[position e] todo IH]; simpl; [tauto|].
  intros n s [<-|H]; eauto.
Qed.

Lemma rounds_keys_NoDup utcnow year results races : forall k cp n,
  NoDup (map fst cp) ->
  NoDup (map standing_key
           (rounds utcnow year results (enumerate k races) cp n)).
Proof.
  induction races as [|race races IH]; intros k cp n ND; [constructor|].
  rewrite enumerate_cons. cbn [rounds]. rewrite map_app.
  apply NoDup_app.
  - apply (NoDup_map_inv snd). rewrite map_map.
    change (fun x => snd (standing_key x)) with Standing.driver_number.
    rewrite snapshot_drivers.
    apply (Permutation_NoDup (Permutation_sym (ranking_drivers _ _ _))).
    now apply add_all_NoDup.
  - apply IH. now apply add_all_NoDup.
  - intros x H1 H2. apply in_map_iff in H1, H2.
    destruct H1 as (s1 & <- & H1). destruct H2 as (s2 & E & H2).
    apply emitted_round in H1. apply rounds_round_range in H2.
    unfold standing_key in E. inversion E. lia.
Qed.

Lemma rounds_standing_id utcnow year results races : forall cp n s,
  In s (rounds utcnow year results races cp n) ->
  Standing.standing_id s
  = make_standing_id year (Standing.race_round s) (Standing.driver_number s).
Proof.
  induction races as [|[race_idx race] races IH]; intros cp n s; [intros []|].
  cbn [rounds]. intros H. apply in_app_or in H. destruct H as [H|H].
  - now apply emitted_year_id in H.
  - eauto.
Qed.

Lemma digits_no_underscore d :
  has_underscore (NilEmpty.string_of_uint d) = false.
Proof. induction d; simpl; auto. Qed.

Lemma str_of_Z_no_underscore z : has_underscore (str_of_Z z) = false.
Proof.
  unfold str_of_Z, NilZero.string_of_int, NilZero.string_of_uint.
  destruct (Z.to_int z) as [d|d]; destruct d; simpl; auto;
    apply digits_no_underscore.
Qed.

Lemma str_of_Z_inj a b : str_of_Z a = str_of_Z b -> a = b.
Proof.
  unfold str_of_Z. intros H. apply DecimalZ.to_int_inj.
  assert (N : forall z, Z.to_int z <> Decimal.Pos Decimal.Nil
                        /\ Z.to_int z <> Decimal.Neg Decimal.Nil).
  { intros [|p|p]; simpl; split; try discriminate;
      intros E; inversion E as [E'];
      now apply DecimalPos.Unsigned.to_uint_nonnil in E'. }
  apply (f_equal NilZero.int_of_string) in H.
  rewrite !NilZero.isi in H by apply N. now inversion H.
Qed.

Lemma split_underscore a : forall b x y,
  has_underscore a = false -> has_underscore b = false ->
  (a ++ "_" ++ x = b ++ "_" ++ y)%string -> a = b /\ x = y.
Proof.
  induction a as [|c a IH]; intros [|c' b] x y Ha Hb E; simpl in *.
  - inversion E. auto.
  - inversion E; subst. simpl in Hb. discriminate.
  - inversion E; subst. simpl in Ha. discriminate.
  - inversion E; subst.
    apply orb_false_iff in Ha, Hb.
    destruct (IH b x y) as [-> ->]; tauto.
Qed.

Lemma make_standing_id_inj year r1 d1 r2 d2 :
  make_standing_id year r1 d1 = make_standing_id year r2 d2 ->
  (r1, d1) = (r2, d2).
Proof.
  unfold make_standing_id. intros E.
  apply split_underscore in E; try apply str_of_Z_no_underscore.
  destruct E as [_ E].
  apply split_underscore in E; try apply str_of_Z_no_underscore.
  destruct E as [E1 E2].
  apply str_of_Z_inj in E1, E2. apply Nat2Z.inj in E1. congruence.
Qed.

Lemma NoDup_map_injective {A B} (f : A -> B) l :
  NoDup l -> (forall x y, In x l -> In y l -> f x = f y -> x = y) ->
  NoDup (map f l).
Proof.
  induction 1 as [|a l Ha ND IH]; intros Hinj; simpl; constructor.
  - intros H. apply in_map_iff in H. destruct H as (y & E & Hy).
    assert (y = a) by (apply Hinj; simpl; auto). subst. contradiction.
  - apply IH. intros x y Hx Hy. apply Hinj; simpl; auto.
Qed.

(** X7: no two rows of the standings frame have the same round and
    driver, and no two have the same [standing_id]: the primary key of
    the table is never repeated within one frame. *)
Theorem X7_standing_id_unique utcnow year results :
  let out := transform_championship_standings utcnow year results in
  NoDup (map standing_key out) /\ NoDup (map Standing.standing_id out).
Proof.
  intros out. subst out. rewrite transform_championship_standings_rounds.
  assert (K : NoDup (map standing_key
                       (rounds utcnow year results
                          (enumerate 0 (races_of results)) [] 0)))
    by (apply rounds_keys_NoDup; constructor).
  split; [exact K|].
  apply NoDup_map_injective.
  - now apply NoDup_map_inv in K.
  - intros s1 s2 H1 H2 E.
    rewrite (rounds_standing_id _ _ _ _ _ _ _ H1) in E.
    rewrite (rounds_standing_id _ _ _ _ _ _ _ H2) in E.
    apply make_standing_id_inj in E.
    assert (Hk : standing_key s1 = standing_key s2) by exact E.
    clear E. revert s1 s2 H1 H2 Hk.
    generalize (rounds utcnow year results (enumerate 0 (races_of results))
                  [] 0) K.
    induction l as [|a l IH]; intros ND s1 s2 H1 H2 Hk; [destruct H1|].
    simpl in ND. inversion ND as [|? ? Hn ND']; subst.
    destruct H1 as [<-|H1], H2 as [<-|H2]; auto.
    + exfalso. apply Hn. rewrite Hk. now apply in_map.
    + exfalso. apply Hn. rewrite <- Hk. now apply in_map.
Qed.

(** ** Drivers stay in the table *)

Lemma snapshot_valid_drivers utcnow year results i race d :
  nth_error (races_of results) i = Some race ->
  (In d (map Standing.driver_number
           (snapshot_after
              (transform_championship_standings utcnow year results) (S i)))
   <-> In d (map GP.driver_number
               (rows_of_races results (firstn (S i) (races_of results))))).
Proof.
  intros Hr. destruct (snapshot_after_valid utcnow year results i race Hr)
    as [n E].
  rewrite E, snapshot_drivers. rewrite <- drivers_seen_In.
  rewrite <- add_all_nil_keys. split; intros H.
  - now apply (Permutation_in _ (ranking_drivers results race _)).
  - now apply (Permutation_in _ (Permutation_sym
                                   (ranking_drivers results race _))).
Qed.

Lemma snapshot_valid_NoDup utcnow year results i race :
  nth_error (races_of results) i = Some race ->
  NoDup (map Standing.driver_number
           (snapshot_after
              (transform_championship_standings utcnow year results) (S i))).
Proof.
  intros Hr. destruct (snapshot_after_valid utcnow year results i race Hr)
    as [n E].
  rewrite E, snapshot_drivers.
  apply (Permutation_NoDup (Permutation_sym (ranking_drivers _ _ _))).
  rewrite add_all_nil_keys. apply distinct_NoDup.
Qed.

(** X8: a driver once in the table stays in it: every driver of the
    snapshot of round [R] is in the snapshot of every later round of the
    season, so the number of ranked drivers never decreases. *)
Theorem X8_drivers_never_leave utcnow year results R R' :
  let out := transform_championship_standings utcnow year results in
  (R <= R' <= length (races_of results))%nat ->
  incl (map Standing.driver_number (snapshot_after out R))
       (map Standing.driver_number (snapshot_after out R'))
  /\ (length (snapshot_after out R) <= length (snapshot_after out R'))%nat.
Proof.
  intros out [H1 H2].
  assert (I : incl (map Standing.driver_number (snapshot_after out R))
                   (map Standing.driver_number (snapshot_after out R'))).
  { intros d Hd. subst out.
    destruct (snapshot_after_cases utcnow year results R)
      as [E | (i & race & n & -> & Hr & E)].
    { rewrite E in Hd. destruct Hd. }
    destruct R' as [|j]; [lia|].
    destruct (nth_error (races_of results) j) as [race'|] eqn:Hr'.
    2:{ apply nth_error_None in Hr'. lia. }
    apply (snapshot_valid_drivers _ _ _ _ _ _ Hr').
    apply (snapshot_valid_drivers _ _ _ _ _ _ Hr) in Hd.
    apply in_map_iff in Hd. destruct Hd as (r & <- & Hd). apply in_map.
    apply rows_of_races_In in Hd. apply rows_of_races_In.
    split; [tauto|]. destruct Hd as [_ Hd].
    destruct (firstn_le_app (races_of results) (S i) (S j) H1) as [rest ->].
    apply in_or_app. now left. }
  split; auto.
  rewrite <- (length_map Standing.driver_number (snapshot_after out R)).
  rewrite <- (length_map Standing.driver_number (snapshot_after out R')).
  apply NoDup_incl_length; auto. subst out.
  destruct (snapshot_after_cases utcnow year results R)
    as [E | (i & race & n & -> & Hr & E)].
  - rewrite E. constructor.
  - now apply (snapshot_valid_NoDup _ _ _ _ race).
Qed.

Lemma X8_witness :
  (1 <= 2 <= length (races_of sample_results))%nat
  /\ (length (snapshot_after
                (transform_championship_standings sample_clock 2023
                   sample_results) 1)
      <= length (snapshot_after
                   (transform_championship_standings sample_clock 2023
                      sample_results) 2))%nat.
Proof.
  assert (H : (1 <= 2 <= length (races_of sample_results))%nat)
    by (simpl; lia).
  split; [exact H|].
  exact (proj2 (X8_drivers_never_leave sample_clock 2023 sample_results 1 2 H)).
Defined.

(** ** Wins, podiums and points finishes *)

Lemma filter_length_le {A} (f g : A -> bool) l :
  (forall x, In x l -> f x = true -> g x = true) ->
  (length (filter f l) <= length (filter g l))%nat.
Proof.
  induction l as [|x l IH]; intros H; simpl; auto.
  assert (IH' := IH (fun y Hy => H y (or_intror Hy))).
  destruct (f x) eqn:E.
  - rewrite (H x (or_introl eq_refl) E). simpl. lia.
  - destruct (g x); simpl; lia.
Qed.

Lemma snapshot_valid_In utcnow year results i race s :
  nth_error (races_of results) i = Some race ->
  In s (snapshot_after (transform_championship_standings utcnow year results)
          (S i)) ->
  exists now position d t rs,
    s = record_of now year i race rs position
          (entry_of results race (d, t)).
Proof.
  intros Hr H. destruct (snapshot_after_valid utcnow year results i race Hr)
    as [n E].
  rewrite E in H. apply snapshot_In in H.
  destruct H as (now & position & d & _ & ->). eauto 10.
Qed.

(** X9: in the snapshot after a race, a driver's wins, podiums and
    points finishes are the numbers of the driver's rows dated up to the
    date of that race (whatever their race) with final position 1, with
    final position at most 3, and with positive points; wins never
    exceed podiums, and none of the three decreases from a round to a
    later one. *)
Theorem X9_counts_by_date utcnow year results i race s :
  let out := transform_championship_standings utcnow year results in
  nth_error (races_of results) i = Some race ->
  In s (snapshot_after out (S i)) ->
  let rows :=
    driver_results_upto results (Standing.driver_number s) (fst race) in
  Standing.wins s
  = length (filter (fun r => opt_eqb (GP.final_position r) 1) rows)
  /\ Standing.podiums s
     = length (filter (fun r => opt_leb (GP.final_position r) 3) rows)
  /\ Standing.points_finishes s
     = length (filter (fun r => 0 <? GP.points r) rows)
  /\ (Standing.wins s <= Standing.podiums s)%nat
  /\ (forall j race' s',
        (i <= j)%nat -> nth_error (races_of results) j = Some race' ->
        In s' (snapshot_after out (S j)) ->
        Standing.driver_number s' = Standing.driver_number s ->
        (Standing.wins s <= Standing.wins s')%nat /\
        (Standing.podiums s <= Standing.podiums s')%nat /\
        (Standing.points_finishes s <= Standing.points_finishes s')%nat).
Proof.
  intros out Hr Hs rows. subst out rows.
  destruct (snapshot_valid_In _ _ _ _ _ _ Hr Hs)
    as (now & position & d & t & rs & ->).
  cbn [Standing.wins Standing.podiums Standing.points_finishes
       Standing.driver_number record_of entry_of Entry.wins Entry.podiums
       Entry.points_finishes Entry.driver_number fst].
  repeat split.
  - apply filter_length_le. intros r _ H.
    destruct (GP.final_position r) as [p|]; simpl in *; [|discriminate].
    apply Z.eqb_eq in H. apply Z.leb_le. lia.
  - destruct (snapshot_valid_In _ _ _ _ _ _ H0 H1)
      as (now' & position' & d' & t' & rs' & ->).
    cbn [Standing.wins Standing.driver_number record_of entry_of Entry.wins
         Entry.driver_number fst] in *. subst d'.
    unfold driver_results_upto. rewrite !filter_filter.
    apply filter_length_le. intros r _ Hf.
    apply andb_true_iff in Hf. destruct Hf as [Hf ->].
    apply andb_true_iff in Hf. destruct Hf as [-> Hf].
    simpl. rewrite andb_true_r. apply Z.leb_le. apply Z.leb_le in Hf.
    assert (fst race <= fst race'); [|lia].
    destruct (Nat.eq_dec i j) as [->|N]; [rewrite Hr in H0; inversion H0; lia|].
    apply (races_of_chronological results i j); auto. lia.
  - destruct (snapshot_valid_In _ _ _ _ _ _ H0 H1)
      as (now' & position' & d' & t' & rs' & ->).
    cbn [Standing.podiums Standing.driver_number record_of entry_of
         Entry.podiums Entry.driver_number fst] in *. subst d'.
    unfold driver_results_upto. rewrite !filter_filter.
    apply filter_length_le. intros r _ Hf.
    apply andb_true_iff in Hf. destruct Hf as [Hf ->].
    apply andb_true_iff in Hf. destruct Hf as [-> Hf].
    simpl. rewrite andb_true_r. apply Z.leb_le. apply Z.leb_le in Hf.
    assert (fst race <= fst race'); [|lia].
    destruct (Nat.eq_dec i j) as [->|N]; [rewrite Hr in H0; inversion H0; lia|].
    apply (races_of_chronological results i j); auto. lia.
  - destruct (snapshot_valid_In _ _ _ _ _ _ H0 H1)
      as (now' & position' & d' & t' & rs' & ->).
    cbn [Standing.points_finishes Standing.driver_number record_of entry_of
         Entry.points_finishes Entry.driver_number fst] in *. subst d'.
    unfold driver_results_upto. rewrite !filter_filter.
    apply filter_length_le. intros r _ Hf.
    apply andb_true_iff in Hf. destruct Hf as [Hf ->].
    apply andb_true_iff in Hf. destruct Hf as [-> Hf].
    simpl. rewrite andb_true_r. apply Z.leb_le. apply Z.leb_le in Hf.
    assert (fst race <= fst race'); [|lia].
    destruct (Nat.eq_dec i j) as [->|N]; [rewrite Hr in H0; inversion H0; lia|].
    apply (races_of_chronological results i j); auto. lia.
Qed.

Lemma X9_witness :
  nth_error (races_of sample_results) 1 = Some (2, "Jeddah"%string)
  /\ In (sample_standing 2 "Jeddah" 1 "Driver A" "Team X" 1 41 0 16 1 2 2
           1700000003)
        (snapshot_after
           (transform_championship_standings sample_clock 2023 sample_results)
           2)
  /\ (1 <= 2)%nat.
Proof.
  split; [reflexivity|]. split; [left; reflexivity|].
  exact (proj1 (proj2 (proj2 (proj2
    (X9_counts_by_date sample_clock 2023 sample_results 1
       (2, "Jeddah"%string)
       (sample_standing 2 "Jeddah" 1 "Driver A" "Team X" 1 41 0 16 1 2 2
          1700000003)
       eq_refl (or_introl eq_refl)))))).
Defined.

(** ** Independence of the order of the rows *)

Lemma rows_of_races_Permutation results results' races :
  Permutation results results' ->
  Permutation (rows_of_races results races) (rows_of_races results' races).
Proof.
  intros P. induction races as [|race races IH]; [constructor|].
  rewrite !rows_of_races_cons. apply Permutation_app; auto.
  now apply Permutation_filter.
Qed.

Lemma snapshot_of_entry utcnow n year race_idx race rs e :
  In e rs ->
  exists now position,
    In (record_of now year race_idx race rs position e)
       (snapshot utcnow n year race_idx race rs).
Proof.
  intros H. apply In_nth_error in H. destruct H as [j Hj].
  exists (utcnow (n + j)%nat), (S j).
  apply (nth_error_In _ j). rewrite snapshot_nth, Hj. reflexivity.
Qed.

(** X10: the order in which the rows are fetched matters only for
    ties and names.  For any reordering of the rows the rounds are the
    same, and at every round every driver has the same points, wins,
    podiums and points finishes. *)
Theorem X10_totals_independent_of_row_order
    utcnow utcnow' year results results' R s :
  Permutation results results' ->
  In s (snapshot_after (transform_championship_standings utcnow year results)
          R) ->
  races_of results' = races_of results
  /\ exists s',
       In s' (snapshot_after
                (transform_championship_standings utcnow' year results') R)
       /\ Standing.driver_number s' = Standing.driver_number s
       /\ Standing.after_race s' = Standing.after_race s
       /\ Standing.points s' = Standing.points s
       /\ Standing.wins s' = Standing.wins s
       /\ Standing.podiums s' = Standing.podiums s
       /\ Standing.points_finishes s' = Standing.points_finishes s.
Proof.
  intros P Hs.
  assert (Er : races_of results' = races_of results).
  { apply races_of_same_keys. intros k. split; intros H.
    - eapply Permutation_in; [apply Permutation_map, Permutation_sym, P|auto].
    - eapply Permutation_in; [apply Permutation_map, P|auto]. }
  split; auto.
  destruct (snapshot_after_cases utcnow year results R)
    as [E | (i & race & n & -> & Hr & E)]; rewrite E in Hs; [destruct Hs|].
  apply snapshot_In in Hs. destruct Hs as (now & position & d & Hd & ->).
  assert (Hr' : nth_error (races_of results') i = Some race) by now rewrite Er.
  destruct (snapshot_after_valid utcnow' year results' i race Hr') as [n' E'].
  rewrite E', Er.
  set (rows := rows_of_races results (firstn (S i) (races_of results))) in *.
  set (rows' := rows_of_races results' (firstn (S i) (races_of results))).
  assert (Prows : Permutation rows rows')
    by now apply rows_of_races_Permutation.
  assert (He : In (entry_of results' race (d, total_points rows' d))
                  (ranking results' race (add_all [] rows'))).
  { unfold ranking.
    apply (Permutation_in _ (Permutation_sym (sort_standings_perm _))).
    rewrite add_all_nil, map_map.
    apply (in_map (fun k => entry_of results' race (k, total_points rows' k))).
    apply drivers_seen_In. apply drivers_seen_In in Hd.
    eapply Permutation_in; [apply Permutation_map, Prows|auto]. }
  destruct (snapshot_of_entry utcnow' n' year i race _ _ He)
    as (now' & position' & Hin).
  eexists. split; [exact Hin|].
  cbn [Standing.driver_number Standing.after_race Standing.points
       Standing.wins Standing.podiums Standing.points_finishes record_of
       entry_of Entry.driver_number Entry.points Entry.wins Entry.podiums
       Entry.points_finishes fst snd].
  unfold driver_results_upto. rewrite !filter_filter.
  repeat split.
  - symmetry. now apply total_points_Permutation.
  - apply Permutation_length, Permutation_filter, Permutation_sym, P.
  - apply Permutation_length, Permutation_filter, Permutation_sym, P.
  - apply Permutation_length, Permutation_filter, Permutation_sym, P.
Qed.

Lemma X10_witness :
  Permutation sample_results (rev sample_results)
  /\ In (sample_standing 2 "Jeddah" 1 "Driver A" "Team X" 1 41 0 16 1 2 2
           1700000003)
        (snapshot_after
           (transform_championship_standings sample_clock 2023 sample_results)
           2)
  /\ races_of (rev sample_results) = races_of sample_results.
Proof.
  assert (P : Permutation sample_results (rev sample_results))
    by apply Permutation_rev.
  split; [exact P|]. split; [left; reflexivity|].
  exact (proj1 (X10_totals_independent_of_row_order sample_clock sample_clock
                  2023 sample_results (rev sample_results) 2 _ P
                  (or_introl eq_refl))).
Defined.

(** ** Conservation of points *)

Lemma sum_over_NoDup (f : Z -> Z) k l :
  NoDup l ->
  sum_Z (map f l)
  = (if memb k l then f k else 0)
    + sum_Z (map f (filter (fun x => negb (x =? k)) l)).
Proof.
  unfold sum_Z, memb.
  induction 1 as [|a l Ha ND IH]; auto.
  cbn [map fold_right existsb filter]. rewrite IH.
  destruct (a =? k) eqn:E.
  - apply Z.eqb_eq in E. subst a. rewrite Z.eqb_refl. simpl.
    assert (M : existsb (Z.eqb k) l = false).
    { apply memb_not_In. exact Ha. }
    rewrite M. lia.
  - rewrite (Z.eqb_sym k a), E. simpl. lia.
Qed.

Lemma total_points_unseen rows d :
  ~ In d (map GP.driver_number rows) -> total_points rows d = 0.
Proof.
  intros H. unfold total_points. rewrite filter_none; auto.
  intros r Hr. unfold is_driver. apply Z.eqb_neq. intros E.
  apply H. rewrite <- E. now apply in_map.
Qed.

Lemma sum_of_totals rows :
  sum_Z (map (total_points rows) (drivers_seen rows))
  = sum_Z (map GP.points rows).
Proof.
  induction rows as [|r rows IH]; auto.
  unfold drivers_seen in *. cbn [map distinct sum_Z fold_right].
  fold (sum_Z (map GP.points rows)).
  fold (sum_Z (map (total_points (r :: rows))
                 (filter (fun k' => negb (k' =? GP.driver_number r))
                    (distinct (map GP.driver_number rows))))).
  rewrite <- IH.
  rewrite (sum_over_NoDup (total_points rows) (GP.driver_number r)
             (distinct (map GP.driver_number rows)))
    by apply distinct_NoDup.
  rewrite total_points_cons, Z.eqb_refl.
  assert (E : sum_Z (map (total_points (r :: rows))
                       (filter (fun k' => negb (k' =? GP.driver_number r))
                          (distinct (map GP.driver_number rows))))
              = sum_Z (map (total_points rows)
                         (filter (fun k' => negb (k' =? GP.driver_number r))
                            (distinct (map GP.driver_number rows))))).
  { f_equal. apply map_ext_in. intros x Hx. apply filter_In in Hx.
    destruct Hx as [_ Hx]. apply negb_true_iff in Hx.
    rewrite total_points_cons, Z.eqb_sym. now rewrite Hx. }
  rewrite E.
  destruct (memb (GP.driver_number r) (distinct (map GP.driver_number rows)))
    eqn:M; [lia|].
  apply memb_not_In in M. rewrite distinct_In in M.
  rewrite (total_points_unseen _ _ M). lia.
Qed.

(** The points of a snapshot, summed over the drivers. *)
Lemma snapshot_points_sum utcnow year results i race :
  nth_error (races_of results) i = Some race ->
  sum_Z (map Standing.points
           (snapshot_after
              (transform_championship_standings utcnow year results) (S i)))
  = sum_Z (map GP.points
             (rows_of_races results (firstn (S i) (races_of results)))).
Proof.
  intros Hr. destruct (snapshot_after_valid utcnow year results i race Hr)
    as [n E].
  rewrite E, (snapshot_entries Standing.points Entry.points) by reflexivity.
  unfold ranking.
  rewrite (sum_Z_Permutation _ _
             (Permutation_map Entry.points (sort_standings_perm _))).
  rewrite add_all_nil, !map_map. simpl. apply sum_of_totals.
Qed.

(** X11: points are conserved.  Let [races] be the calendar of the
    rows: the points of the snapshot after a round, summed over the
    drivers, are the points of the rows of the races of the calendar up
    to that round, each row counted once; after the last race they are
    the points of all the rows. *)
Theorem X11_points_conserved utcnow year results races i race :
  season_calendar results races ->
  nth_error races i = Some race ->
  sum_Z (map Standing.points
           (snapshot_after
              (transform_championship_standings utcnow year results) (S i)))
  = sum_Z (map GP.points (filter (in_races (firstn (S i) races)) results))
  /\ (S i = length races ->
      sum_Z (map Standing.points
               (snapshot_after
                  (transform_championship_standings utcnow year results)
                  (S i)))
      = sum_Z (map GP.points results)).
Proof.
  intros Hcal Hr. apply season_calendar_unique in Hcal. subst races.
  assert (E : sum_Z (map Standing.points
           (snapshot_after
              (transform_championship_standings utcnow year results) (S i)))
    = sum_Z (map GP.points
               (filter (in_races (firstn (S i) (races_of results))) results))).
  { rewrite (snapshot_points_sum utcnow year results i race Hr).
    apply sum_Z_Permutation, Permutation_map, rows_of_rounds. }
  split; auto.
  intros EL. rewrite E, EL, firstn_all. do 2 f_equal.
  apply filter_all. intros r Hrin. apply in_races_key.
  apply races_of_In. now apply in_map.
Qed.

Lemma X11_witness :
  season_calendar sample_results [(1, "Bahrain"%string); (2, "Jeddah"%string)]
  /\ nth_error [(1, "Bahrain"%string); (2, "Jeddah"%string)] 1
     = Some (2, "Jeddah"%string)
  /\ 41 + (25 + (18 + 0)) = 26 + (18 + (0 + (25 + (15 + 0)))).
Proof.
  split; [exact sample_calendar|]. split; [reflexivity|].
  exact (proj2 (X11_points_conserved sample_clock 2023 sample_results
                  [(1, "Bahrain"%string); (2, "Jeddah"%string)] 1
                  (2, "Jeddah"%string) sample_calendar eq_refl)
           eq_refl).
Defined.

(** ** Rank and points *)

(** X12: within a snapshot the rank follows the points: a driver with
    strictly more points has a strictly better position, and no driver
    is behind the next one ([points_ahead_next] is never negative). *)
Theorem X12_more_points_better_position utcnow year results R s s' :
  let snap :=
    snapshot_after (transform_championship_standings utcnow year results) R in
  In s snap -> In s' snap ->
  0 <= Standing.points_ahead_next s
  /\ (Standing.points s' < Standing.points s ->
      (Standing.position s < Standing.position s')%nat).
Proof.
  intros snap. subst snap.
  destruct (snapshot_after_cases utcnow year results R)
    as [E | (i0 & race & n & -> & Hr & E)]; rewrite E; [intros []|].
  set (rs := ranking results race _).
  assert (Hs := ranking_sorted results race
                  (add_all [] (rows_of_races results
                                 (firstn (S i0) (races_of results))))).
  fold rs in Hs. clearbody rs.
  intros H H'. apply In_nth_error in H, H'.
  destruct H as [j H], H' as [j' H'].
  rewrite snapshot_nth in H, H'.
  destruct (nth_error rs j) as [e|] eqn:Hj; [|discriminate].
  destruct (nth_error rs j') as [e'|] eqn:Hj'; [|discriminate].
  inversion H; inversion H'; subst s s'; clear H H'.
  cbn [Standing.points_ahead_next Standing.points Standing.position record_of].
  split.
  - destruct (nth_error rs (S j)) as [next|] eqn:Hn; [|lia].
    assert (Entry.points next <= Entry.points e).
    { apply (StronglySorted_nth _ _ Hs j (S j) e next); auto. }
    lia.
  - intros Hlt. destruct (Nat.lt_ge_cases j j') as [L|L]; [lia|].
    exfalso. destruct (Nat.eq_dec j j') as [->|N].
    + rewrite Hj in Hj'. inversion Hj'. subst. lia.
    + assert (Entry.points e <= Entry.points e').
      { apply (StronglySorted_nth _ _ Hs j' j e' e); auto. lia. }
      lia.
Qed.

Lemma X12_witness :
  In (sample_standing 2 "Jeddah" 1 "Driver A" "Team X" 1 41 0 16 1 2 2
        1700000003)
     (snapshot_after
        (transform_championship_standings sample_clock 2023 sample_results) 2)
  /\ In (sample_standing 2 "Jeddah" 2 "Driver B" "Team Y" 2 25 16 7 1 1 1
           1700000004)
        (snapshot_after
           (transform_championship_standings sample_clock 2023 sample_results)
           2)
  /\ 25 < 41 /\ (1 < 2)%nat.
Proof.
  split; [left; reflexivity|]. split; [right; left; reflexivity|].
  split; [lia|].
  apply (proj2 (X12_more_points_better_position sample_clock 2023
                  sample_results 2
                  (sample_standing 2 "Jeddah" 1 "Driver A" "Team X" 1 41 0 16
                     1 2 2 1700000003)
                  (sample_standing 2 "Jeddah" 2 "Driver B" "Team Y" 2 25 16 7
                     1 1 1 1700000004)
                  (or_introl eq_refl) (or_intror (or_introl eq_refl)))).
  simpl. lia.
Defined.

(** * Championship context of the results *)

(** ** The first sort and the running totals *)

Lemma driver_date_ltb_true a b :
  driver_date_ltb a b = true -> driver_date_le a b.
Proof.
  unfold driver_date_ltb, driver_date_le. rewrite orb_true_iff, andb_true_iff.
  rewrite !Z.ltb_lt, Z.eqb_eq. lia.
Qed.

Lemma driver_date_ltb_false a b :
  driver_date_ltb a b = false -> driver_date_le b a.
Proof.
  unfold driver_date_ltb, driver_date_le.
  rewrite orb_false_iff, andb_false_iff, !Z.ltb_ge, Z.eqb_neq. lia.
Qed.

Lemma driver_date_le_trans a b c :
  driver_date_le a b -> driver_date_le b c -> driver_date_le a c.
Proof. unfold driver_date_le. lia. Qed.

Lemma insert_by_driver_date_perm x l :
  Permutation (insert_by_driver_date x l) (x :: l).
Proof.
  induction l as [|y l IH]; simpl; auto.
  destruct (driver_date_ltb y x); auto.
  rewrite IH. apply perm_swap.
Qed.

Lemma sort_by_driver_date_perm l : Permutation (sort_by_driver_date l) l.
Proof.
  induction l as [|x l IH]; simpl; auto.
  rewrite insert_by_driver_date_perm. now constructor.
Qed.

Lemma insert_by_driver_date_sorted x l :
  StronglySorted driver_date_le l ->
  StronglySorted driver_date_le (insert_by_driver_date x l).
Proof.
  induction 1 as [|y l S IH F]; simpl.
  - repeat constructor.
  - destruct (driver_date_ltb y x) eqn:E.
    + apply driver_date_ltb_true in E. constructor; auto.
      rewrite Forall_forall in *. intros z Hz.
      apply (Permutation_in _ (insert_by_driver_date_perm x l)) in Hz.
      destruct Hz as [<-|Hz]; auto.
    + apply driver_date_ltb_false in E. constructor.
      * now constructor.
      * constructor; auto. rewrite Forall_forall in *. intros z Hz.
        eapply driver_date_le_trans; eauto.
Qed.

Lemma sort_by_driver_date_sorted l :
  StronglySorted driver_date_le (sort_by_driver_date l).
Proof.
  induction l as [|x l IH]; simpl; [constructor|].
  now apply insert_by_driver_date_sorted.
Qed.

Lemma group_cumsum_rows rows : forall before,
  map Ctx.row (group_cumsum before rows) = rows.
Proof.
  induction rows as [|r rows IH]; intros before; simpl; auto.
  now rewrite IH.
Qed.

Lemma group_cumsum_In rows : forall before x,
  In x (group_cumsum before rows) ->
  exists pre post,
    rows = pre ++ Ctx.row x :: post /\
    Ctx.total_season_points x
    = total_points (before ++ pre ++ [Ctx.row x]) (ctx_driver x).
Proof.
  induction rows as [|r rows IH]; intros before x; simpl; [tauto|].
  intros [<-|H].
  - exists [], rows. split; auto. simpl.
    rewrite total_points_app. unfold ctx_driver. simpl.
    rewrite total_points_cons, Z.eqb_refl. unfold total_points at 3. simpl.
    lia.
  - apply IH in H. destruct H as (pre & post & -> & E).
    exists (r :: pre), post. split; auto.
    rewrite E, <- app_assoc. reflexivity.
Qed.

(** ** The two loops of the ranking *)

Lemma dict_get_set k k' v d :
  dict_get k (dict_set k' v d) = if k' =? k then Some v else dict_get k d.
Proof.
  induction d as [|[k0 v0] d IH]; simpl.
  - reflexivity.
  - destruct (k0 =? k') eqn:E; simpl.
    + apply Z.eqb_eq in E. subst k0. now destruct (k' =? k).
    + rewrite IH. destruct (k0 =? k) eqn:E'; auto.
      apply Z.eqb_eq in E'. subst k0. now rewrite Z.eqb_sym, E.
Qed.

Lemma dict_set_keys k v d :
  map fst (dict_set k v d) =
  if memb k (map fst d) then map fst d else map fst d ++ [k].
Proof.
  induction d as [|[k' v'] d IH]; simpl; auto.
  unfold memb in *. simpl. rewrite (Z.eqb_sym k k').
  destruct (k' =? k); simpl; auto.
  rewrite IH. now destruct (existsb (Z.eqb k) (map fst d)).
Qed.

Lemma dict_set_NoDup k v d :
  NoDup (map fst d) -> NoDup (map fst (dict_set k v d)).
Proof.
  intros ND. rewrite dict_set_keys.
  destruct (memb k (map fst d)) eqn:M; auto.
  apply memb_not_In in M. apply NoDup_app; auto.
  - repeat constructor. simpl. tauto.
  - intros x Hx [<-|[]]. tauto.
Qed.

Lemma dict_set_keys_In k v d x :
  In x (map fst (dict_set k v d)) <-> x = k \/ In x (map fst d).
Proof.
  rewrite dict_set_keys. destruct (memb k (map fst d)) eqn:M.
  - apply memb_In in M. split; [tauto|]. intros [->|H]; auto.
  - rewrite in_app_iff. simpl. intuition.
Qed.

Lemma dict_get_absent k d : ~ In k (map fst d) -> dict_get k d = None.
Proof.
  induction d as [|[k' v'] d IH]; simpl; auto.
  intros H. destruct (k' =? k) eqn:E.
  - apply Z.eqb_eq in E. tauto.
  - apply IH. tauto.
Qed.

Lemma rankings_fold_keys l : forall s d0,
  let d := fold_left
             (fun rankings ix =>
                dict_set (ctx_driver (snd ix)) (Z.of_nat (fst ix + 1)) rankings)
             (enumerate s l) d0 in
  (NoDup (map fst d0) -> NoDup (map fst d))
  /\ forall k, In k (map fst d) <-> In k (map fst d0) \/ In k (map ctx_driver l).
Proof.
  induction l as [|a l IH]; intros s d0.
  - simpl. split; auto. intros k. tauto.
  - rewrite enumerate_cons. cbn [fold_left fst snd map].
    destruct (IH (S s) (dict_set (ctx_driver a) (Z.of_nat (s + 1)) d0))
      as [IH1 IH2].
    split.
    + intros ND. apply IH1. now apply dict_set_NoDup.
    + intros k. rewrite IH2, dict_set_keys_In. simpl.
      split; intros H; intuition auto.
Qed.

Lemma rankings_of_NoDup rr : NoDup (map fst (rankings_of rr)).
Proof.
  unfold rankings_of. apply (rankings_fold_keys rr 0%nat []). constructor.
Qed.

Lemma rankings_of_keys rr k :
  In k (map fst (rankings_of rr)) <-> In k (map ctx_driver rr).
Proof.
  unfold rankings_of.
  rewrite (proj2 (rankings_fold_keys rr 0%nat []) k). simpl. tauto.
Qed.

Lemma first_total_some rr k :
  In k (map ctx_driver rr) ->
  exists first,
    iloc0 (filter (fun x => ctx_driver x =? k) rr) = Some first /\
    In first rr /\ ctx_driver first = k.
Proof.
  intros H. apply in_map_iff in H. destruct H as (a & E & Ha).
  rewrite iloc0_filter_find.
  destruct (find (fun x => ctx_driver x =? k) rr) as [first|] eqn:F.
  - exists first. apply find_some in F. destruct F as [F1 F2].
    apply Z.eqb_eq in F2. auto.
  - exfalso. apply (find_none _ _ F) in Ha. rewrite E, Z.eqb_refl in Ha.
    discriminate.
Qed.

Lemma ranked_base date rr leader items x :
  Ctx.row (ranked date rr leader items x) = Ctx.row x /\
  Ctx.total_season_points (ranked date rr leader items x)
  = Ctx.total_season_points x.
Proof.
  unfold ranked. destruct (ctx_date x =? date); auto.
  destruct (dict_get (ctx_driver x) items); auto.
Qed.

Lemma ranked_cons date rr leader dn rk rest first x :
  iloc0 (filter (fun y => ctx_driver y =? dn) rr) = Some first ->
  ~ In dn (map fst rest) ->
  ranked date rr leader rest
    (let x1 :=
       if (ctx_driver x =? dn) && (ctx_date x =? date)
       then Ctx.mk (Ctx.row x) (Ctx.total_season_points x) (Some rk)
              (Ctx.points_from_first x)
       else x in
     if (ctx_driver x1 =? dn) && (ctx_date x1 =? date)
     then Ctx.mk (Ctx.row x1) (Ctx.total_season_points x1)
            (Ctx.drivers_championship_ranking x1)
            (Some (leader - Ctx.total_season_points first))
     else x1)
  = ranked date rr leader ((dn, rk) :: rest) x.
Proof.
  intros Hf Hn. destruct x as [r t rk0 pf].
  unfold ranked, first_total, ctx_driver, ctx_date in *. cbn [Ctx.row].
  destruct (GP.driver_number r =? dn) eqn:Ed;
    destruct (GP.date r =? date) eqn:Et; cbn [andb]; cbv zeta;
    cbn [Ctx.row Ctx.total_season_points Ctx.drivers_championship_ranking
         Ctx.points_from_first]; rewrite ?Ed, ?Et; cbn [andb dict_get];
    cbn [Ctx.row Ctx.total_season_points Ctx.drivers_championship_ranking
         Ctx.points_from_first]; rewrite ?Et; try reflexivity.
  - apply Z.eqb_eq in Ed. rewrite Ed, Z.eqb_refl.
    rewrite (dict_get_absent dn rest) by exact Hn.
    rewrite Hf. reflexivity.
  - rewrite (Z.eqb_sym dn), Ed. reflexivity.
Qed.

Lemma rank_drivers_ranked date rr leader items :
  NoDup (map fst items) ->
  (forall k, In k (map fst items) -> In k (map ctx_driver rr)) ->
  forall df,
    rank_drivers date rr leader items df
    = Some (map (ranked date rr leader items) df).
Proof.
  induction items as [|[dn rk] rest IH]; intros ND Hk df.
  - simpl. f_equal. rewrite <- (map_id df) at 1. apply map_ext.
    intros x. unfold ranked. simpl. now destruct (ctx_date x =? date).
  - cbn [rank_drivers].
    destruct (first_total_some rr dn) as (first & Hf & _ & _).
    { apply Hk. now left. }
    rewrite Hf. cbn [bind].
    inversion ND as [|? ? Hn ND']; subst.
    rewrite IH; auto.
    2:{ intros k H. apply Hk. now right. }
    f_equal. unfold set_points_from_first, set_ranking.
    rewrite !map_map. apply map_ext. intros x.
    now apply (ranked_cons date rr leader dn rk rest first x).
Qed.

Lemma ranked_date date rr leader items x :
  ctx_date (ranked date rr leader items x) = ctx_date x.
Proof.
  unfold ctx_date. now rewrite (proj1 (ranked_base date rr leader items x)).
Qed.

Lemma filter_other_date date rr leader items d df :
  d <> date ->
  filter (fun y => ctx_date y =? d) (map (ranked date rr leader items) df)
  = filter (fun y => ctx_date y =? d) df.
Proof.
  intros N. induction df as [|x df IH]; simpl; auto.
  rewrite ranked_date, IH.
  destruct (ctx_date x =? d) eqn:E; auto.
  f_equal. unfold ranked.
  destruct (ctx_date x =? date) eqn:E'; auto.
  apply Z.eqb_eq in E, E'. congruence.
Qed.

Lemma rank_dates_final sort_desc dates :
  NoDup dates ->
  forall df,
    rank_dates sort_desc dates df
    = Some (map (fun x => if memb (ctx_date x) dates
                          then final_ctx sort_desc df x else x) df).
Proof.
  induction dates as [|t rest IH]; intros ND df.
  - simpl. f_equal. symmetry. apply map_id.
  - cbn [rank_dates].
    set (rr := sort_desc (filter (fun x => ctx_date x =? t) df)).
    fold (leader_total rr).
    rewrite rank_drivers_ranked.
    2:{ apply rankings_of_NoDup. }
    2:{ intros k. apply rankings_of_keys. }
    cbn [bind]. inversion ND as [|? ? Hn ND']; subst.
    rewrite IH by auto. f_equal. rewrite map_map.
    apply map_ext. intros x. rewrite ranked_date.
    unfold memb. cbn [existsb].
    destruct (ctx_date x =? t) eqn:Et.
    + apply Z.eqb_eq in Et. simpl.
      assert (M : existsb (Z.eqb (ctx_date x)) rest = false).
      { apply memb_not_In. now rewrite Et. }
      rewrite M. unfold final_ctx. rewrite Et. reflexivity.
    + simpl.
      assert (Ex : ranked t rr (leader_total rr) (rankings_of rr) x = x).
      { unfold ranked. now rewrite Et. }
      rewrite Ex.
      destruct (existsb (Z.eqb (ctx_date x)) rest); auto.
      unfold final_ctx. rewrite filter_other_date; auto.
      now apply Z.eqb_neq.
Qed.

Lemma add_championship_context_final sort_desc results :
  results <> [] ->
  let df0 := group_cumsum [] (sort_by_driver_date results) in
  _add_championship_context sort_desc results
  = Some (map (final_ctx sort_desc df0) df0).
Proof.
  intros Hne df0. unfold _add_championship_context.
  destruct results as [|r results]; [congruence|].
  cbv zeta. fold df0.
  rewrite rank_dates_final by apply distinct_NoDup.
  f_equal. apply map_ext_in. intros x Hx.
  assert (M : memb (ctx_date x) (distinct (map ctx_date df0)) = true).
  { apply memb_In, distinct_In. now apply in_map. }
  now rewrite M.
Qed.

(** ** The running total of the results *)

Lemma StronglySorted_middle {A} (R : A -> A -> Prop) pre x post :
  StronglySorted R (pre ++ x :: post) ->
  Forall (fun y => R y x) pre /\ Forall (R x) post.
Proof.
  induction pre as [|a pre IH]; simpl; intros H.
  - inversion H; subst. split; auto.
  - inversion H as [|? ? S F]; subst. destruct (IH S) as [IH1 IH2].
    split; auto. constructor; auto.
    rewrite Forall_forall in F. apply F. apply in_or_app. right. now left.
Qed.

Lemma final_ctx_base sort_desc df x :
  Ctx.row (final_ctx sort_desc df x) = Ctx.row x /\
  Ctx.total_season_points (final_ctx sort_desc df x)
  = Ctx.total_season_points x.
Proof. apply ranked_base. Qed.

Lemma cumsum_total_by_date sorted x :
  StronglySorted driver_date_le sorted ->
  one_row_per_driver_and_date sorted ->
  In x (group_cumsum [] sorted) ->
  Ctx.total_season_points x
  = sum_Z (map GP.points
             (driver_results_upto sorted (ctx_driver x) (ctx_date x))).
Proof.
  intros Hs Hu Hx. apply group_cumsum_In in Hx.
  destruct Hx as (pre & post & E & ->). simpl app.
  unfold ctx_driver, ctx_date. set (r0 := Ctx.row x) in *. clearbody r0.
  subst sorted. destruct (StronglySorted_middle _ _ _ _ Hs) as [Fpre Fpost].
  rewrite Forall_forall in Fpre, Fpost.
  unfold total_points, driver_results_upto.
  rewrite !filter_app. cbn [filter]. unfold is_driver at 2.
  rewrite !Z.eqb_refl, Z.leb_refl. cbn [andb filter].
  assert (E1 : filter (is_driver (GP.driver_number r0)) pre
               = filter (fun r => (GP.driver_number r =? GP.driver_number r0)
                                  && (GP.date r <=? GP.date r0)) pre).
  { apply filter_ext_in. intros y Hy. unfold is_driver.
    destruct (GP.driver_number y =? GP.driver_number r0) eqn:Ed; auto.
    apply Z.eqb_eq in Ed. specialize (Fpre y Hy). unfold driver_date_le in Fpre.
    symmetry. apply Z.leb_le. lia. }
  assert (E2 : filter (fun r => (GP.driver_number r =? GP.driver_number r0)
                                && (GP.date r <=? GP.date r0)) post = []).
  { apply filter_none. intros y Hy. apply andb_false_iff.
    destruct (GP.driver_number y =? GP.driver_number r0) eqn:Ed; auto.
    right. apply Z.eqb_eq in Ed. apply Z.leb_gt.
    specialize (Fpost y Hy). unfold driver_date_le in Fpost.
    assert (GP.date y <> GP.date r0); [|lia].
    intros Et. unfold one_row_per_driver_and_date in Hu.
    rewrite map_app in Hu. apply NoDup_remove_2 in Hu. apply Hu.
    apply in_or_app. right.
    replace (GP.driver_number r0, GP.date r0)
      with (GP.driver_number y, GP.date y) by congruence.
    now apply (in_map (fun r => (GP.driver_number r, GP.date r))). }
  rewrite E1, E2. reflexivity.
Qed.

(** X13: [_add_championship_context] raises on the frame of no
    record.  On any other frame it raises nothing and keeps the rows:
    the frame it returns holds the rows it was given, in ascending order
    of driver number and, for a driver, of date.  When no driver has two
    rows of one date, the [total_season_points] of a row is the sum of
    the points of that driver's rows dated up to the date of the row. *)
Theorem X13_total_season_points_is_running_sum sort_desc results :
  _add_championship_context sort_desc [] = None
  /\ (results <> [] ->
      exists df,
        _add_championship_context sort_desc results = Some df
        /\ Permutation (map Ctx.row df) results
        /\ StronglySorted driver_date_le (map Ctx.row df)
        /\ (one_row_per_driver_and_date results ->
            forall x,
              In x df ->
              Ctx.total_season_points x
              = sum_Z (map GP.points
                         (driver_results_upto results (ctx_driver x)
                            (ctx_date x))))).
Proof.
  split; [reflexivity|]. intros Hne.
  eexists. split; [now apply add_championship_context_final|].
  set (sorted := sort_by_driver_date results).
  assert (Erow : map Ctx.row
                   (map (final_ctx sort_desc (group_cumsum [] sorted))
                      (group_cumsum [] sorted)) = sorted).
  { rewrite map_map.
    transitivity (map Ctx.row (group_cumsum [] sorted));
      [apply map_ext; intros x; apply final_ctx_base
      |apply group_cumsum_rows]. }
  split; [|split].
  - rewrite Erow. apply sort_by_driver_date_perm.
  - rewrite Erow. apply sort_by_driver_date_sorted.
  - intros Hu x Hx. apply in_map_iff in Hx. destruct Hx as (x0 & <- & Hx0).
    unfold ctx_driver, ctx_date.
    destruct (final_ctx_base sort_desc (group_cumsum [] sorted) x0)
      as [-> ->].
    assert (P : Permutation sorted results)
      by apply sort_by_driver_date_perm.
    rewrite (cumsum_total_by_date sorted x0); auto.
    + apply sum_Z_Permutation, Permutation_map.
      unfold driver_results_upto. now apply Permutation_filter.
    + apply sort_by_driver_date_sorted.
    + unfold one_row_per_driver_and_date in *.
      eapply Permutation_NoDup; [|exact Hu].
      apply Permutation_map, Permutation_sym, P.
Qed.

Lemma sample_one_row_per_driver_and_date :
  one_row_per_driver_and_date sample_results.
Proof.
  unfold one_row_per_driver_and_date, sample_results. simpl.
  repeat constructor; simpl; intuition congruence.
Qed.

Lemma X13_witness :
  sample_results <> []
  /\ one_row_per_driver_and_date sample_results
  /\ exists df,
       _add_championship_context sort_by_total sample_results = Some df
       /\ Permutation (map Ctx.row df) sample_results.
Proof.
  split; [discriminate|].
  split; [exact sample_one_row_per_driver_and_date|].
  destruct (proj2 (X13_total_season_points_is_running_sum sort_by_total
                     sample_results))
    as (df & E & P & _); [discriminate|].
  exists df. split; [exact E | exact P].
Defined.

(** ** Ranking and gap to the leader in the results *)

Lemma dict_get_present k d :
  In k (map fst d) -> exists v, dict_get k d = Some v.
Proof.
  induction d as [|[k' v'] d IH]; simpl; [tauto|].
  intros H. destruct (k' =? k) eqn:E; eauto.
  apply IH. destruct H as [H|H]; auto. apply Z.eqb_neq in E. tauto.
Qed.

Lemma rankings_fold_other l : forall s d0 k,
  ~ In k (map ctx_driver l) ->
  dict_get k
    (fold_left
       (fun rankings ix =>
          dict_set (ctx_driver (snd ix)) (Z.of_nat (fst ix + 1)) rankings)
       (enumerate s l) d0)
  = dict_get k d0.
Proof.
  induction l as [|a l IH]; intros s d0 k H; auto.
  rewrite enumerate_cons. cbn [fold_left fst snd].
  rewrite IH by (simpl in H; tauto).
  rewrite dict_get_set. destruct (ctx_driver a =? k) eqn:E; auto.
  apply Z.eqb_eq in E. simpl in H. tauto.
Qed.

Lemma rankings_fold_nth l : forall s d0 j a,
  NoDup (map ctx_driver l) -> nth_error l j = Some a ->
  dict_get (ctx_driver a)
    (fold_left
       (fun rankings ix =>
          dict_set (ctx_driver (snd ix)) (Z.of_nat (fst ix + 1)) rankings)
       (enumerate s l) d0)
  = Some (Z.of_nat (s + j + 1)).
Proof.
  induction l as [|b l IH]; intros s d0 j a ND Hj.
  - destruct j; discriminate.
  - rewrite enumerate_cons. cbn [fold_left fst snd].
    simpl in ND. inversion ND as [|? ? Hn ND']; subst.
    destruct j as [|j]; simpl in Hj.
    + inversion Hj; subst b. rewrite rankings_fold_other by exact Hn.
      rewrite dict_get_set, Z.eqb_refl. do 2 f_equal. lia.
    + rewrite (IH (S s) _ j a ND' Hj). do 2 f_equal. lia.
Qed.

Lemma rankings_of_nth rr j a :
  NoDup (map ctx_driver rr) -> nth_error rr j = Some a ->
  dict_get (ctx_driver a) (rankings_of rr) = Some (Z.of_nat (j + 1)).
Proof.
  intros ND Hj. unfold rankings_of.
  now rewrite (rankings_fold_nth rr 0%nat [] j a ND Hj).
Qed.

Lemma NoDup_map_eq {A B} (f : A -> B) l a b :
  NoDup (map f l) -> In a l -> In b l -> f a = f b -> a = b.
Proof.
  induction l as [|x l IH]; simpl; [tauto|].
  intros ND Ha Hb E. inversion ND as [|? ? Hn ND']; subst.
  destruct Ha as [<-|Ha], Hb as [<-|Hb]; auto.
  - exfalso. apply Hn. rewrite E. now apply in_map.
  - exfalso. apply Hn. rewrite <- E. now apply in_map.
Qed.

Lemma date_drivers_NoDup l t :
  NoDup (map ctx_key l) ->
  NoDup (map ctx_driver (filter (fun y => ctx_date y =? t) l)).
Proof.
  induction l as [|x l IH]; simpl; [constructor|].
  intros ND. inversion ND as [|? ? Hn ND']; subst.
  destruct (ctx_date x =? t) eqn:E; auto.
  simpl. constructor; auto.
  intros H. apply in_map_iff in H. destruct H as (y & Ey & Hy).
  apply filter_In in Hy. destruct Hy as [Hy Et].
  apply Z.eqb_eq in E, Et. apply Hn.
  replace (ctx_key x) with (ctx_key y)
    by (unfold ctx_key; congruence).
  now apply in_map.
Qed.

(** With one row per driver and date, a row of date [t] standing at
    index [j] of the sorted rows of that date gets ranking [j + 1] and
    the leader's total minus its own as gap. *)
Lemma final_ctx_unique sort_desc df0 x0 :
  sorts_descending sort_desc ->
  NoDup (map ctx_key df0) -> In x0 df0 ->
  let rr := sort_desc (filter (fun y => ctx_date y =? ctx_date x0) df0) in
  exists j,
    nth_error rr j = Some x0 /\
    final_ctx sort_desc df0 x0
    = Ctx.mk (Ctx.row x0) (Ctx.total_season_points x0)
        (Some (Z.of_nat (j + 1)))
        (Some (leader_total rr - Ctx.total_season_points x0)).
Proof.
  intros Hsort ND Hx rr.
  destruct (Hsort (filter (fun y => ctx_date y =? ctx_date x0) df0))
    as [P _]. fold rr in P.
  assert (Hin : In x0 rr).
  { apply (Permutation_in _ (Permutation_sym P)), filter_In.
    split; auto. apply Z.eqb_refl. }
  assert (NDr : NoDup (map ctx_driver rr)).
  { eapply Permutation_NoDup;
      [apply Permutation_map, Permutation_sym, P|].
    now apply date_drivers_NoDup. }
  destruct (In_nth_error _ _ Hin) as [j Hj]. exists j. split; auto.
  unfold final_ctx. fold rr. unfold ranked. rewrite Z.eqb_refl.
  rewrite (rankings_of_nth rr j x0 NDr Hj).
  destruct (first_total_some rr (ctx_driver x0)) as (first & Hf & Hfin & Hfd).
  { now apply in_map. }
  unfold first_total. rewrite Hf. simpl.
  assert (first = x0).
  { apply (NoDup_map_eq ctx_key df0); auto.
    - apply (Permutation_in _ P) in Hfin. now apply filter_In in Hfin.
    - apply (Permutation_in _ P), filter_In in Hfin.
      destruct Hfin as [_ Et]. apply Z.eqb_eq in Et.
      unfold ctx_key. congruence. }
  now subst first.
Qed.

Lemma leader_total_max rr y :
  StronglySorted
    (fun a b => Ctx.total_season_points b <= Ctx.total_season_points a) rr ->
  In y rr -> Ctx.total_season_points y <= leader_total rr.
Proof.
  intros S H. destruct rr as [|h rr]; [destruct H|]. simpl.
  inversion S as [|? ? _ F]; subst. destruct H as [<-|H]; [lia|].
  rewrite Forall_forall in F. now apply F.
Qed.

Lemma cumsum_keys_NoDup results :
  one_row_per_driver_and_date results ->
  NoDup (map ctx_key (group_cumsum [] (sort_by_driver_date results))).
Proof.
  intros Hu. unfold one_row_per_driver_and_date in Hu.
  assert (E : map ctx_key (group_cumsum [] (sort_by_driver_date results))
              = map (fun r => (GP.driver_number r, GP.date r))
                  (sort_by_driver_date results)).
  { rewrite <- (group_cumsum_rows (sort_by_driver_date results) []) at 2.
    now rewrite map_map. }
  rewrite E. eapply Permutation_NoDup; [|exact Hu].
  apply Permutation_map, Permutation_sym, sort_by_driver_date_perm.
Qed.

(** X14: with one row per driver and date, every row of the frame
    gets a [points_from_first] that is never negative: it is the
    greatest [total_season_points] among the rows of its date minus its
    own, and a row holding that greatest total has gap 0. *)
Theorem X14_points_from_first_is_gap_to_date_leader sort_desc results df x :
  sorts_descending sort_desc ->
  one_row_per_driver_and_date results ->
  _add_championship_context sort_desc results = Some df ->
  In x df ->
  exists v,
    Ctx.points_from_first x = Some v
    /\ 0 <= v
    /\ (forall y, In y df -> ctx_date y = ctx_date x ->
          Ctx.total_season_points y <= Ctx.total_season_points x + v)
    /\ (exists y, In y df /\ ctx_date y = ctx_date x /\
          Ctx.total_season_points y = Ctx.total_season_points x + v /\
          Ctx.points_from_first y = Some 0).
Proof.
  intros Hsort Hu E Hx.
  rewrite add_championship_context_final in E
    by (intros N; rewrite N in E; discriminate E).
  inversion E; subst df; clear E.
  set (df0 := group_cumsum [] (sort_by_driver_date results)) in *.
  pose proof (cumsum_keys_NoDup results Hu) as ND. fold df0 in ND.
  apply in_map_iff in Hx. destruct Hx as (x0 & <- & Hx0).
  destruct (final_ctx_unique sort_desc df0 x0 Hsort ND Hx0) as (j & Hj & Ex).
  set (rr := sort_desc (filter (fun y => ctx_date y =? ctx_date x0) df0)) in *.
  destruct (Hsort (filter (fun y => ctx_date y =? ctx_date x0) df0))
    as [P S]. fold rr in P, S.
  assert (Hdate : ctx_date (final_ctx sort_desc df0 x0) = ctx_date x0)
    by (unfold ctx_date; now rewrite (proj1 (final_ctx_base _ _ _))).
  rewrite Hdate. rewrite Ex. cbn [Ctx.points_from_first Ctx.total_season_points].
  eexists. split; [reflexivity|].
  assert (Hmax : forall y0, In y0 df0 -> ctx_date y0 = ctx_date x0 ->
                   Ctx.total_season_points y0 <= leader_total rr).
  { intros y0 Hy0 Hd. apply leader_total_max; auto.
    apply (Permutation_in _ (Permutation_sym P)), filter_In.
    split; auto. now apply Z.eqb_eq. }
  split; [|split].
  - specialize (Hmax x0 Hx0 eq_refl). lia.
  - intros y Hy Hd. apply in_map_iff in Hy. destruct Hy as (y0 & <- & Hy0).
    rewrite (proj2 (final_ctx_base _ _ _)).
    assert (ctx_date y0 = ctx_date x0).
    { rewrite <- Hd. unfold ctx_date.
      now rewrite (proj1 (final_ctx_base _ _ _)). }
    specialize (Hmax y0 Hy0 H). lia.
  - destruct rr as [|h rr'] eqn:Err.
    { apply nth_error_In in Hj. destruct Hj. }
    assert (Hh : In h df0 /\ ctx_date h = ctx_date x0).
    { assert (Hin : In h (h :: rr')) by now left.
      apply (Permutation_in _ P), filter_In in Hin.
      destruct Hin as [Hin Et]. apply Z.eqb_eq in Et. auto. }
    destruct Hh as [Hh Hd].
    exists (final_ctx sort_desc df0 h). split; [now apply in_map|].
    destruct (final_ctx_unique sort_desc df0 h Hsort ND Hh) as (jh & _ & Eh).
    rewrite Hd in Eh. fold rr in Eh. rewrite Err in Eh.
    split.
    + unfold ctx_date. now rewrite (proj1 (final_ctx_base _ _ _)).
    + rewrite Eh. cbn [Ctx.total_season_points Ctx.points_from_first
                       leader_total]. split; [lia|]. f_equal. lia.
Qed.

Lemma insert_by_total_perm x l : Permutation (insert_by_total x l) (x :: l).
Proof.
  induction l as [|y l IH]; simpl; auto.
  destruct (Ctx.total_season_points x <? Ctx.total_season_points y); auto.
  rewrite IH. apply perm_swap.
Qed.

Lemma sort_by_total_perm l : Permutation (sort_by_total l) l.
Proof.
  induction l as [|x l IH]; simpl; auto.
  rewrite insert_by_total_perm. now constructor.
Qed.

Lemma insert_by_total_sorted x l :
  StronglySorted
    (fun a b => Ctx.total_season_points b <= Ctx.total_season_points a) l ->
  StronglySorted
    (fun a b => Ctx.total_season_points b <= Ctx.total_season_points a)
    (insert_by_total x l).
Proof.
  induction 1 as [|y l S IH F]; simpl.
  - repeat constructor.
  - destruct (Ctx.total_season_points x <? Ctx.total_season_points y) eqn:E.
    + apply Z.ltb_lt in E. constructor; auto.
      rewrite Forall_forall in *. intros z Hz.
      apply (Permutation_in _ (insert_by_total_perm x l)) in Hz.
      destruct Hz as [<-|Hz]; auto. lia.
    + apply Z.ltb_ge in E. constructor.
      * now constructor.
      * constructor; [exact E|].
        rewrite Forall_forall in *. intros z Hz.
        specialize (F z Hz). lia.
Qed.

Lemma sort_by_total_sorts_descending : sorts_descending sort_by_total.
Proof.
  intros l. split; [apply sort_by_total_perm|].
  induction l as [|x l IH]; simpl; [constructor|].
  now apply insert_by_total_sorted.
Qed.

Lemma X14_witness :
  sorts_descending sort_by_total
  /\ one_row_per_driver_and_date sample_results
  /\ _add_championship_context sort_by_total sample_results
     = Some sample_context
  /\ exists x,
       nth_error sample_context 3 = Some x /\
       exists v, Ctx.points_from_first x = Some v /\ 0 <= v.
Proof.
  split; [exact sort_by_total_sorts_descending|].
  split; [exact sample_one_row_per_driver_and_date|].
  split; [reflexivity|].
  eexists. split; [reflexivity|].
  destruct (X14_points_from_first_is_gap_to_date_leader sort_by_total
              sample_results sample_context _
              sort_by_total_sorts_descending
              sample_one_row_per_driver_and_date eq_refl
              (or_intror (or_intror (or_intror (or_introl eq_refl)))))
    as (v & Hv & Hp & _).
  exists v. split; [exact Hv | exact Hp].
Defined.

(** X15: with one row per driver and date, the rows of one date get
    the rankings 1, 2, ... up to their number, each once, and a row with
    a strictly greater [total_season_points] gets a strictly smaller
    ranking.  Only the drivers with a row of that date are ranked. *)
Theorem X15_rankings_of_a_date sort_desc results df x y :
  sorts_descending sort_desc ->
  one_row_per_driver_and_date results ->
  _add_championship_context sort_desc results = Some df ->
  In x df -> In y df -> ctx_date x = ctx_date y ->
  exists rx ry,
    Ctx.drivers_championship_ranking x = Some rx
    /\ Ctx.drivers_championship_ranking y = Some ry
    /\ 1 <= rx <= Z.of_nat
                    (length (filter (fun z => ctx_date z =? ctx_date x) df))
    /\ (rx = ry -> x = y)
    /\ (Ctx.total_season_points y < Ctx.total_season_points x -> rx < ry).
Proof.
  intros Hsort Hu E Hx Hy Hd.
  rewrite add_championship_context_final in E
    by (intros N; rewrite N in E; discriminate E).
  inversion E; subst df; clear E.
  set (df0 := group_cumsum [] (sort_by_driver_date results)) in *.
  pose proof (cumsum_keys_NoDup results Hu) as ND. fold df0 in ND.
  apply in_map_iff in Hx, Hy.
  destruct Hx as (x0 & <- & Hx0). destruct Hy as (y0 & <- & Hy0).
  assert (Hdx : ctx_date (final_ctx sort_desc df0 x0) = ctx_date x0)
    by (unfold ctx_date; now rewrite (proj1 (final_ctx_base _ _ _))).
  assert (Hdy : ctx_date (final_ctx sort_desc df0 y0) = ctx_date y0)
    by (unfold ctx_date; now rewrite (proj1 (final_ctx_base _ _ _))).
  rewrite Hdx, Hdy in Hd. rewrite Hdx.
  destruct (final_ctx_unique sort_desc df0 x0 Hsort ND Hx0) as (jx & Hjx & Ex).
  destruct (final_ctx_unique sort_desc df0 y0 Hsort ND Hy0) as (jy & Hjy & Ey).
  rewrite <- Hd in Hjy, Ey.
  set (rr := sort_desc (filter (fun z => ctx_date z =? ctx_date x0) df0)) in *.
  destruct (Hsort (filter (fun z => ctx_date z =? ctx_date x0) df0))
    as [P S]. fold rr in P, S.
  exists (Z.of_nat (jx + 1)), (Z.of_nat (jy + 1)).
  rewrite Ex, Ey.
  cbn [Ctx.drivers_championship_ranking Ctx.total_season_points].
  split; [reflexivity|]. split; [reflexivity|].
  assert (Hlen : length (filter (fun z => ctx_date z =? ctx_date x0)
                           (map (final_ctx sort_desc df0) df0))
                 = length rr).
  { rewrite (Permutation_length P), filter_map, length_map.
    f_equal. apply filter_ext. intros z. unfold ctx_date.
    now rewrite (proj1 (final_ctx_base _ _ _)). }
  rewrite Hlen.
  assert (jx < length rr)%nat by (apply nth_error_Some; congruence).
  split; [lia|]. split.
  - intros Er. assert (jx = jy) by lia. subst jy.
    rewrite Hjx in Hjy. inversion Hjy. now subst y0.
  - intros Hlt. destruct (Nat.lt_ge_cases jx jy) as [L|L]; [lia|].
    exfalso. destruct (Nat.eq_dec jx jy) as [->|N].
    + rewrite Hjx in Hjy. inversion Hjy. subst y0. lia.
    + assert (Ctx.total_season_points x0 <= Ctx.total_season_points y0).
      { apply (StronglySorted_nth _ _ S jy jx y0 x0); auto. lia. }
      lia.
Qed.

Lemma X15_witness :
  sorts_descending sort_by_total
  /\ one_row_per_driver_and_date sample_results
  /\ _add_championship_context sort_by_total sample_results
     = Some sample_context
  /\ exists x y,
       nth_error sample_context 1 = Some x /\
       nth_error sample_context 3 = Some y /\
       ctx_date x = ctx_date y /\
       exists rx ry,
         Ctx.drivers_championship_ranking x = Some rx /\
         Ctx.drivers_championship_ranking y = Some ry /\ 1 <= rx.
Proof.
  split; [exact sort_by_total_sorts_descending|].
  split; [exact sample_one_row_per_driver_and_date|].
  split; [reflexivity|].
  eexists. eexists. split; [reflexivity|]. split; [reflexivity|].
  split; [reflexivity|].
  destruct (X15_rankings_of_a_date sort_by_total sample_results
              sample_context _ _
              sort_by_total_sorts_descending
              sample_one_row_per_driver_and_date eq_refl
              (or_intror (or_introl eq_refl))
              (or_intror (or_intror (or_intror (or_introl eq_refl))))
              eq_refl)
    as (rx & ry & Hx & Hy & Hr & _).
  exists rx, ry. split; [exact Hx|]. split; [exact Hy|]. exact (proj1 Hr).
Defined.

(** ** The results and the standings agree *)

Lemma context_total_by_date sort_desc results df x :
  one_row_per_driver_and_date results ->
  _add_championship_context sort_desc results = Some df ->
  In x df ->
  In (Ctx.row x) results
  /\ Ctx.total_season_points x
     = sum_Z (map GP.points
                (driver_results_upto results (ctx_driver x) (ctx_date x))).
Proof.
  intros Hu E Hx.
  rewrite add_championship_context_final in E
    by (intros N; rewrite N in E; discriminate E).
  inversion E; subst df; clear E.
  set (sorted := sort_by_driver_date results) in *.
  assert (P : Permutation sorted results) by apply sort_by_driver_date_perm.
  apply in_map_iff in Hx. destruct Hx as (x0 & <- & Hx0).
  unfold ctx_driver, ctx_date.
  destruct (final_ctx_base sort_desc (group_cumsum [] sorted) x0) as [-> ->].
  split.
  - apply (Permutation_in _ P). rewrite <- (group_cumsum_rows sorted []).
    now apply in_map.
  - rewrite (cumsum_total_by_date sorted x0); auto.
    + apply sum_Z_Permutation, Permutation_map.
      unfold driver_results_upto. now apply Permutation_filter.
    + apply sort_by_driver_date_sorted.
    + unfold one_row_per_driver_and_date in *.
      eapply Permutation_NoDup; [|exact Hu].
      apply Permutation_map, Permutation_sym, P.
Qed.

(** With one grand prix per date, the races up to round [i + 1] are
    those dated up to the date of the race of that round. *)
Lemma upto_round_is_upto_date results i t g r :
  (forall r r', In r results -> In r' results ->
                GP.date r = GP.date r' -> GP.grand_prix r = GP.grand_prix r') ->
  nth_error (races_of results) i = Some (t, g) ->
  In r results ->
  existsb (key_eqb (key_of r)) (firstn (S i) (races_of results))
  = (GP.date r <=? t).
Proof.
  intros Hgp Hi Hr.
  pose proof (races_of_sorted results) as Hsorted.
  assert (Hrace : exists r0, In r0 results /\ key_of r0 = (t, g)).
  { apply nth_error_In, races_of_In, in_map_iff in Hi.
    destruct Hi as (r0 & E & H0). eauto. }
  destruct Hrace as (r0 & Hr0 & Er0).
  destruct (existsb (key_eqb (key_of r)) (firstn (S i) (races_of results)))
    eqn:X; symmetry.
  - apply Z.leb_le. apply existsb_exists in X.
    destruct X as (k & Hk & Ek). apply key_eqb_eq in Ek. subst k.
    apply firstn_nth_In in Hk. destruct Hk as (j & Hj & Ej).
    destruct (Nat.eq_dec j i) as [->|N].
    + rewrite Hi in Ej. inversion Ej as [E]. unfold key_of in E.
      inversion E. lia.
    + assert (L : key_lt (key_of r) (t, g)).
      { apply (StronglySorted_nth _ _ Hsorted j i); auto. lia. }
      apply key_lt_date in L. exact L.
  - apply Z.leb_gt. destruct (Z_lt_le_dec t (GP.date r)) as [L|L]; auto.
    exfalso.
    assert (Hk : In (key_of r) (races_of results))
      by (apply races_of_In; now apply in_map).
    apply In_nth_error in Hk. destruct Hk as [j Hj].
    assert (Hgt : (i < j)%nat).
    { destruct (Nat.lt_ge_cases i j) as [G|G]; auto. exfalso.
      assert (In (key_of r) (firstn (S i) (races_of results))).
      { apply (nth_error_In _ j). rewrite nth_error_firstn.
        assert (E : (j <? S i)%nat = true) by (apply Nat.ltb_lt; lia).
        now rewrite E. }
      assert (existsb (key_eqb (key_of r)) (firstn (S i) (races_of results))
              = true); [|congruence].
      apply existsb_exists. exists (key_of r). split; auto.
      now apply key_eqb_eq. }
    assert (K : key_lt (t, g) (key_of r)).
    { apply (StronglySorted_nth _ _ Hsorted i j); auto. }
    pose proof (key_lt_date _ _ K) as D. simpl in D.
    assert (Ed : GP.date r = GP.date r0).
    { unfold key_of in Er0. inversion Er0. lia. }
    pose proof (Hgp r r0 Hr Hr0 Ed) as Eg.
    apply (key_lt_irrefl (t, g)).
    replace (key_of r) with (t, g) in K; auto.
    rewrite <- Er0. unfold key_of. congruence.
Qed.

(** X16: the two tables agree.  With one row per driver and date and
    one grand prix per date, the [total_season_points] of a row of the
    results is the [points] of its driver in the standings snapshot of
    the round of its race. *)
Theorem X16_results_total_is_standing_points
    sort_desc utcnow year results df x i s :
  one_row_per_driver_and_date results ->
  (forall r r', In r results -> In r' results ->
                GP.date r = GP.date r' -> GP.grand_prix r = GP.grand_prix r') ->
  _add_championship_context sort_desc results = Some df ->
  In x df ->
  nth_error (races_of results) i = Some (key_of (Ctx.row x)) ->
  In s (snapshot_after
          (transform_championship_standings utcnow year results) (S i)) ->
  Standing.driver_number s = ctx_driver x ->
  Standing.points s = Ctx.total_season_points x.
Proof.
  intros Hu Hgp E Hx Hi Hs Hd.
  destruct (context_total_by_date _ _ _ _ Hu E Hx) as [Hrow ->].
  rewrite (snapshot_points _ _ _ _ _ Hs), Hd.
  unfold total_points.
  assert (ND : NoDup (firstn (S i) (races_of results))).
  { apply key_sorted_NoDup, firstn_sorted, races_of_sorted. }
  rewrite (sum_Z_Permutation _ _
             (Permutation_map GP.points
                (Permutation_filter (is_driver (ctx_driver x)) _ _
                   (rows_of_races_filter results _ ND)))).
  rewrite filter_filter. unfold driver_results_upto. do 2 f_equal.
  apply filter_ext_in. intros r Hr.
  rewrite (upto_round_is_upto_date results i (GP.date (Ctx.row x))
             (GP.grand_prix (Ctx.row x)) r Hgp Hi Hr).
  unfold is_driver, ctx_date. apply andb_comm.
Qed.

Lemma sample_one_grand_prix_per_date r r' :
  In r sample_results -> In r' sample_results ->
  GP.date r = GP.date r' -> GP.grand_prix r = GP.grand_prix r'.
Proof.
  unfold sample_results. simpl.
  intros [<-|[<-|[<-|[<-|[<-|[]]]]]] [<-|[<-|[<-|[<-|[<-|[]]]]]];
    simpl; intros E; try reflexivity; discriminate.
Qed.

Lemma X16_witness :
  one_row_per_driver_and_date sample_results
  /\ _add_championship_context sort_by_total sample_results
     = Some sample_context
  /\ exists x,
       nth_error sample_context 1 = Some x /\
       nth_error (races_of sample_results) 1 = Some (key_of (Ctx.row x)) /\
       41 = Ctx.total_season_points x.
Proof.
  split; [exact sample_one_row_per_driver_and_date|].
  split; [reflexivity|].
  eexists. split; [reflexivity|]. split; [reflexivity|].
  exact (X16_results_total_is_standing_points sort_by_total sample_clock 2023
           sample_results sample_context _ 1
           (sample_standing 2 "Jeddah" 1 "Driver A" "Team X" 1 41 0 16 1 2 2
              1700000003)
           sample_one_row_per_driver_and_date
           sample_one_grand_prix_per_date eq_refl
           (or_intror (or_introl eq_refl)) eq_refl
           (or_introl eq_refl) eq_refl).
Defined.

(** ** The whole of [transform_grand_prix_results] *)

(** X17: when a turn of the loops raises, [transform_grand_prix_results]
    returns the empty frame.  Otherwise, whatever the second sort does,
    the frame returned holds exactly the records built from the
    sessions, each once, with the fields it was built with: the context
    step loses none, adds none and raises nothing. *)
Theorem X17_context_keeps_every_record sort_desc utcnow db year :
  (built_results utcnow db year = None ->
   transform_grand_prix_results sort_desc utcnow db year = [])
  /\ (forall results,
        built_results utcnow db year = Some results ->
        Permutation
          (map Ctx.row (transform_grand_prix_results sort_desc utcnow db year))
          results
        /\ length (transform_grand_prix_results sort_desc utcnow db year)
           = length results).
Proof.
  unfold transform_grand_prix_results.
  destruct (built_results utcnow db year) as [out|]; split;
    try discriminate; try reflexivity.
  intros results E. inversion E; subst results.
  assert (P : Permutation
                (map Ctx.row
                   match out with
                   | [] => []
                   | _ :: _ =>
                       match _add_championship_context sort_desc out with
                       | Some results_df => results_df
                       | None => []
                       end
                   end) out).
  { destruct out as [|r rs]; auto.
    rewrite add_championship_context_final by discriminate. cbv zeta.
    rewrite map_map.
    rewrite (map_ext _ Ctx.row)
      by (intros x; apply final_ctx_base).
    rewrite group_cumsum_rows. apply sort_by_driver_date_perm. }
  split; auto.
  rewrite <- (Permutation_length P). now rewrite length_map.
Qed.

Lemma X17_witness :
  transform_grand_prix_results sort_by_total sample_clock unclassified_db 2023
  = []
  /\ length (transform_grand_prix_results sort_by_total sample_clock
               (sample_db false false) 2023) = 3%nat.
Proof.
  split.
  - apply (proj1 (X17_context_keeps_every_record sort_by_total sample_clock
                    unclassified_db 2023)).
    reflexivity.
  - destruct (proj2 (X17_context_keeps_every_record sort_by_total sample_clock
                       (sample_db false false) 2023) _ eq_refl) as [_ L].
    exact L.
Defined.
